(** * GreenCheck: the response parser, the PDF report and the submission

    The development embeds three functions of [src/App.tsx] and the service
    of [src/services/geminiService.ts]:

    - [parseSustainabilityResult] (lines 29-110), the line-oriented scanner
      that turns the plain-text answer of the model into a [ParsedResult];
    - [generatePdfReport] (lines 251-436), which walks a [ParsedResult] and
      places text on the pages of a jsPDF document;
    - [handleSubmit] (lines 213-249), which calls the service and shows its
      answer;
    - [checkSustainability] and [blobToBase64] of the service, over the
      outcomes of the calls they make to the browser and to the API.

    JavaScript strings are sequences of UTF-16 code units, and the string
    methods the parser uses ([trim], [split], [startsWith], [endsWith],
    [slice], [substring]) are defined on code units; they are embedded on
    [list N].  An exception ([TypeError]) is an explicit [Throw] result. *)

From Stdlib Require Import Ascii String.
From Stdlib Require Import List NArith ZArith QArith Bool Lia Lqa.
Import ListNotations.

(* ================================================================== *)
(** ** JavaScript strings *)
(* ================================================================== *)

Module JSString.

(** A UTF-16 code unit. *)
Definition char16 := N.

Definition jsstring := list char16.

(** An ASCII literal of the source, as code units. *)
Definition lit (s : string) : jsstring :=
  map N_of_ascii (list_ascii_of_string s).

Definition LF : char16 := 10%N.
Definition SP : char16 := 32%N.
Definition COLON : char16 := 58%N.

(** ECMAScript [WhiteSpace] and [LineTerminator] code points, the set
    [String.prototype.trim] strips. *)
Definition isWhiteSpace (c : char16) : bool :=
  ((9 <=? c) && (c <=? 13) || (c =? 32) || (c =? 160) || (c =? 5760)
   || (8192 <=? c) && (c <=? 8202) || (c =? 8232) || (c =? 8233)
   || (c =? 8239) || (c =? 8287) || (c =? 12288) || (c =? 65279))%N.

Fixpoint trimStart (s : jsstring) : jsstring :=
  match s with
  | [] => []
  | c :: s' => if isWhiteSpace c then trimStart s' else s
  end.

Definition trimEnd (s : jsstring) : jsstring := rev (trimStart (rev s)).

Definition trim (s : jsstring) : jsstring := trimEnd (trimStart s).

(** [s.startsWith(p)]. *)
Fixpoint startsWith (s p : jsstring) {struct p} : bool :=
  match p, s with
  | [], _ => true
  | _ :: _, [] => false
  | a :: p', b :: s' => (a =? b)%N && startsWith s' p'
  end.

(** [s.endsWith(p)]. *)
Definition endsWith (s p : jsstring) : bool := startsWith (rev s) (rev p).

(** [s.split(sep)] for a separator of one code unit; the result always has
    at least one element. *)
Fixpoint split (s : jsstring) (sep : char16) : list jsstring :=
  match s with
  | [] => [[]]
  | c :: s' =>
      if (c =? sep)%N then [] :: split s' sep
      else match split s' sep with
           | [] => [[c]]
           | l :: ls => (c :: l) :: ls
           end
  end.

(** A relative index of [slice], clamped as ECMAScript does. *)
Definition clampIndex (len : nat) (k : Z) : nat :=
  if (k <? 0)%Z then Z.to_nat (Z.max (Z.of_nat len + k) 0)
  else Nat.min (Z.to_nat k) len.

(** [s.slice(b, e)]. *)
Definition slice (s : jsstring) (b e : Z) : jsstring :=
  let from := clampIndex (length s) b in
  let to := clampIndex (length s) e in
  firstn (to - from) (skipn from s).

(** [s.substring(b)] for a constant [b >= 0]. *)
Definition substring (s : jsstring) (b : nat) : jsstring := skipn b s.

(** Strict equality [===] of two strings. *)
Fixpoint eqb (s t : jsstring) : bool :=
  match s, t with
  | [], [] => true
  | a :: s', b :: t' => (a =? b)%N && eqb s' t'
  | _, _ => false
  end.

(** Truthiness of a string: non-empty. *)
Definition truthy (s : jsstring) : bool :=
  match s with [] => false | _ :: _ => true end.

End JSString.
Import JSString.

Arguments lit s%_string.

(** The result of evaluating JavaScript code: a value or an exception. *)
Inductive js_error : Type := TypeError.

Inductive completion (A : Type) : Type :=
| Normal (a : A)
| Throw (e : js_error).
Arguments Normal {A} a.
Arguments Throw {A} e.

(* ================================================================== *)
(** ** The data model (App.tsx, lines 5-21) *)
(* ================================================================== *)

Record GroundingUrl : Type := { uri : jsstring; title : jsstring }.

Record IngredientDetail : Type :=
  { name : jsstring; explanation : jsstring }.

Record ParsedResult : Type :=
  { icon : jsstring;
    overallVerdict : jsstring;
    greenwashingRisk : jsstring;
    claimsFailed : list jsstring;
    whyClaimsFailed : list jsstring;
    ingredientsToNote : list jsstring;
    moreDetails : jsstring;
    ingredientSpecificDetails : list IngredientDetail;
    improvementSuggestions : list jsstring;
    groundingUrls : list GroundingUrl }.

(** [keyof ParsedResult], the type of the section cursor. *)
Inductive ResultKey : Type :=
| Kicon | KoverallVerdict | KgreenwashingRisk | KclaimsFailed
| KwhyClaimsFailed | KingredientsToNote | KmoreDetails
| KingredientSpecificDetails | KimprovementSuggestions | KgroundingUrls.

(** Field updates of the mutable [result] object. *)
Definition set_icon (r : ParsedResult) (v : jsstring) : ParsedResult :=
  {| icon := v; overallVerdict := overallVerdict r;
     greenwashingRisk := greenwashingRisk r; claimsFailed := claimsFailed r;
     whyClaimsFailed := whyClaimsFailed r;
     ingredientsToNote := ingredientsToNote r; moreDetails := moreDetails r;
     ingredientSpecificDetails := ingredientSpecificDetails r;
     improvementSuggestions := improvementSuggestions r;
     groundingUrls := groundingUrls r |}.

Definition set_overallVerdict (r : ParsedResult) (v : jsstring) : ParsedResult :=
  {| icon := icon r; overallVerdict := v;
     greenwashingRisk := greenwashingRisk r; claimsFailed := claimsFailed r;
     whyClaimsFailed := whyClaimsFailed r;
     ingredientsToNote := ingredientsToNote r; moreDetails := moreDetails r;
     ingredientSpecificDetails := ingredientSpecificDetails r;
     improvementSuggestions := improvementSuggestions r;
     groundingUrls := groundingUrls r |}.

Definition set_greenwashingRisk (r : ParsedResult) (v : jsstring) : ParsedResult :=
  {| icon := icon r; overallVerdict := overallVerdict r;
     greenwashingRisk := v; claimsFailed := claimsFailed r;
     whyClaimsFailed := whyClaimsFailed r;
     ingredientsToNote := ingredientsToNote r; moreDetails := moreDetails r;
     ingredientSpecificDetails := ingredientSpecificDetails r;
     improvementSuggestions := improvementSuggestions r;
     groundingUrls := groundingUrls r |}.

Definition set_claimsFailed (r : ParsedResult) (v : list jsstring) : ParsedResult :=
  {| icon := icon r; overallVerdict := overallVerdict r;
     greenwashingRisk := greenwashingRisk r; claimsFailed := v;
     whyClaimsFailed := whyClaimsFailed r;
     ingredientsToNote := ingredientsToNote r; moreDetails := moreDetails r;
     ingredientSpecificDetails := ingredientSpecificDetails r;
     improvementSuggestions := improvementSuggestions r;
     groundingUrls := groundingUrls r |}.

Definition set_whyClaimsFailed (r : ParsedResult) (v : list jsstring) : ParsedResult :=
  {| icon := icon r; overallVerdict := overallVerdict r;
     greenwashingRisk := greenwashingRisk r; claimsFailed := claimsFailed r;
     whyClaimsFailed := v;
     ingredientsToNote := ingredientsToNote r; moreDetails := moreDetails r;
     ingredientSpecificDetails := ingredientSpecificDetails r;
     improvementSuggestions := improvementSuggestions r;
     groundingUrls := groundingUrls r |}.

Definition set_ingredientsToNote (r : ParsedResult) (v : list jsstring) : ParsedResult :=
  {| icon := icon r; overallVerdict := overallVerdict r;
     greenwashingRisk := greenwashingRisk r; claimsFailed := claimsFailed r;
     whyClaimsFailed := whyClaimsFailed r;
     ingredientsToNote := v; moreDetails := moreDetails r;
     ingredientSpecificDetails := ingredientSpecificDetails r;
     improvementSuggestions := improvementSuggestions r;
     groundingUrls := groundingUrls r |}.

Definition set_moreDetails (r : ParsedResult) (v : jsstring) : ParsedResult :=
  {| icon := icon r; overallVerdict := overallVerdict r;
     greenwashingRisk := greenwashingRisk r; claimsFailed := claimsFailed r;
     whyClaimsFailed := whyClaimsFailed r;
     ingredientsToNote := ingredientsToNote r; moreDetails := v;
     ingredientSpecificDetails := ingredientSpecificDetails r;
     improvementSuggestions := improvementSuggestions r;
     groundingUrls := groundingUrls r |}.

Definition set_ingredientSpecificDetails (r : ParsedResult)
    (v : list IngredientDetail) : ParsedResult :=
  {| icon := icon r; overallVerdict := overallVerdict r;
     greenwashingRisk := greenwashingRisk r; claimsFailed := claimsFailed r;
     whyClaimsFailed := whyClaimsFailed r;
     ingredientsToNote := ingredientsToNote r; moreDetails := moreDetails r;
     ingredientSpecificDetails := v;
     improvementSuggestions := improvementSuggestions r;
     groundingUrls := groundingUrls r |}.

Definition set_improvementSuggestions (r : ParsedResult) (v : list jsstring) : ParsedResult :=
  {| icon := icon r; overallVerdict := overallVerdict r;
     greenwashingRisk := greenwashingRisk r; claimsFailed := claimsFailed r;
     whyClaimsFailed := whyClaimsFailed r;
     ingredientsToNote := ingredientsToNote r; moreDetails := moreDetails r;
     ingredientSpecificDetails := ingredientSpecificDetails r;
     improvementSuggestions := v;
     groundingUrls := groundingUrls r |}.

Definition set_groundingUrls (r : ParsedResult) (v : list GroundingUrl) : ParsedResult :=
  {| icon := icon r; overallVerdict := overallVerdict r;
     greenwashingRisk := greenwashingRisk r; claimsFailed := claimsFailed r;
     whyClaimsFailed := whyClaimsFailed r;
     ingredientsToNote := ingredientsToNote r; moreDetails := moreDetails r;
     ingredientSpecificDetails := ingredientSpecificDetails r;
     improvementSuggestions := improvementSuggestions r;
     groundingUrls := v |}.

(* ================================================================== *)
(** ** The literals of the parser *)
(* ================================================================== *)

(** [IRRELEVANT_INPUT_MESSAGE] (lines 24-26): three lines; the apostrophe of
    the second line is U+2019. *)
Definition IRRELEVANT_INPUT_MESSAGE : jsstring :=
  lit "Input not recognized as a product label." ++ [LF]
  ++ lit "Please paste a product" ++ [8217%N]
  ++ lit "s ingredient list or upload a clear image of the ingredient label to run a sustainability check."
  ++ [LF]
  ++ lit "For example: ingredients, material lists, or sustainability claims printed on packaging.".

(** The three icons: U+274C, U+1F7E0 (a surrogate pair) and U+2705. *)
Definition ICON_CROSS : jsstring := [10060%N].
Definition ICON_ORANGE : jsstring := [55357%N; 57312%N].
Definition ICON_CHECK : jsstring := [9989%N].

Definition H_OVERALL_VERDICT : jsstring := lit "Overall Verdict:".
Definition H_GREENWASHING_RISK : jsstring := lit "Greenwashing Risk:".
Definition H_CLAIMS_FAILED : jsstring :=
  lit "Claims that failed to meet expectations:".
Definition H_WHY_FAILED : jsstring := lit "Why these claims failed:".
Definition H_INGREDIENTS_TO_NOTE : jsstring := lit "Ingredients to note:".
Definition H_MORE_DETAILS : jsstring := lit "More details:".
Definition H_INGREDIENT_SPECIFIC : jsstring := lit "Ingredient-specific details:".
Definition H_IMPROVEMENT : jsstring := lit "Improvement suggestions:".
Definition BULLET : jsstring := lit "- ".

(* ================================================================== *)
(** ** parseSustainabilityResult (lines 29-110) *)
(* ================================================================== *)

(** The variables of the loop: the [result] object, [currentSection] and
    [ingredientDetailName]. *)
Record scan_state : Type :=
  { result : ParsedResult;
    currentSection : option ResultKey;
    ingredientDetailName : jsstring }.

Definition with_result (st : scan_state) (r : ParsedResult) : scan_state :=
  {| result := r; currentSection := currentSection st;
     ingredientDetailName := ingredientDetailName st |}.

Definition with_section (st : scan_state) (k : option ResultKey) : scan_state :=
  {| result := result st; currentSection := k;
     ingredientDetailName := ingredientDetailName st |}.

Definition with_name (st : scan_state) (n : jsstring) : scan_state :=
  {| result := result st; currentSection := currentSection st;
     ingredientDetailName := n |}.

(** The object of lines 34-45. *)
Definition empty_result : ParsedResult :=
  {| icon := []; overallVerdict := []; greenwashingRisk := [];
     claimsFailed := []; whyClaimsFailed := []; ingredientsToNote := [];
     moreDetails := []; ingredientSpecificDetails := [];
     improvementSuggestions := []; groundingUrls := [] |}.

Definition initial_state : scan_state :=
  {| result := empty_result; currentSection := None;
     ingredientDetailName := [] |}.

(** [line.startsWith('❌') || line.startsWith('🟠') || line.startsWith('✅')]
    (line 53). *)
Definition startsWithIcon (line : jsstring) : bool :=
  startsWith line ICON_CROSS || startsWith line ICON_ORANGE
  || startsWith line ICON_CHECK.

(** [result.ingredientSpecificDetails[lastIndex].explanation += line + '\n']
    (lines 89-92), with its guard [lastIndex >= 0]. *)
Fixpoint append_to_last (ds : list IngredientDetail) (text : jsstring)
  : list IngredientDetail :=
  match ds with
  | [] => []
  | [d] => [{| name := name d; explanation := explanation d ++ text |}]
  | d :: ds' => d :: append_to_last ds' text
  end.

(** Lines 73-97: the branch [else if (currentSection)], for a line that is
    neither an icon line nor a header. *)
Definition section_body (st : scan_state) (line : jsstring) : scan_state :=
  match currentSection st with
  | None => st
  | Some k =>
      let r := result st in
      match k with
      | KclaimsFailed =>
          if startsWith line BULLET
          then with_result st
                 (set_claimsFailed r (claimsFailed r ++ [trim (substring line 2)]))
          else st
      | KwhyClaimsFailed =>
          if startsWith line BULLET
          then with_result st
                 (set_whyClaimsFailed r
                    (whyClaimsFailed r ++ [trim (substring line 2)]))
          else st
      | KingredientsToNote =>
          if startsWith line BULLET
          then with_result st
                 (set_ingredientsToNote r
                    (ingredientsToNote r ++ [trim (substring line 2)]))
          else st
      | KmoreDetails =>
          if truthy line
          then with_result st (set_moreDetails r (moreDetails r ++ line ++ [LF]))
          else st
      | KingredientSpecificDetails =>
          if endsWith line [COLON] then
            let n := trim (slice line 0 (-1)) in
            let st' := with_name st n in
            if truthy n
            then with_result st'
                   (set_ingredientSpecificDetails r
                      (ingredientSpecificDetails r
                         ++ [{| name := n; explanation := [] |}]))
            else st'
          else if truthy (ingredientDetailName st) && truthy line then
            with_result st
              (set_ingredientSpecificDetails r
                 (append_to_last (ingredientSpecificDetails r) (line ++ [LF])))
          else st
      | KimprovementSuggestions =>
          if startsWith line BULLET
          then with_result st
                 (set_improvementSuggestions r
                    (improvementSuggestions r ++ [trim (substring line 2)]))
          else st
      | _ => st
      end
  end.

(** Lines 61-97: the six headers that only move the cursor, then the section
    body. *)
Definition section_line (st : scan_state) (line : jsstring) : scan_state :=
  if startsWith line H_CLAIMS_FAILED then with_section st (Some KclaimsFailed)
  else if startsWith line H_WHY_FAILED then with_section st (Some KwhyClaimsFailed)
  else if startsWith line H_INGREDIENTS_TO_NOTE
  then with_section st (Some KingredientsToNote)
  else if startsWith line H_MORE_DETAILS then with_section st (Some KmoreDetails)
  else if startsWith line H_INGREDIENT_SPECIFIC
  then with_section st (Some KingredientSpecificDetails)
  else if startsWith line H_IMPROVEMENT
  then with_section st (Some KimprovementSuggestions)
  else section_body st line.

(** The [for] loop of lines 50-98.  [lines] is the part of the array from
    index [i] on; the two single-value headers read [lines[++i]], which is
    [undefined] past the end of the array, and [undefined.trim()] throws a
    [TypeError]. *)
Fixpoint scan (lines : list jsstring) (st : scan_state)
  : completion scan_state :=
  match lines with
  | [] => Normal st
  | raw :: rest =>
      let line := trim raw in
      if startsWithIcon line then
        scan rest (with_result st (set_icon (result st) (hd [] (split line SP))))
      else if startsWith line H_OVERALL_VERDICT then
        match rest with
        | [] => Throw TypeError
        | next :: rest' =>
            scan rest'
              (with_section
                 (with_result st (set_overallVerdict (result st) (trim next)))
                 None)
        end
      else if startsWith line H_GREENWASHING_RISK then
        match rest with
        | [] => Throw TypeError
        | next :: rest' =>
            scan rest'
              (with_section
                 (with_result st (set_greenwashingRisk (result st) (trim next)))
                 None)
        end
      else scan rest (section_line st line)
  end.

(** The same loop on the array and the index [i], as the source writes it:
    [lines[i]] is [nth_error lines i], the test [i < lines.length] fails when
    it is [None], and [fuel] bounds the number of iterations.
    [forLoop_scan] below shows that, with [lines.length] iterations allowed,
    this is [scan] on the lines from index [i] on. *)
Fixpoint forLoop (fuel : nat) (lines : list jsstring) (i : nat)
    (st : scan_state) : completion scan_state :=
  match fuel with
  | O => Normal st
  | S fuel' =>
      match nth_error lines i with
      | None => Normal st
      | Some raw =>
          let line := trim raw in
          if startsWithIcon line then
            forLoop fuel' lines (S i)
              (with_result st (set_icon (result st) (hd [] (split line SP))))
          else if startsWith line H_OVERALL_VERDICT then
            match nth_error lines (S i) with
            | None => Throw TypeError
            | Some next =>
                forLoop fuel' lines (S (S i))
                  (with_section
                     (with_result st
                        (set_overallVerdict (result st) (trim next)))
                     None)
            end
          else if startsWith line H_GREENWASHING_RISK then
            match nth_error lines (S i) with
            | None => Throw TypeError
            | Some next =>
                forLoop fuel' lines (S (S i))
                  (with_section
                     (with_result st
                        (set_greenwashingRisk (result st) (trim next)))
                     None)
            end
          else forLoop fuel' lines (S i) (section_line st line)
      end
  end.

(** Lines 100-107: the clean-up of the two multi-line fields. *)
Definition trim_explanation (item : IngredientDetail) : IngredientDetail :=
  {| name := name item; explanation := trim (explanation item) |}.

Definition cleanup (r : ParsedResult) : ParsedResult :=
  let r1 := if truthy (moreDetails r)
            then set_moreDetails r (trim (moreDetails r)) else r in
  set_ingredientSpecificDetails r1
    (map trim_explanation (ingredientSpecificDetails r1)).

(** The guard of line 30. *)
Definition irrelevant (rawText : jsstring) : bool :=
  negb (truthy rawText) || eqb (trim rawText) (trim IRRELEVANT_INPUT_MESSAGE).

(** [parseSustainabilityResult]: [Normal None] is the [null] of line 31. *)
Definition parseSustainabilityResult (rawText : jsstring)
  : completion (option ParsedResult) :=
  if irrelevant rawText then Normal None
  else match scan (split rawText LF) initial_state with
       | Normal st => Normal (Some (cleanup (result st)))
       | Throw e => Throw e
       end.

(** Lines 235-239 of [handleSubmit]: the caller attaches the citations. *)
Definition merge_grounding (parsed : option ParsedResult)
    (urls : list GroundingUrl) : option ParsedResult :=
  match parsed with
  | Some p => Some (set_groundingUrls p urls)
  | None => None
  end.

(* ================================================================== *)
(** ** generatePdfReport (lines 251-436) *)
(* ================================================================== *)

(** The jsPDF document is an object of a library; it is embedded as the log
    of the method calls made on it, in order.  Coordinates are JavaScript
    numbers; every cursor value of [generatePdfReport] is a multiple of 0.5
    and the arithmetic on them is exact, so they are embedded in [Q]. *)
Inductive pdf_op : Type :=
| SetFontSize (size : Q)
| SetFont (family style : jsstring)
| SetTextColor (r g b : Q)
| Text (s : jsstring) (x y : Q)
| TextWithLink (s : jsstring) (x y : Q) (url : jsstring)
| AddPage
| Save (filename : jsstring).

(** The two mutable things of the function: the document and [y]. *)
Record pdf_state : Type := { doc : list pdf_op; y : Q }.

Definition emit (op : pdf_op) (st : pdf_state) : pdf_state :=
  {| doc := doc st ++ [op]; y := y st |}.

Definition advance (dy : Q) (st : pdf_state) : pdf_state :=
  {| doc := doc st; y := y st + dy |}.

Definition andThen (f g : pdf_state -> pdf_state) : pdf_state -> pdf_state :=
  fun st => g (f st).

Declare Scope pdf_scope.
Delimit Scope pdf_scope with pdf.
Notation "f ;; g" := (andThen f g)
  (at level 61, left associativity) : pdf_scope.

Definition helvetica : jsstring := lit "helvetica".
Definition bold : jsstring := lit "bold".
Definition normal : jsstring := lit "normal".

Definition F_NONE : jsstring := lit "None".
Definition F_ALL_REASONABLE : jsstring :=
  lit "All claims appear reasonable or are well-supported by ingredients.".
Definition T_TITLE : jsstring := lit " Sustainability Check Result".
Definition H_SOURCES : jsstring := lit "Source Information:".

Section Report.

(** What the function reads from the jsPDF document:
    [doc.internal.pageSize], [doc.getTextWidth] and [doc.splitTextToSize];
    the last two depend on the state of the document (its current font),
    that is on the calls made so far. *)
Variables pageWidth pageHeight : Q.
Variable getTextWidth : list pdf_op -> jsstring -> Q.
Variable splitTextToSize : list pdf_op -> jsstring -> Q -> list jsstring.

Definition margin : Q := 10.
Definition lineHeight : Q := 7.
Definition sectionSpacing : Q := 10.
Definition textWidth : Q := pageWidth - 2 * margin.

(** [if (y + need > doc.internal.pageSize.height - margin)
      { doc.addPage(); y = margin; }] *)
Definition pageBreakIfNeeded (need : Q) (st : pdf_state) : pdf_state :=
  if negb (Qle_bool (y st + need) (pageHeight - margin))
  then {| doc := doc st ++ [AddPage]; y := margin |}
  else st.

(** [doc.text(s, x, y)] at the running cursor. *)
Definition text (s : jsstring) (x : Q) (st : pdf_state) : pdf_state :=
  emit (Text s x (y st)) st.

(** [doc.text(value, margin + doc.getTextWidth(label) + extra, y)]. *)
Definition textAfterLabel (value label : jsstring) (extra : Q)
    (st : pdf_state) : pdf_state :=
  emit (Text value (margin + getTextWidth (doc st) label + extra) (y st)) st.

(** Lines 262-266. *)
Definition header (r : ParsedResult) : pdf_state -> pdf_state :=
  (emit (SetFontSize 18) ;; emit (SetFont helvetica bold)
   ;; text (icon r ++ T_TITLE) margin ;; advance (lineHeight * 2))%pdf.

(** Lines 268-274. *)
Definition verdictLine (r : ParsedResult) : pdf_state -> pdf_state :=
  (emit (SetFontSize 12) ;; emit (SetFont helvetica bold)
   ;; text H_OVERALL_VERDICT margin
   ;; emit (SetFont helvetica normal)
   ;; (fun st => emit (Text (overallVerdict r)
                       (margin + getTextWidth (doc st) (lit "Overall Verdict: "))
                       (y st)) st)
   ;; advance lineHeight)%pdf.

(** Lines 276-281. *)
Definition riskLine (r : ParsedResult) : pdf_state -> pdf_state :=
  (emit (SetFont helvetica bold)
   ;; text H_GREENWASHING_RISK margin
   ;; emit (SetFont helvetica normal)
   ;; (fun st => emit (Text (greenwashingRisk r)
                       (margin + getTextWidth (doc st) (lit "Greenwashing Risk: "))
                       (y st)) st)
   ;; advance (lineHeight + sectionSpacing))%pdf.

(** The body of the four [forEach] loops over bulleted entries
    (lines 289-296, 312-319, 335-342, 404-411). *)
Definition bulletItem (st : pdf_state) (entry : jsstring) : pdf_state :=
  (pageBreakIfNeeded lineHeight
   ;; text (BULLET ++ entry) (margin + 5)
   ;; advance lineHeight)%pdf st.

(** A heading followed by its bulleted entries. *)
Definition bulletedBlock (heading : jsstring) (entries : list jsstring)
  : pdf_state -> pdf_state :=
  (emit (SetFont helvetica bold) ;; text heading margin ;; advance lineHeight
   ;; emit (SetFont helvetica normal)
   ;; (fun st => fold_left bulletItem entries st)
   ;; advance sectionSpacing)%pdf.

(** A heading followed, on the same line, by a fallback string. *)
Definition fallbackBlock (heading label fallback : jsstring)
  : pdf_state -> pdf_state :=
  (emit (SetFont helvetica bold) ;; text heading margin
   ;; emit (SetFont helvetica normal)
   ;; textAfterLabel fallback label 2
   ;; advance (lineHeight + sectionSpacing))%pdf.

(** Lines 283-304. *)
Definition claimsBlock (r : ParsedResult) : pdf_state -> pdf_state :=
  match claimsFailed r with
  | _ :: _ => bulletedBlock H_CLAIMS_FAILED (claimsFailed r)
  | [] => fallbackBlock H_CLAIMS_FAILED
            (lit "Claims that failed to meet expectations: ") F_NONE
  end.

(** Lines 306-327. *)
Definition whyBlock (r : ParsedResult) : pdf_state -> pdf_state :=
  match whyClaimsFailed r with
  | _ :: _ => bulletedBlock H_WHY_FAILED (whyClaimsFailed r)
  | [] => fallbackBlock H_WHY_FAILED (lit "Why these claims failed: ")
            F_ALL_REASONABLE
  end.

(** Lines 329-350. *)
Definition ingredientsBlock (r : ParsedResult) : pdf_state -> pdf_state :=
  match ingredientsToNote r with
  | _ :: _ => bulletedBlock H_INGREDIENTS_TO_NOTE (ingredientsToNote r)
  | [] => fallbackBlock H_INGREDIENTS_TO_NOTE (lit "Ingredients to note: ")
            F_NONE
  end.

(** The body of the loops over wrapped lines (lines 360-367, 385-392). *)
Definition wrappedLine (x : Q) (st : pdf_state) (line : jsstring)
  : pdf_state :=
  (pageBreakIfNeeded lineHeight ;; text line x ;; advance lineHeight)%pdf st.

(** Lines 353-369. *)
Definition moreDetailsBlock (r : ParsedResult) : pdf_state -> pdf_state :=
  if truthy (moreDetails r) then
    (emit (SetFont helvetica bold) ;; text H_MORE_DETAILS margin
     ;; advance lineHeight ;; emit (SetFont helvetica normal)
     ;; (fun st =>
           fold_left (wrappedLine margin)
             (splitTextToSize (doc st) (moreDetails r) textWidth) st)
     ;; advance sectionSpacing)%pdf
  else (fun st => st).

(** Lines 377-394: one ingredient, its name grouped with the first line of
    its explanation. *)
Definition ingredientItem (st : pdf_state) (item : IngredientDetail)
  : pdf_state :=
  (pageBreakIfNeeded (lineHeight * 2)
   ;; text (name item ++ [COLON]) (margin + 5)
   ;; advance lineHeight
   ;; (fun st =>
         fold_left (wrappedLine (margin + 10))
           (splitTextToSize (doc st) (explanation item) (textWidth - 10)) st)
   ;; advance (lineHeight / 2))%pdf st.

(** Lines 371-396. *)
Definition ingredientDetailsBlock (r : ParsedResult)
  : pdf_state -> pdf_state :=
  match ingredientSpecificDetails r with
  | _ :: _ =>
      (emit (SetFont helvetica bold) ;; text H_INGREDIENT_SPECIFIC margin
       ;; advance lineHeight ;; emit (SetFont helvetica normal)
       ;; (fun st => fold_left ingredientItem (ingredientSpecificDetails r) st)
       ;; advance sectionSpacing)%pdf
  | [] => fun st => st
  end.

(** Lines 398-413. *)
Definition suggestionsBlock (r : ParsedResult) : pdf_state -> pdf_state :=
  match improvementSuggestions r with
  | _ :: _ => bulletedBlock H_IMPROVEMENT (improvementSuggestions r)
  | [] => fun st => st
  end.

(** Lines 421-431: one citation, its title (or, when the title is empty,
    its URI) and the link under it. *)
Definition urlItem (st : pdf_state) (url : GroundingUrl) : pdf_state :=
  (pageBreakIfNeeded (lineHeight * 2)
   ;; text (if truthy (title url) then title url else uri url) (margin + 5)
   ;; emit (SetTextColor 0 0 255)
   ;; (fun st =>
         emit (TextWithLink (uri url) (margin + 5) (y st + lineHeight / 2)
                 (uri url)) st)
   ;; emit (SetTextColor 0 0 0)
   ;; advance (lineHeight * 2))%pdf st.

(** Lines 415-433. *)
Definition groundingBlock (r : ParsedResult) : pdf_state -> pdf_state :=
  match groundingUrls r with
  | _ :: _ =>
      (emit (SetFont helvetica bold) ;; text H_SOURCES margin
       ;; advance lineHeight ;; emit (SetFont helvetica normal)
       ;; (fun st => fold_left urlItem (groundingUrls r) st)
       ;; advance sectionSpacing)%pdf
  | [] => fun st => st
  end.

(** [new jsPDF()] and [let y = 10] (lines 254-255). *)
Definition newDocument : pdf_state := {| doc := []; y := 10 |}.

Definition render (r : ParsedResult) : pdf_state -> pdf_state :=
  (header r ;; verdictLine r ;; riskLine r ;; claimsBlock r ;; whyBlock r
   ;; ingredientsBlock r ;; moreDetailsBlock r ;; ingredientDetailsBlock r
   ;; suggestionsBlock r ;; groundingBlock r
   ;; emit (Save (lit "GreenChoice_Report.pdf")))%pdf.

(** [generatePdfReport]: the calls made on the document, or [None] when
    [parsedResult] is [null] and no document is created (line 252). *)
Definition generatePdfReport (parsedResult : option ParsedResult)
  : option (list pdf_op) :=
  match parsedResult with
  | None => None
  | Some r => Some (doc (render r newDocument))
  end.

End Report.

(* ================================================================== *)
(** ** checkSustainability (services/geminiService.ts) *)
(* ================================================================== *)

Module Service.

(** A [Blob] (a [File] is one): its MIME type and its bytes. *)
Record Blob : Type := { type : jsstring; bytes : list N }.

Definition File : Type := Blob.

(** What a rejected promise carries: an [Error] with its message; some
    other value, with its [message] property if it has one (the event of
    [reader.onerror] has none); or [undefined] or [null], of which no
    property can be read. *)
Inductive thrown : Type :=
| ErrorObject (message : jsstring)
| OtherValue (message : option jsstring)
| Nullish.

(** A settled promise. *)
Inductive promise (A : Type) : Type :=
| Resolved (a : A)
| Rejected (e : thrown).
Arguments Resolved {A} a.
Arguments Rejected {A} e.

(** The parts of the response the function reads.  [web.uri] is taken as a
    string, as the interface [GroundingUrl] of the file declares it;
    [web.title] may be missing. *)
Record WebSource : Type := { webUri : jsstring; webTitle : option jsstring }.
Record GroundingChunk : Type := { web : option WebSource }.
Record GroundingMetadata : Type :=
  { groundingChunks : option (list GroundingChunk) }.
Record Candidate : Type := { groundingMetadata : option GroundingMetadata }.
Record GenerateContentResponse : Type :=
  { responseText : option jsstring; candidates : option (list Candidate) }.

(** An element of [contents]: [{ text }] or [{ inlineData: { mimeType, data } }];
    [data] is [undefined] when [blobToBase64] resolves with it. *)
Inductive Part : Type :=
| TextPart (text : jsstring)
| InlineData (mimeType : jsstring) (data : option jsstring).

(** What [FileReader.readAsDataURL] leaves: [reader.result] (a string or
    not) at [onload], or the value given to [onerror]. *)
Inductive readerOutcome : Type :=
| Loaded (result : option jsstring)
| ReadFailed (e : thrown).

(** The browser and the API, as the outcomes of the calls made to them:
    [convertAvifToJpegBlob] runs on an [Image] and a canvas only and is
    taken whole.  [hasApiKey] tells whether [process.env.API_KEY], which
    the bundler puts in, is a key that the constructor [GoogleGenAI]
    accepts. *)
Record Environment : Type :=
  { hasApiKey : bool;
    readAsDataURL : Blob -> readerOutcome;
    convertAvifToJpegBlob : File -> promise Blob;
    generateContent : list Part -> promise GenerateContentResponse }.

(** The value the promise of [checkSustainability] resolves with. *)
Record Response : Type :=
  { text : jsstring; groundingUrls : list GroundingUrl }.

Definition COMMA : char16 := 44%N.

Definition E_READ : jsstring := lit "Failed to read blob as Data URL.".
Definition E_AVIF : jsstring :=
  lit "Could not process AVIF image for sustainability check.".
Definition E_IMAGE : jsstring :=
  lit "Could not process image for sustainability check.".
Definition E_NO_INPUT : jsstring :=
  lit "No input (text or image) provided for sustainability check.".
Definition E_NO_TEXT : jsstring :=
  lit "No text response received from the Gemini model.".
Definition E_API_PREFIX : jsstring := lit "Gemini API error: ".
Definition E_UNKNOWN : jsstring :=
  lit "An unknown error occurred while communicating with the Gemini API.".

(** The library is not part of the repository.  In a browser its
    constructor [GoogleGenAI] throws an [Error] with this message when it is
    given no API key. *)
Definition E_API_KEY : jsstring :=
  lit "An API Key must be set when running in a browser".

(** [blobToBase64] (lines 4-19): [reader.result.split(',')[1]], which is
    [undefined] when the result holds no comma. *)
Definition blobToBase64 (env : Environment) (blob : Blob)
  : promise (option jsstring) :=
  match readAsDataURL env blob with
  | Loaded (Some result) => Resolved (nth_error (split result COMMA) 1)
  | Loaded None => Rejected (ErrorObject E_READ)
  | ReadFailed e => Rejected e
  end.

(** [response.candidates?.[0]?.groundingMetadata?.groundingChunks || []]. *)
Definition chunksOf (response : GenerateContentResponse)
  : list GroundingChunk :=
  match candidates response with
  | Some (c :: _) =>
      match groundingMetadata c with
      | Some m => match groundingChunks m with Some l => l | None => [] end
      | None => []
      end
  | _ => []
  end.

(** [web.title || web.uri]. *)
Definition titleOrUri (w : WebSource) : jsstring :=
  match webTitle w with
  | Some t => if truthy t then t else webUri w
  | None => webUri w
  end.

(** The loop of lines 508-515. *)
Definition extractUrls (chunks : list GroundingChunk) : list GroundingUrl :=
  flat_map (fun chunk =>
              match web chunk with
              | Some w => [{| uri := webUri w; title := titleOrUri w |}]
              | None => []
              end) chunks.

(** Lines 452-482: the parts of the request, or the error of the image. *)
Definition buildContents (env : Environment) (textInput : jsstring)
    (imageFile : option File) : promise (list Part) :=
  let contents := if truthy textInput then [TextPart textInput] else [] in
  match imageFile with
  | None => Resolved contents
  | Some file =>
      let processed :=
        if eqb (type file) (lit "image/avif") then
          match convertAvifToJpegBlob env file with
          | Resolved blob => Resolved (blob, lit "image/jpeg")
          | Rejected _ => Rejected (ErrorObject E_AVIF)
          end
        else Resolved (file, type file) in
      match processed with
      | Rejected e => Rejected e
      | Resolved (blob, mimeType) =>
          match blobToBase64 env blob with
          | Resolved data => Resolved (contents ++ [InlineData mimeType data])
          | Rejected _ => Rejected (ErrorObject E_IMAGE)
          end
      end
  end.

(** Lines 484-532: the check of the parts and the call of the API.  The
    error "No text response" is thrown inside the [try] of the call, so the
    [catch] of line 525 wraps it like an error of the API. *)
Definition callApi (env : Environment) (contents : promise (list Part))
  : promise Response :=
  match contents with
  | Rejected e => Rejected e
  | Resolved [] => Rejected (ErrorObject E_NO_INPUT)
  | Resolved (part :: parts) =>
      match generateContent env (part :: parts) with
      | Resolved response =>
          let groundingUrls := extractUrls (chunksOf response) in
          match responseText response with
          | Some t =>
              if truthy t
              then Resolved {| text := trim t; groundingUrls := groundingUrls |}
              else Rejected (ErrorObject (E_API_PREFIX ++ E_NO_TEXT))
          | None => Rejected (ErrorObject (E_API_PREFIX ++ E_NO_TEXT))
          end
      | Rejected (ErrorObject message) =>
          Rejected (ErrorObject (E_API_PREFIX ++ message))
      | Rejected _ => Rejected (ErrorObject E_UNKNOWN)
      end
  end.

(** [checkSustainability] (lines 59-533).  [new GoogleGenAI({ apiKey })]
    (line 66) runs first and outside every [try]: without a key it throws,
    and the promise is rejected with that error as it is.  The calls of
    [console.error] are left out. *)
Definition checkSustainability (env : Environment) (textInput : jsstring)
    (imageFile : option File) : promise Response :=
  if hasApiKey env
  then callApi env (buildContents env textInput imageFile)
  else Rejected (ErrorObject E_API_KEY).

End Service.

(* ================================================================== *)
(** ** handleSubmit (App.tsx, lines 213-249) *)
(* ================================================================== *)

Module App.

(** The state of the component (lines 114-126). *)
Record State : Type :=
  { productInput : jsstring;
    imageFile : option Service.File;
    previewUrl : option jsstring;
    loading : bool;
    result : option jsstring;
    parsedResult : option ParsedResult;
    irrelevantInputMessage : option jsstring;
    error : option jsstring;
    showMoreDetails : bool;
    showIngredientSpecificDetails : bool;
    showImprovementSuggestions : bool;
    showGroundingUrls : bool }.

Definition setLoading (v : bool) (s : State) : State :=
  {| productInput := productInput s; imageFile := imageFile s;
     previewUrl := previewUrl s; loading := v; result := result s;
     parsedResult := parsedResult s;
     irrelevantInputMessage := irrelevantInputMessage s; error := error s;
     showMoreDetails := showMoreDetails s;
     showIngredientSpecificDetails := showIngredientSpecificDetails s;
     showImprovementSuggestions := showImprovementSuggestions s;
     showGroundingUrls := showGroundingUrls s |}.

Definition setResult (v : option jsstring) (s : State) : State :=
  {| productInput := productInput s; imageFile := imageFile s;
     previewUrl := previewUrl s; loading := loading s; result := v;
     parsedResult := parsedResult s;
     irrelevantInputMessage := irrelevantInputMessage s; error := error s;
     showMoreDetails := showMoreDetails s;
     showIngredientSpecificDetails := showIngredientSpecificDetails s;
     showImprovementSuggestions := showImprovementSuggestions s;
     showGroundingUrls := showGroundingUrls s |}.

Definition setParsedResult (v : option ParsedResult) (s : State) : State :=
  {| productInput := productInput s; imageFile := imageFile s;
     previewUrl := previewUrl s; loading := loading s; result := result s;
     parsedResult := v;
     irrelevantInputMessage := irrelevantInputMessage s; error := error s;
     showMoreDetails := showMoreDetails s;
     showIngredientSpecificDetails := showIngredientSpecificDetails s;
     showImprovementSuggestions := showImprovementSuggestions s;
     showGroundingUrls := showGroundingUrls s |}.

Definition setIrrelevantInputMessage (v : option jsstring) (s : State)
  : State :=
  {| productInput := productInput s; imageFile := imageFile s;
     previewUrl := previewUrl s; loading := loading s; result := result s;
     parsedResult := parsedResult s;
     irrelevantInputMessage := v; error := error s;
     showMoreDetails := showMoreDetails s;
     showIngredientSpecificDetails := showIngredientSpecificDetails s;
     showImprovementSuggestions := showImprovementSuggestions s;
     showGroundingUrls := showGroundingUrls s |}.

Definition setError (v : option jsstring) (s : State) : State :=
  {| productInput := productInput s; imageFile := imageFile s;
     previewUrl := previewUrl s; loading := loading s; result := result s;
     parsedResult := parsedResult s;
     irrelevantInputMessage := irrelevantInputMessage s; error := v;
     showMoreDetails := showMoreDetails s;
     showIngredientSpecificDetails := showIngredientSpecificDetails s;
     showImprovementSuggestions := showImprovementSuggestions s;
     showGroundingUrls := showGroundingUrls s |}.

(** The four [setShow...(false)] of lines 219-222. *)
Definition collapseSections (s : State) : State :=
  {| productInput := productInput s; imageFile := imageFile s;
     previewUrl := previewUrl s; loading := loading s; result := result s;
     parsedResult := parsedResult s;
     irrelevantInputMessage := irrelevantInputMessage s; error := error s;
     showMoreDetails := false;
     showIngredientSpecificDetails := false;
     showImprovementSuggestions := false;
     showGroundingUrls := false |}.

Definition M_NO_INPUT : jsstring :=
  lit "Please provide either text input or an image.".
Definition M_FAILED : jsstring := lit "Failed to check sustainability: ".
Definition M_UNKNOWN : jsstring := lit "Unknown error".

(** [isFormValid] (line 438). *)
Definition isFormValid (s : State) : bool :=
  negb (eqb (trim (productInput s)) [])
  || match imageFile s with Some _ => true | None => false end.

(** [!productInput && !imageFile] (line 225). *)
Definition noInput (s : State) : bool :=
  negb (truthy (productInput s))
  && match imageFile s with Some _ => false | None => true end.

(** The [catch] of lines 243-245, for a value [err] that is neither
    [undefined] nor [null]: [err.message || 'Unknown error']. *)
Definition failed (message : option jsstring) (s : State) : State :=
  setError
    (Some (M_FAILED
           ++ match message with
              | Some m => if truthy m then m else M_UNKNOWN
              | None => M_UNKNOWN
              end)) s.

(** Lines 231-242: what is done with the response. *)
Definition showResponse (typeErrorMessage : jsstring)
    (response : Service.Response) (s : State) : State :=
  if eqb (trim (Service.text response)) (trim IRRELEVANT_INPUT_MESSAGE) then
    setParsedResult None
      (setIrrelevantInputMessage (Some (Service.text response)) s)
  else
    match parseSustainabilityResult (Service.text response) with
    | Throw TypeError => failed (Some typeErrorMessage) s
    | Normal parsed =>
        setParsedResult
          (merge_grounding parsed (Service.groundingUrls response))
          (setResult (Some (Service.text response)) s)
    end.

(** [handleSubmit]: the state once the function has completed.
    [checkSustainability] is the call awaited at line 229, given by its
    outcome; [typeErrorMessage] is the message the engine gives to the
    [TypeError] of [undefined.trim()].  When the awaited promise is rejected
    with [undefined] or [null], reading [err.message] in the [catch] throws:
    no error is set, the [finally] still runs, and the promise of
    [handleSubmit] is itself rejected. *)
Definition handleSubmit (typeErrorMessage : jsstring)
    (checkSustainability :
       jsstring -> option Service.File -> Service.promise Service.Response)
    (s : State) : State :=
  let s0 :=
    collapseSections
      (setError None
         (setIrrelevantInputMessage None
            (setParsedResult None (setResult None (setLoading true s))))) in
  let s1 :=
    if noInput s then setError (Some M_NO_INPUT) s0
    else match checkSustainability (productInput s) (imageFile s) with
         | Service.Resolved response => showResponse typeErrorMessage response s0
         | Service.Rejected (Service.ErrorObject message) =>
             failed (Some message) s0
         | Service.Rejected (Service.OtherValue message) => failed message s0
         | Service.Rejected Service.Nullish => s0
         end in
  setLoading false s1.

End App.

(* ================================================================== *)
(** ** Notions used in the statements *)
(* ================================================================== *)

(** A string of white space only (the empty string included). *)
Definition whitespaceOnly (s : jsstring) : bool := forallb isWhiteSpace s.

(** The lines whose branch reads [lines[++i]]. *)
Definition consumesNext (line : jsstring) : bool :=
  startsWith line H_OVERALL_VERDICT || startsWith line H_GREENWASHING_RISK.

(** The eight section headers. *)
Definition isHeader (line : jsstring) : bool :=
  consumesNext line
  || startsWith line H_CLAIMS_FAILED || startsWith line H_WHY_FAILED
  || startsWith line H_INGREDIENTS_TO_NOTE || startsWith line H_MORE_DETAILS
  || startsWith line H_INGREDIENT_SPECIFIC || startsWith line H_IMPROVEMENT.

(** A line that reaches the branch [else if (currentSection)]: neither an
    icon line nor a header. *)
Definition plainLine (line : jsstring) : bool :=
  negb (startsWithIcon line) && negb (isHeader line).

(** What one iteration does with a line that does not read the next one. *)
Definition line_step (st : scan_state) (line : jsstring) : scan_state :=
  if startsWithIcon line
  then with_result st (set_icon (result st) (hd [] (split line SP)))
  else section_line st line.

(** Lines 56-57: [result.overallVerdict = lines[++i].trim()] and
    [currentSection = null], for a next line that exists. *)
Definition set_verdict (st : scan_state) (next : jsstring) : scan_state :=
  with_section (with_result st (set_overallVerdict (result st) (trim next))) None.

(** Lines 59-60, likewise for [result.greenwashingRisk]. *)
Definition set_risk (st : scan_state) (next : jsstring) : scan_state :=
  with_section (with_result st (set_greenwashingRisk (result st) (trim next))) None.

(** The loop as iterated steps, over lines none of which reads the next. *)
Definition steps (st : scan_state) (body : list jsstring) : scan_state :=
  fold_left (fun st raw => line_step st (trim raw)) body st.

(** The four sections whose lines are bulleted entries. *)
Definition isBulletedKey (k : ResultKey) : bool :=
  match k with
  | KclaimsFailed | KwhyClaimsFailed | KingredientsToNote
  | KimprovementSuggestions => true
  | _ => false
  end.

(** The list of a bulleted section, extended at its end. *)
Definition appendEntries (k : ResultKey) (r : ParsedResult)
    (entries : list jsstring) : ParsedResult :=
  match k with
  | KclaimsFailed => set_claimsFailed r (claimsFailed r ++ entries)
  | KwhyClaimsFailed => set_whyClaimsFailed r (whyClaimsFailed r ++ entries)
  | KingredientsToNote => set_ingredientsToNote r (ingredientsToNote r ++ entries)
  | KimprovementSuggestions =>
      set_improvementSuggestions r (improvementSuggestions r ++ entries)
  | _ => r
  end.

(** The entries of a block of lines, as the specification words them: of the
    trimmed lines, those that start with "- ", each without these two code
    units and trimmed, in the order of the input. *)
Definition bulletEntries (body : list jsstring) : list jsstring :=
  map (fun line => trim (substring line 2))
      (filter (fun line => startsWith line BULLET) (map trim body)).

(** The text a block of lines adds to the accumulator, as the specification
    words it: every non-empty (trimmed) line, followed by a newline. *)
Definition detailText (body : list jsstring) : jsstring :=
  concat (map (fun line => line ++ [LF]) (filter truthy (map trim body))).


(** The state after "Ingredient-specific details:" and "Paraben:". *)
Definition after_paraben : scan_state :=
  {| result := set_ingredientSpecificDetails empty_result
                 [{| name := lit "Paraben"; explanation := [] |}];
     currentSection := Some KingredientSpecificDetails;
     ingredientDetailName := lit "Paraben" |}.

(** [sub] occurs in [s] as a substring. *)
Definition contains (s sub : jsstring) : Prop :=
  exists pre post, s = pre ++ sub ++ post.

(** The text "Overall Verdict:\nLow Greenwashing Risk\n". *)
Definition VERDICT_SAMPLE : jsstring :=
  lit "Overall Verdict:" ++ [LF] ++ lit "Low Greenwashing Risk" ++ [LF].

(** A step of the report only adds calls to the document. *)
Definition appends (f : pdf_state -> pdf_state) : Prop :=
  forall st, exists ops, doc (f st) = doc st ++ ops.

(** The texts [generatePdfReport] places at the running cursor without a
    page-break check: the title, the two single-value lines, the section
    headings and the fallback strings. *)
Definition uncheckedTexts (r : ParsedResult) : list jsstring :=
  [icon r ++ T_TITLE; H_OVERALL_VERDICT; overallVerdict r;
   H_GREENWASHING_RISK; greenwashingRisk r;
   H_CLAIMS_FAILED; H_WHY_FAILED; H_INGREDIENTS_TO_NOTE;
   F_NONE; F_ALL_REASONABLE;
   H_MORE_DETAILS; H_INGREDIENT_SPECIFIC; H_IMPROVEMENT; H_SOURCES].

(** A placement that leaves the height of a line above the bottom margin, or
    is one of the unchecked texts. *)
Definition placedWithin (pageHeight : Q) (r : ParsedResult) (op : pdf_op)
  : Prop :=
  match op with
  | Text s _ y0 =>
      y0 + lineHeight <= pageHeight - margin \/ In s (uncheckedTexts r)
  | TextWithLink _ _ y0 _ => y0 + lineHeight <= pageHeight - margin
  | _ => True
  end.

(** No text lies below the bottom margin. *)
Definition noTextBelowBottomMargin (pageHeight : Q) (ops : list pdf_op)
  : Prop :=
  Forall (fun op => match op with
                    | Text _ _ y0 | TextWithLink _ _ y0 _ =>
                        y0 <= pageHeight - margin
                    | _ => True
                    end) ops.

(** A step of the report keeps a property of all the calls made. *)
Definition preserves (P : pdf_op -> Prop) (f : pdf_state -> pdf_state)
  : Prop :=
  forall st, Forall P (doc st) -> Forall P (doc (f st)).

(** A record whose only content is thirty-three failed claims. *)
Definition thirtyThreeClaims : ParsedResult :=
  set_claimsFailed empty_result (repeat (lit "x") 33).

(** A stand-in for [doc.getTextWidth]: two millimetres a code unit. *)
Definition sampleTextWidth (_ : list pdf_op) (s : jsstring) : Q :=
  inject_Z (Z.of_nat (List.length s)) * 2.

(** [doc.splitTextToSize] that never wraps. *)
Definition sampleSplit (_ : list pdf_op) (s : jsstring) (_ : Q)
  : list jsstring := [s].

(** The height jsPDF computes for its default A4 page: 841.89 points, at
    72 / 25.4 points a millimetre, which is a little more than 297. *)
Definition a4HeightFromPoints : Q := (84189 # 100) / (72 / (254 # 10)).

(** The calls of [doc.addPage()]. *)
Definition isAddPage (op : pdf_op) : bool :=
  match op with AddPage => true | _ => false end.

(** A heading at the left margin and, on the same line, its fallback
    string. *)
Definition fallbackPlaced (getTextWidth : list pdf_op -> jsstring -> Q)
    (heading label fallback : jsstring) (ops : list pdf_op) : Prop :=
  exists pre post y0,
    ops = pre
          ++ [Text heading margin y0; SetFont helvetica normal;
              Text fallback
                (margin
                 + getTextWidth
                     (pre ++ [Text heading margin y0; SetFont helvetica normal])
                     label
                 + 2) y0]
          ++ post.

(** A string without white space at either end: [s.trim() === s]. *)
Definition trimmed (s : jsstring) : Prop := trim s = s.

(** The strings the scan stores — the two single values, the entries of the
    four lists and the ingredient names — are trimmed, and no ingredient name
    is empty. *)
Definition storedTrimmed (r : ParsedResult) : Prop :=
  trimmed (overallVerdict r) /\ trimmed (greenwashingRisk r)
  /\ Forall trimmed (claimsFailed r) /\ Forall trimmed (whyClaimsFailed r)
  /\ Forall trimmed (ingredientsToNote r)
  /\ Forall trimmed (improvementSuggestions r)
  /\ Forall (fun d => trimmed (name d) /\ name d <> [])
       (ingredientSpecificDetails r).

(** The icon is unset, or a token that starts with one of the three glyphs
    and holds no space. *)
Definition iconToken (s : jsstring) : Prop :=
  s = [] \/ (startsWithIcon s = true /\ ~ In SP s).

(** The calls of [doc.save(...)]. *)
Definition isSave (op : pdf_op) : bool :=
  match op with Save _ => true | _ => false end.

(** Calls in which [doc.addPage()] only occurs right before a text placed at
    the top margin, and [doc.save] does not occur. *)
Inductive chunked : list pdf_op -> Prop :=
| chunked_nil : chunked []
| chunked_op (op : pdf_op) (ops : list pdf_op) :
    isAddPage op = false -> isSave op = false -> chunked ops ->
    chunked (op :: ops)
| chunked_page (s : jsstring) (x : Q) (ops : list pdf_op) :
    chunked ops -> chunked (AddPage :: Text s x margin :: ops).

(** A step of the report adds such calls. *)
Definition emits (f : pdf_state -> pdf_state) : Prop :=
  forall st, exists ops, doc (f st) = doc st ++ ops /\ chunked ops.

(** The strings placed on the pages, in the order of the calls. *)
Definition placedStrings (ops : list pdf_op) : list jsstring :=
  flat_map (fun op => match op with
                      | Text s _ _ | TextWithLink s _ _ _ => [s]
                      | _ => []
                      end) ops.

(** The strings of a list section: the heading and the bulleted entries, or
    the heading and the fallback of an empty list. *)
Definition listSectionStrings (heading fallback : jsstring)
    (entries : list jsstring) : list jsstring :=
  match entries with
  | [] => [heading; fallback]
  | _ :: _ => heading :: map (app BULLET) entries
  end.

(** The strings of a section that is left out when its list is empty. *)
Definition optionalSectionStrings (A : Type) (heading : jsstring)
    (strings : A -> list jsstring) (items : list A) : list jsstring :=
  match items with
  | [] => []
  | _ :: _ => heading :: flat_map strings items
  end.

(** The strings of the whole report, for a wrapping function [wrap]. *)
Definition reportStrings (wrap : jsstring -> Q -> list jsstring)
    (pageWidth : Q) (r : ParsedResult) : list jsstring :=
  [icon r ++ T_TITLE; H_OVERALL_VERDICT; overallVerdict r;
   H_GREENWASHING_RISK; greenwashingRisk r]
  ++ listSectionStrings H_CLAIMS_FAILED F_NONE (claimsFailed r)
  ++ listSectionStrings H_WHY_FAILED F_ALL_REASONABLE (whyClaimsFailed r)
  ++ listSectionStrings H_INGREDIENTS_TO_NOTE F_NONE (ingredientsToNote r)
  ++ (if truthy (moreDetails r)
      then H_MORE_DETAILS :: wrap (moreDetails r) (textWidth pageWidth)
      else [])
  ++ optionalSectionStrings IngredientDetail H_INGREDIENT_SPECIFIC
       (fun item => (name item ++ [COLON])
                    :: wrap (explanation item) (textWidth pageWidth - 10))
       (ingredientSpecificDetails r)
  ++ optionalSectionStrings jsstring H_IMPROVEMENT
       (fun entry => [BULLET ++ entry]) (improvementSuggestions r)
  ++ optionalSectionStrings GroundingUrl H_SOURCES
       (fun url => [if truthy (title url) then title url else uri url; uri url])
       (groundingUrls r).

(** A record with thirty-four failed claims: one more than fit on the first
    A4 page. *)
Definition thirtyFourClaims : ParsedResult :=
  set_claimsFailed empty_result (repeat (lit "x") 34).

(** An environment whose API answers with the text [raw] and one web
    source without title. *)
Definition answering (raw : jsstring) : Service.Environment :=
  {| Service.hasApiKey := true;
     Service.readAsDataURL := fun _ => Service.Loaded None;
     Service.convertAvifToJpegBlob := fun f => Service.Resolved f;
     Service.generateContent :=
       fun _ =>
         Service.Resolved
           {| Service.responseText := Some raw;
              Service.candidates :=
                Some [{| Service.groundingMetadata :=
                           Some {| Service.groundingChunks :=
                                     Some [{| Service.web := None |};
                                           {| Service.web :=
                                                Some {| Service.webUri :=
                                                          lit "https://example.org";
                                                        Service.webTitle := None |} |}] |} |}] |} |}.

(** An environment whose [FileReader] leaves the data URL [dataUrl]. *)
Definition reading (dataUrl : jsstring) : Service.Environment :=
  {| Service.hasApiKey := true;
     Service.readAsDataURL := fun _ => Service.Loaded (Some dataUrl);
     Service.convertAvifToJpegBlob := fun f => Service.Resolved f;
     Service.generateContent := fun _ => Service.Rejected (Service.OtherValue None) |}.

(** The list of a bulleted section, read from the record. *)
Definition bulletList (k : ResultKey) (r : ParsedResult) : list jsstring :=
  match k with
  | KclaimsFailed => claimsFailed r
  | KwhyClaimsFailed => whyClaimsFailed r
  | KingredientsToNote => ingredientsToNote r
  | KimprovementSuggestions => improvementSuggestions r
  | _ => []
  end.

(** The field [k] has the same value in [r'] as in [r]. *)
Definition sameField (k : ResultKey) (r r' : ParsedResult) : Prop :=
  match k with
  | Kicon => icon r' = icon r
  | KoverallVerdict => overallVerdict r' = overallVerdict r
  | KgreenwashingRisk => greenwashingRisk r' = greenwashingRisk r
  | KclaimsFailed => claimsFailed r' = claimsFailed r
  | KwhyClaimsFailed => whyClaimsFailed r' = whyClaimsFailed r
  | KingredientsToNote => ingredientsToNote r' = ingredientsToNote r
  | KmoreDetails => moreDetails r' = moreDetails r
  | KingredientSpecificDetails =>
      ingredientSpecificDetails r' = ingredientSpecificDetails r
  | KimprovementSuggestions =>
      improvementSuggestions r' = improvementSuggestions r
  | KgroundingUrls => groundingUrls r' = groundingUrls r
  end.

(** The text "Claims that failed to meet expectations:\n- Claim A\n- Claim B\n". *)
Definition CLAIMS_SAMPLE : jsstring :=
  lit "Claims that failed to meet expectations:" ++ [LF]
  ++ lit "- Claim A" ++ [LF] ++ lit "- Claim B" ++ [LF].

(** The font of a jsPDF document: what the last [setFontSize] and the last
    [setFont] have set, [None] while the default of the library is in
    force. *)
Definition font : Type := (option Q * option (jsstring * jsstring))%type.

Definition applyFont (f : font) (op : pdf_op) : font :=
  match op with
  | SetFontSize size => (Some size, snd f)
  | SetFont family style => (fst f, Some (family, style))
  | _ => f
  end.

(** The font in force after the calls [ops] on a new document. *)
Definition fontOf (ops : list pdf_op) : font :=
  fold_left applyFont ops (None, None).

(** The calls that set the font of the body of the report (lines 269,
    272). *)
Definition bodyFont : list pdf_op :=
  [SetFontSize 12; SetFont helvetica normal].

(** A step of the report that starts in the font [F] places the strings
    [l], in this order, and leaves the font [F']. *)
Definition placesIn (F F' : font) (f : pdf_state -> pdf_state)
    (l : list jsstring) : Prop :=
  forall st, fontOf (doc st) = F ->
             placedStrings (doc (f st)) = placedStrings (doc st) ++ l
             /\ fontOf (doc (f st)) = F'.

(** A stand-in for [doc.splitTextToSize] that depends on the font size in
    force: one line at 12 points, two lines otherwise. *)
Definition sampleFontSplit (log : list pdf_op) (s : jsstring) (_ : Q)
  : list jsstring :=
  match fst (fontOf log) with
  | Some size => if Qeq_bool size 12 then [s] else [s; s]
  | None => [s; s]
  end.

(** A record with a verdict and a free text. *)
Definition verdictAndDetails : ParsedResult :=
  set_moreDetails (set_overallVerdict empty_result (lit "Low Greenwashing Risk"))
    (lit "No misleading claim was found.").

(* ================================================================== *)
(** ** Lemmas on strings *)
(* ================================================================== *)

Lemma eqb_eq (s t : jsstring) : eqb s t = true <-> s = t.
Proof.
  revert t; induction s as [|a s IH]; intros [|b t]; simpl;
    try (split; [discriminate | congruence]); try tauto.
  rewrite andb_true_iff, N.eqb_eq, IH. split.
  - intros [-> ->]; reflexivity.
  - intros H; injection H; auto.
Qed.

Lemma eqb_neq (s t : jsstring) : eqb s t = false <-> s <> t.
Proof.
  rewrite <- eqb_eq. destruct (eqb s t); split; congruence.
Qed.

Lemma truthy_false (s : jsstring) : truthy s = false <-> s = [].
Proof. destruct s; simpl; split; congruence. Qed.

Lemma truthy_true (s : jsstring) : truthy s = true <-> s <> [].
Proof. destruct s; simpl; split; congruence. Qed.

Lemma trimStart_whitespaceOnly (s : jsstring) :
  whitespaceOnly s = true -> trimStart s = [].
Proof.
  induction s as [|c s IH]; simpl; [reflexivity|].
  intros H; apply andb_true_iff in H as [Hc Hs]. rewrite Hc; auto.
Qed.

Lemma trim_whitespaceOnly (s : jsstring) :
  whitespaceOnly s = true -> trim s = [].
Proof.
  intros H. unfold trim. rewrite (trimStart_whitespaceOnly s H). reflexivity.
Qed.

(** [trimStart] keeps a suffix, and every code unit it removes is white
    space. *)
Lemma trimStart_suffix (s : jsstring) :
  exists ws, s = ws ++ trimStart s /\ whitespaceOnly ws = true.
Proof.
  induction s as [|c s [ws [E W]]]; simpl.
  - exists []; auto.
  - destruct (isWhiteSpace c) eqn:Hc.
    + exists (c :: ws); simpl. rewrite Hc, W. split; [f_equal; exact E | reflexivity].
    + exists []; auto.
Qed.

Lemma whitespaceOnly_rev (s : jsstring) :
  whitespaceOnly (rev s) = whitespaceOnly s.
Proof.
  unfold whitespaceOnly. induction s as [|c s IH]; simpl; [reflexivity|].
  rewrite forallb_app, IH. simpl. rewrite andb_true_r. apply andb_comm.
Qed.

(** The shape of a trimmed string: white space, the result, white space. *)
Lemma trim_decompose (s : jsstring) :
  exists a b, s = a ++ trim s ++ b
              /\ whitespaceOnly a = true /\ whitespaceOnly b = true.
Proof.
  destruct (trimStart_suffix s) as [a [Ea Wa]].
  destruct (trimStart_suffix (rev (trimStart s))) as [b [Eb Wb]].
  exists a, (rev b). repeat split.
  - unfold trim, trimEnd. rewrite <- rev_app_distr, <- Eb, rev_involutive.
    exact Ea.
  - exact Wa.
  - rewrite whitespaceOnly_rev. exact Wb.
Qed.

Lemma whitespaceOnly_In (s : jsstring) (c : char16) :
  whitespaceOnly s = true -> In c s -> isWhiteSpace c = true.
Proof.
  unfold whitespaceOnly. rewrite forallb_forall. auto.
Qed.

(** Trimming keeps every code unit that is not white space. *)
Lemma In_trim (s : jsstring) (c : char16) :
  isWhiteSpace c = false -> (In c (trim s) <-> In c s).
Proof.
  intros Hc. destruct (trim_decompose s) as [a [b [E [Wa Wb]]]].
  split; intros H.
  - rewrite E. apply in_or_app; right. apply in_or_app; left; exact H.
  - rewrite E in H. apply in_app_or in H as [H|H].
    + rewrite (whitespaceOnly_In a c Wa H) in Hc; discriminate.
    + apply in_app_or in H as [H|H]; [exact H|].
      rewrite (whitespaceOnly_In b c Wb H) in Hc; discriminate.
Qed.

Lemma split_nonempty (s : jsstring) (sep : char16) : split s sep <> [].
Proof.
  destruct s as [|c s]; simpl; [discriminate|].
  destruct (c =? sep)%N; [discriminate|].
  destruct (split s sep); discriminate.
Qed.

(** Every code unit of a piece of [split] is a code unit of the string. *)
Lemma split_In (s : jsstring) (sep : char16) (l : jsstring) (c : char16) :
  In l (split s sep) -> In c l -> In c s.
Proof.
  revert l; induction s as [|a s IH]; simpl; intros l Hl Hc.
  - destruct Hl as [<-|[]]. destruct Hc.
  - destruct (a =? sep)%N.
    + destruct Hl as [<-|Hl]; [destruct Hc|]. right; eauto.
    + destruct (split s sep) as [|l0 ls] eqn:E.
      * destruct Hl as [<-|[]]. destruct Hc as [->|[]]. left; reflexivity.
      * destruct Hl as [<-|Hl].
        -- destruct Hc as [->|Hc]; [left; reflexivity|].
           right. apply (IH l0); [left; reflexivity | exact Hc].
        -- right. apply (IH l); [right; exact Hl | exact Hc].
Qed.

(** The pieces of a white-space string are white space. *)
Lemma split_whitespaceOnly (s : jsstring) (sep : char16) :
  whitespaceOnly s = true ->
  Forall (fun l => whitespaceOnly l = true) (split s sep).
Proof.
  induction s as [|a s IH]; simpl; intros H.
  - repeat constructor.
  - apply andb_true_iff in H as [Ha Hs]. specialize (IH Hs).
    destruct (a =? sep)%N.
    + constructor; [reflexivity | exact IH].
    + destruct (split s sep) as [|l0 ls].
      * repeat constructor. simpl. rewrite Ha; reflexivity.
      * inversion IH; subst. constructor; [|assumption].
        simpl. rewrite Ha. assumption.
Qed.

Lemma startsWith_app (s p : jsstring) :
  startsWith s p = true <-> exists t, s = p ++ t.
Proof.
  revert s; induction p as [|a p IH]; intros s; simpl.
  - split; [exists s; reflexivity | reflexivity].
  - destruct s as [|b s].
    + split; [discriminate | intros [t H]; discriminate].
    + rewrite andb_true_iff, N.eqb_eq, IH. split.
      * intros [-> [t ->]]. exists t; reflexivity.
      * intros [t H]. injection H as -> ->. split; [reflexivity | exists t; reflexivity].
Qed.

Lemma endsWith_app (s p : jsstring) :
  endsWith s p = true <-> exists t, s = t ++ p.
Proof.
  unfold endsWith. rewrite startsWith_app. split.
  - intros [t H]. exists (rev t).
    rewrite <- (rev_involutive s), H, rev_app_distr, rev_involutive. reflexivity.
  - intros [t ->]. exists (rev t). apply rev_app_distr.
Qed.

(** [line.slice(0, -1)] drops the last code unit. *)
Lemma slice_drop_last (pre : jsstring) (c : char16) :
  slice (pre ++ [c]) 0 (-1) = pre.
Proof.
  unfold slice, clampIndex. simpl.
  rewrite length_app. simpl.
  replace (Z.to_nat (Z.max (Z.of_nat (List.length pre + 1) + -1) 0))
    with (List.length pre) by lia.
  rewrite Nat.sub_0_r, firstn_app, firstn_all, Nat.sub_diag. simpl.
  apply app_nil_r.
Qed.

Arguments startsWith : simpl never.
Arguments endsWith : simpl never.
Arguments trim : simpl never.
Arguments substring : simpl never.
Arguments slice : simpl never.

(* ================================================================== *)
(** ** Lemmas on the scan *)
(* ================================================================== *)

Lemma startsWith_hd (line p : jsstring) (a : char16) :
  startsWith line (a :: p) = true -> hd_error line = Some a.
Proof.
  destruct line as [|c line]; cbn [startsWith hd_error]; [discriminate|].
  intros H. apply andb_true_iff in H as [H _].
  apply N.eqb_eq in H. subst. reflexivity.
Qed.

(** The first code unit of a line that starts with the literal [p]. *)
Ltac first_unit H :=
  match type of H with
  | startsWith ?line ?p = true =>
      let a := eval vm_compute in (hd 0%N p) in
      let t := eval vm_compute in (tl p) in
      apply (startsWith_hd line t a) in H
  end.

Lemma header_not_icon (line : jsstring) :
  isHeader line = true -> startsWithIcon line = false.
Proof.
  intros H. destruct (startsWithIcon line) eqn:E; [exfalso|reflexivity].
  unfold isHeader, consumesNext in H. unfold startsWithIcon in E.
  repeat (apply orb_true_iff in H as [H|H]);
    repeat (apply orb_true_iff in E as [E|E]);
    first_unit H; first_unit E; congruence.
Qed.

Lemma verdict_not_risk (line : jsstring) :
  startsWith line H_OVERALL_VERDICT = true ->
  startsWith line H_GREENWASHING_RISK = false.
Proof.
  intros H. destruct (startsWith line H_GREENWASHING_RISK) eqn:E; [|reflexivity].
  first_unit H; first_unit E; congruence.
Qed.

(** One iteration of the loop. *)
Lemma scan_cons (raw : jsstring) (rest : list jsstring) (st : scan_state) :
  scan (raw :: rest) st =
  if startsWithIcon (trim raw) then scan rest (line_step st (trim raw))
  else if startsWith (trim raw) H_OVERALL_VERDICT then
    match rest with
    | [] => Throw TypeError
    | next :: rest' => scan rest' (set_verdict st next)
    end
  else if startsWith (trim raw) H_GREENWASHING_RISK then
    match rest with
    | [] => Throw TypeError
    | next :: rest' => scan rest' (set_risk st next)
    end
  else scan rest (line_step st (trim raw)).
Proof.
  unfold line_step. cbn [scan].
  destruct (startsWithIcon (trim raw)); reflexivity.
Qed.

Lemma scan_nonconsuming (raw : jsstring) (rest : list jsstring) (st : scan_state) :
  consumesNext (trim raw) = false ->
  scan (raw :: rest) st = scan rest (line_step st (trim raw)).
Proof.
  unfold consumesNext. intros H.
  apply orb_false_iff in H as [H1 H2]. rewrite scan_cons, H1, H2.
  destruct (startsWithIcon (trim raw)); reflexivity.
Qed.

Lemma scan_verdict (raw next : jsstring) (rest : list jsstring) (st : scan_state) :
  startsWith (trim raw) H_OVERALL_VERDICT = true ->
  scan (raw :: next :: rest) st = scan rest (set_verdict st next).
Proof.
  intros H. rewrite scan_cons, (header_not_icon (trim raw)), H; [reflexivity|].
  unfold isHeader, consumesNext. rewrite H. reflexivity.
Qed.

Lemma scan_risk (raw next : jsstring) (rest : list jsstring) (st : scan_state) :
  startsWith (trim raw) H_GREENWASHING_RISK = true ->
  scan (raw :: next :: rest) st = scan rest (set_risk st next).
Proof.
  intros H. rewrite scan_cons, (header_not_icon (trim raw)), H.
  - destruct (startsWith (trim raw) H_OVERALL_VERDICT) eqn:E; [|reflexivity].
    rewrite (verdict_not_risk _ E) in H. discriminate.
  - unfold isHeader, consumesNext. rewrite H. rewrite orb_true_r. reflexivity.
Qed.

Lemma scan_last_header (raw : jsstring) (st : scan_state) :
  consumesNext (trim raw) = true -> scan [raw] st = Throw TypeError.
Proof.
  intros H. rewrite scan_cons, (header_not_icon (trim raw)).
  - unfold consumesNext in H. apply orb_true_iff in H as [H|H]; rewrite H.
    + reflexivity.
    + destruct (startsWith (trim raw) H_OVERALL_VERDICT); reflexivity.
  - unfold isHeader. rewrite H. reflexivity.
Qed.

Lemma section_line_plain (st : scan_state) (line : jsstring) :
  plainLine line = true -> line_step st line = section_body st line.
Proof.
  unfold plainLine, isHeader, line_step, section_line. intros H.
  apply andb_true_iff in H as [Hi Hh].
  apply negb_true_iff in Hi, Hh. rewrite Hi.
  repeat (apply orb_false_iff in Hh as [Hh ?]).
  repeat match goal with E : startsWith line _ = false |- _ => rewrite E; clear E end.
  reflexivity.
Qed.

Lemma plainLine_nonconsuming (line : jsstring) :
  plainLine line = true -> consumesNext line = false.
Proof.
  unfold plainLine, isHeader. intros H.
  apply andb_true_iff in H as [_ Hh]. apply negb_true_iff in Hh.
  repeat (apply orb_false_iff in Hh as [Hh ?]).
  unfold consumesNext. apply orb_false_iff. split; assumption.
Qed.

Lemma notHeader_nonconsuming (line : jsstring) :
  isHeader line = false -> consumesNext line = false.
Proof.
  unfold isHeader. destruct (consumesNext line); [discriminate | reflexivity].
Qed.

Lemma scan_plain (raw : jsstring) (rest : list jsstring) (st : scan_state) :
  plainLine (trim raw) = true ->
  scan (raw :: rest) st = scan rest (section_body st (trim raw)).
Proof.
  intros H. rewrite scan_nonconsuming by (apply plainLine_nonconsuming, H).
  rewrite section_line_plain by exact H. reflexivity.
Qed.

(** Induction on a list two elements at a time, as the loop advances. *)
Lemma list_ind2 (A : Type) (P : list A -> Prop) :
  P [] -> (forall a, P [a]) ->
  (forall a b l, P l -> P (b :: l) -> P (a :: b :: l)) ->
  forall l, P l.
Proof.
  intros H0 H1 H2 l.
  assert (H : P l /\ forall a, P (a :: l)).
  { induction l as [|b l [IH1 IH2]]; split; auto. }
  exact (proj1 H).
Qed.

Lemma scan_app_nonconsuming (body rest : list jsstring) (st : scan_state) :
  Forall (fun raw => consumesNext (trim raw) = false) body ->
  scan (body ++ rest) st = scan rest (steps st body).
Proof.
  intros H; revert st. induction H as [|raw body Hraw _ IH]; intros st.
  - reflexivity.
  - simpl app. rewrite scan_nonconsuming by exact Hraw. rewrite IH. reflexivity.
Qed.

(** A scan that returns has read whole groups of lines: what follows is
    scanned from the state it returns. *)
Lemma scan_app (l1 l2 : list jsstring) :
  forall st st1, scan l1 st = Normal st1 -> scan (l1 ++ l2) st = scan l2 st1.
Proof.
  induction l1 as [|a|a b l1 IH1 IH2] using list_ind2; intros st st1 H.
  - simpl in H. injection H as ->. reflexivity.
  - destruct (consumesNext (trim a)) eqn:E.
    + rewrite scan_last_header in H by exact E. discriminate.
    + rewrite scan_nonconsuming in H by exact E. simpl in H. injection H as <-.
      simpl app. rewrite scan_nonconsuming by exact E. reflexivity.
  - destruct (consumesNext (trim a)) eqn:E.
    + unfold consumesNext in E. apply orb_true_iff in E as [E|E].
      * rewrite scan_verdict in H by exact E. simpl app.
        rewrite scan_verdict by exact E. eauto.
      * rewrite scan_risk in H by exact E. simpl app.
        rewrite scan_risk by exact E. eauto.
    + rewrite scan_nonconsuming in H by exact E.
      change ((a :: b :: l1) ++ l2) with (a :: (b :: l1) ++ l2).
      rewrite scan_nonconsuming by exact E. eauto.
Qed.

Lemma skipn_nth_error (A : Type) (l : list A) (i : nat) (a : A) :
  nth_error l i = Some a -> skipn i l = a :: skipn (S i) l.
Proof.
  revert i; induction l as [|b l IH]; intros [|i] H; try discriminate.
  - injection H as ->. reflexivity.
  - simpl in H. apply IH in H. exact H.
Qed.

Lemma skipn_nth_error_None (A : Type) (l : list A) (i : nat) :
  nth_error l i = None -> skipn i l = [].
Proof. intros H. apply skipn_all2, nth_error_None, H. Qed.

(** The loop on the index is the scan of the remaining lines. *)
Lemma forLoop_scan (fuel : nat) (lines : list jsstring) :
  forall (i : nat) (st : scan_state),
    (List.length lines - i <= fuel)%nat ->
    forLoop fuel lines i st = scan (skipn i lines) st.
Proof.
  induction fuel as [|fuel IH]; intros i st Hfuel.
  - rewrite skipn_all2 by lia. reflexivity.
  - cbn [forLoop]. destruct (nth_error lines i) as [raw|] eqn:E.
    + assert (Hi : (i < List.length lines)%nat)
        by (apply nth_error_Some; congruence).
      rewrite (skipn_nth_error _ lines i _ E), scan_cons. unfold line_step.
      destruct (startsWithIcon (trim raw)); [apply IH; lia|].
      destruct (startsWith (trim raw) H_OVERALL_VERDICT).
      { destruct (nth_error lines (S i)) as [next|] eqn:E'.
        - rewrite (skipn_nth_error _ lines (S i) _ E'). apply IH. lia.
        - rewrite (skipn_nth_error_None _ lines (S i) E'). reflexivity. }
      destruct (startsWith (trim raw) H_GREENWASHING_RISK).
      { destruct (nth_error lines (S i)) as [next|] eqn:E'.
        - rewrite (skipn_nth_error _ lines (S i) _ E'). apply IH. lia.
        - rewrite (skipn_nth_error_None _ lines (S i) E'). reflexivity. }
      apply IH. lia.
    + rewrite (skipn_nth_error_None _ lines i E). reflexivity.
Qed.

(** In particular the loop of the source, from index 0. *)
Lemma forLoop_from_zero (lines : list jsstring) (st : scan_state) :
  forLoop (List.length lines) lines 0 st = scan lines st.
Proof. apply (forLoop_scan (List.length lines) lines 0 st). lia. Qed.

(** The scan throws only at a single-value header on the last line. *)
Lemma scan_returns (lines : list jsstring) :
  consumesNext (trim (last lines [])) = false ->
  forall st, exists st', scan lines st = Normal st'.
Proof.
  induction lines as [|a|a b l IH1 IH2] using list_ind2; intros Hlast st.
  - exists st; reflexivity.
  - simpl in Hlast. rewrite scan_nonconsuming by exact Hlast.
    eexists; reflexivity.
  - destruct (consumesNext (trim a)) eqn:E.
    + assert (Hl : consumesNext (trim (last l [])) = false).
      { destruct l as [|c l]; [reflexivity | exact Hlast]. }
      unfold consumesNext in E. apply orb_true_iff in E as [E|E].
      * rewrite scan_verdict by exact E. apply IH1, Hl.
      * rewrite scan_risk by exact E. apply IH1, Hl.
    + rewrite scan_nonconsuming by exact E. apply IH2. exact Hlast.
Qed.

(** An invariant of the three kinds of iteration holds of whatever the scan
    returns. *)
Lemma scan_invariant (P : scan_state -> Prop) :
  (forall st line, P st -> P (line_step st line)) ->
  (forall st next, P st -> P (set_verdict st next)) ->
  (forall st next, P st -> P (set_risk st next)) ->
  forall lines st st', P st -> scan lines st = Normal st' -> P st'.
Proof.
  intros Hs Hv Hr lines.
  induction lines as [|a|a b l IH1 IH2] using list_ind2; intros st st' HP H.
  - simpl in H. injection H as <-. exact HP.
  - destruct (consumesNext (trim a)) eqn:E.
    + rewrite scan_last_header in H by exact E. discriminate.
    + rewrite scan_nonconsuming in H by exact E. simpl in H. injection H as <-.
      apply Hs, HP.
  - destruct (consumesNext (trim a)) eqn:E.
    + unfold consumesNext in E. apply orb_true_iff in E as [E|E].
      * rewrite scan_verdict in H by exact E. eapply IH1; [|exact H]. apply Hv, HP.
      * rewrite scan_risk in H by exact E. eapply IH1; [|exact H]. apply Hr, HP.
    + rewrite scan_nonconsuming in H by exact E.
      eapply IH2; [|exact H]. apply Hs, HP.
Qed.

(** Case analysis on every test of one iteration. *)
Ltac step_cases st :=
  unfold line_step, section_line, section_body, set_verdict, set_risk,
    with_result, with_section, with_name;
  repeat match goal with
         | |- context [if ?b then _ else _] => destruct b
         end;
  try (destruct (currentSection st) as [[]|]);
  repeat match goal with
         | |- context [if ?b then _ else _] => destruct b
         end;
  simpl.

Lemma irrelevant_spec (rawText : jsstring) :
  irrelevant rawText = true <->
  rawText = [] \/ trim rawText = trim IRRELEVANT_INPUT_MESSAGE.
Proof.
  unfold irrelevant. rewrite orb_true_iff, negb_true_iff, truthy_false, eqb_eq.
  reflexivity.
Qed.

(** A text holding a code unit that is not white space and does not occur in
    the guidance message is not that message. *)
Lemma not_sentinel (rawText : jsstring) (c : char16) :
  In c rawText -> isWhiteSpace c = false ->
  existsb (N.eqb c) IRRELEVANT_INPUT_MESSAGE = false ->
  trim rawText <> trim IRRELEVANT_INPUT_MESSAGE.
Proof.
  intros Hin Hws Hno E.
  apply (In_trim rawText c Hws) in Hin. rewrite E in Hin.
  apply (In_trim _ c Hws) in Hin.
  assert (H : existsb (N.eqb c) IRRELEVANT_INPUT_MESSAGE = true).
  { apply existsb_exists. exists c. split; [exact Hin | apply N.eqb_refl]. }
  congruence.
Qed.

(** The text of a header line is not the guidance message: it holds a 'V'
    or a 'G'. *)
Lemma value_header_not_sentinel (rawText raw : jsstring) :
  In raw (split rawText LF) -> consumesNext (trim raw) = true ->
  trim rawText <> trim IRRELEVANT_INPUT_MESSAGE.
Proof.
  intros Hin H. unfold consumesNext in H.
  apply orb_true_iff in H as [H|H]; apply startsWith_app in H as [t Ht].
  - apply (not_sentinel rawText 86%N); [|reflexivity|reflexivity].
    apply (split_In rawText LF raw _ Hin).
    apply (In_trim raw 86%N); [reflexivity|]. rewrite Ht.
    apply in_or_app; left. vm_compute. tauto.
  - apply (not_sentinel rawText 71%N); [|reflexivity|reflexivity].
    apply (split_In rawText LF raw _ Hin).
    apply (In_trim raw 71%N); [reflexivity|]. rewrite Ht.
    apply in_or_app; left. vm_compute. tauto.
Qed.

Lemma parse_relevant (rawText : jsstring) :
  irrelevant rawText = false ->
  parseSustainabilityResult rawText =
  match scan (split rawText LF) initial_state with
  | Normal st => Normal (Some (cleanup (result st)))
  | Throw e => Throw e
  end.
Proof. unfold parseSustainabilityResult. intros ->. reflexivity. Qed.

Lemma irrelevant_false (rawText : jsstring) :
  rawText <> [] -> trim rawText <> trim IRRELEVANT_INPUT_MESSAGE ->
  irrelevant rawText = false.
Proof.
  intros H1 H2. destruct (irrelevant rawText) eqn:E; [|reflexivity].
  apply irrelevant_spec in E. tauto.
Qed.

(** A line of white space changes nothing. *)
Lemma line_step_blank (st : scan_state) : line_step st [] = st.
Proof.
  unfold line_step, section_line, section_body. simpl.
  destruct st as [r [[]|] n]; simpl; try reflexivity.
  destruct (truthy n); reflexivity.
Qed.

Lemma scan_blank_lines (lines : list jsstring) (st : scan_state) :
  Forall (fun l => whitespaceOnly l = true) lines -> scan lines st = Normal st.
Proof.
  intros H. induction H as [|raw lines Hraw _ IH]; [reflexivity|].
  rewrite scan_nonconsuming; rewrite (trim_whitespaceOnly raw Hraw);
    [|reflexivity].
  rewrite line_step_blank. exact IH.
Qed.

Lemma cleanup_fields (r : ParsedResult) :
  icon (cleanup r) = icon r
  /\ overallVerdict (cleanup r) = overallVerdict r
  /\ greenwashingRisk (cleanup r) = greenwashingRisk r
  /\ claimsFailed (cleanup r) = claimsFailed r
  /\ whyClaimsFailed (cleanup r) = whyClaimsFailed r
  /\ ingredientsToNote (cleanup r) = ingredientsToNote r
  /\ moreDetails (cleanup r) = trim (moreDetails r)
  /\ ingredientSpecificDetails (cleanup r)
     = map trim_explanation (ingredientSpecificDetails r)
  /\ improvementSuggestions (cleanup r) = improvementSuggestions r
  /\ groundingUrls (cleanup r) = groundingUrls r.
Proof.
  unfold cleanup. destruct (truthy (moreDetails r)) eqn:E; simpl;
    repeat split; try reflexivity.
  apply truthy_false in E. rewrite E. reflexivity.
Qed.

(** What [parseSustainabilityResult] returns when it returns a record. *)
Lemma parse_record (rawText : jsstring) (r : ParsedResult) :
  parseSustainabilityResult rawText = Normal (Some r) ->
  exists st, scan (split rawText LF) initial_state = Normal st
             /\ r = cleanup (result st).
Proof.
  unfold parseSustainabilityResult.
  destruct (irrelevant rawText); [discriminate|].
  destruct (scan (split rawText LF) initial_state) as [st|e]; [|discriminate].
  intros H. injection H as <-. exists st. auto.
Qed.

(** A response with every section, and the record parsed from it. *)
Example parse_typical_response :
  parseSustainabilityResult
    (ICON_CHECK ++ lit " Low Greenwashing Risk" ++ [LF]
     ++ lit "Overall Verdict:" ++ [LF] ++ lit "Low Greenwashing Risk" ++ [LF]
     ++ lit "Greenwashing Risk:" ++ [LF] ++ lit "12% (Low)" ++ [LF]
     ++ lit "Claims that failed to meet expectations:" ++ [LF]
     ++ lit "- Claim A" ++ [LF]
     ++ lit "Why these claims failed:" ++ [LF]
     ++ lit "- Reason A" ++ [LF]
     ++ lit "Ingredients to note:" ++ [LF]
     ++ lit "- Paraben" ++ [LF]
     ++ lit "More details:" ++ [LF]
     ++ lit "Some text." ++ [LF] ++ [LF] ++ lit "More text." ++ [LF]
     ++ lit "Ingredient-specific details:" ++ [LF]
     ++ lit "Paraben:" ++ [LF]
     ++ lit "Synthetic preservative." ++ [LF] ++ lit "More text." ++ [LF]
     ++ lit "Improvement suggestions:" ++ [LF]
     ++ lit "- Use less." ++ [LF])
  = Normal
      (Some
         {| icon := ICON_CHECK;
            overallVerdict := lit "Low Greenwashing Risk";
            greenwashingRisk := lit "12% (Low)";
            claimsFailed := [lit "Claim A"];
            whyClaimsFailed := [lit "Reason A"];
            ingredientsToNote := [lit "Paraben"];
            moreDetails := lit "Some text." ++ [LF] ++ lit "More text.";
            ingredientSpecificDetails :=
              [{| name := lit "Paraben";
                  explanation := lit "Synthetic preservative." ++ [LF]
                                 ++ lit "More text." |}];
            improvementSuggestions := [lit "Use less."];
            groundingUrls := [] |}).
Proof. vm_compute. reflexivity. Qed.

(* ================================================================== *)
(** ** The irrelevant-input outcome *)
(* ================================================================== *)

(** C1, as stated, fails: the input of one space consists only of white
    space, and [parseSustainabilityResult] returns for it a populated record
    with empty fields, not [null].  The guard of line 30 tests [!rawText],
    which holds of the empty string only. *)
Lemma parse_one_space_is_a_record :
  whitespaceOnly (lit " ") = true
  /\ parseSustainabilityResult (lit " ") = Normal (Some empty_result)
  /\ parseSustainabilityResult (lit " ") <> Normal None.
Proof.
  repeat split; try (vm_compute; reflexivity).
  vm_compute. discriminate.
Qed.

(** C1, amended: [parseSustainabilityResult] returns [null] for the empty
    string and for every text whose trimmed value is the trimmed guidance
    message.  For every other input it does not return [null]: it returns a
    record whenever the last line of the input is not a line that starts
    with "Overall Verdict:" or "Greenwashing Risk:", and for a non-empty
    input of white space only that record is the one with all fields
    empty. *)
Theorem parse_null_for_empty_or_sentinel (rawText : jsstring) :
  (rawText = [] \/ trim rawText = trim IRRELEVANT_INPUT_MESSAGE ->
   parseSustainabilityResult rawText = Normal None)
  /\ (rawText <> [] -> trim rawText <> trim IRRELEVANT_INPUT_MESSAGE ->
      parseSustainabilityResult rawText <> Normal None
      /\ (consumesNext (trim (last (split rawText LF) [])) = false ->
          exists r, parseSustainabilityResult rawText = Normal (Some r))
      /\ (whitespaceOnly rawText = true ->
          parseSustainabilityResult rawText = Normal (Some empty_result))).
Proof.
  split.
  - intros H. apply irrelevant_spec in H.
    unfold parseSustainabilityResult. rewrite H. reflexivity.
  - intros H1 H2. rewrite (parse_relevant _ (irrelevant_false _ H1 H2)).
    repeat split.
    + destruct (scan (split rawText LF) initial_state); discriminate.
    + intros Hlast.
      destruct (scan_returns (split rawText LF) Hlast initial_state) as [st ->].
      eexists; reflexivity.
    + intros Hws.
      rewrite (scan_blank_lines _ initial_state (split_whitespaceOnly rawText LF Hws)).
      reflexivity.
Qed.

Lemma parse_null_for_empty_or_sentinel_witness :
  parseSustainabilityResult [] = Normal None
  /\ parseSustainabilityResult (IRRELEVANT_INPUT_MESSAGE ++ [LF]) = Normal None
  /\ (exists r, parseSustainabilityResult (lit "Parabens") = Normal (Some r))
  /\ parseSustainabilityResult [LF; SP] = Normal (Some empty_result).
Proof.
  split; [|split; [|split]].
  - apply (proj1 (parse_null_for_empty_or_sentinel [])). left. reflexivity.
  - apply (proj1 (parse_null_for_empty_or_sentinel
                    (IRRELEVANT_INPUT_MESSAGE ++ [LF]))).
    right. vm_compute. reflexivity.
  - refine (proj1 (proj2 (proj2 (parse_null_for_empty_or_sentinel
                                   (lit "Parabens")) _ _)) _).
    + vm_compute. discriminate.
    + vm_compute. discriminate.
    + vm_compute. reflexivity.
  - refine (proj2 (proj2 (proj2 (parse_null_for_empty_or_sentinel
                                   [LF; SP]) _ _)) _).
    + discriminate.
    + vm_compute. discriminate.
    + vm_compute. reflexivity.
Defined.

(* ================================================================== *)
(** ** A single-value header on the last line *)
(* ================================================================== *)

(** C2: the code does not do what the claim says.  When the scan arrives at
    a last line that starts with "Overall Verdict:" or "Greenwashing Risk:",
    [lines[++i]] is [undefined] and [parseSustainabilityResult] throws a
    [TypeError]; no field is set to the empty string. *)
Theorem parse_throws_on_last_line_header
    (rawText : jsstring) (before : list jsstring) (lastLine : jsstring)
    (st : scan_state) :
  split rawText LF = before ++ [lastLine] ->
  scan before initial_state = Normal st ->
  consumesNext (trim lastLine) = true ->
  parseSustainabilityResult rawText = Throw TypeError.
Proof.
  intros Hsplit Hbefore Hlast.
  assert (Hne : rawText <> []).
  { intros ->. simpl in Hsplit.
    destruct before as [|b [|b' before]]; try discriminate.
    injection Hsplit as <-. discriminate. }
  assert (Hs : trim rawText <> trim IRRELEVANT_INPUT_MESSAGE).
  { apply (value_header_not_sentinel rawText lastLine); [|exact Hlast].
    rewrite Hsplit. apply in_or_app; right; left; reflexivity. }
  rewrite (parse_relevant _ (irrelevant_false _ Hne Hs)), Hsplit.
  rewrite (scan_app before [lastLine] _ _ Hbefore).
  rewrite scan_last_header by exact Hlast. reflexivity.
Qed.

Lemma parse_throws_on_last_line_header_witness :
  parseSustainabilityResult (lit "Overall Verdict:") = Throw TypeError
  /\ parseSustainabilityResult
       (ICON_CHECK ++ lit " Low Greenwashing Risk" ++ [LF]
        ++ lit "Overall Verdict:" ++ [LF] ++ lit "Low Greenwashing Risk" ++ [LF]
        ++ lit "Greenwashing Risk:")
     = Throw TypeError.
Proof.
  split.
  - apply (parse_throws_on_last_line_header
             (lit "Overall Verdict:") [] (lit "Overall Verdict:") initial_state);
      reflexivity.
  - eapply (parse_throws_on_last_line_header _
              [ICON_CHECK ++ lit " Low Greenwashing Risk";
               lit "Overall Verdict:"; lit "Low Greenwashing Risk"]
              (lit "Greenwashing Risk:")).
    + vm_compute. reflexivity.
    + vm_compute. reflexivity.
    + reflexivity.
Defined.

(* ================================================================== *)
(** ** Citations *)
(* ================================================================== *)

Lemma line_step_groundingUrls (st : scan_state) (line : jsstring) :
  groundingUrls (result (line_step st line)) = groundingUrls (result st).
Proof. step_cases st; reflexivity. Qed.

(** C9: the record [parseSustainabilityResult] returns has no citation; the
    caller ([handleSubmit], lines 235-239) attaches them afterwards. *)
Theorem parse_groundingUrls_empty (rawText : jsstring) (r : ParsedResult) :
  parseSustainabilityResult rawText = Normal (Some r) ->
  groundingUrls r = []
  /\ forall urls,
       option_map groundingUrls (merge_grounding (Some r) urls) = Some urls.
Proof.
  intros H. split; [|reflexivity].
  apply parse_record in H as [st [Hscan ->]].
  destruct (cleanup_fields (result st)) as (_&_&_&_&_&_&_&_&_&->).
  apply (scan_invariant (fun st => groundingUrls (result st) = []))
    with (lines := split rawText LF) (st := initial_state); auto.
  intros st0 line H0. rewrite line_step_groundingUrls. exact H0.
Qed.

Lemma parse_groundingUrls_empty_witness :
  groundingUrls
    (set_overallVerdict empty_result (lit "Low Greenwashing Risk")) = []
  /\ forall urls,
       option_map groundingUrls
         (merge_grounding
            (Some (set_overallVerdict empty_result (lit "Low Greenwashing Risk")))
            urls) = Some urls.
Proof.
  apply (parse_groundingUrls_empty
           (lit "Overall Verdict:" ++ [LF] ++ lit "Low Greenwashing Risk" ++ [LF])).
  vm_compute. reflexivity.
Defined.

(* ================================================================== *)
(** ** The bulleted-list sections *)
(* ================================================================== *)

Lemma with_result_id (st : scan_state) : with_result st (result st) = st.
Proof. destruct st; reflexivity. Qed.

Lemma appendEntries_nil (k : ResultKey) (r : ParsedResult) :
  appendEntries k r [] = r.
Proof.
  destruct r, k; unfold appendEntries; simpl; rewrite ?app_nil_r; reflexivity.
Qed.

Lemma appendEntries_app (k : ResultKey) (r : ParsedResult) (e1 e2 : list jsstring) :
  appendEntries k (appendEntries k r e1) e2 = appendEntries k r (e1 ++ e2).
Proof.
  destruct k; unfold appendEntries; simpl; rewrite <- ?app_assoc; reflexivity.
Qed.

(** One plain line in a bulleted section. *)
Lemma section_body_bulleted (k : ResultKey) (st : scan_state) (line : jsstring) :
  isBulletedKey k = true -> currentSection st = Some k ->
  section_body st line =
  with_result st
    (appendEntries k (result st)
       (if startsWith line BULLET then [trim (substring line 2)] else [])).
Proof.
  intros Hk Hc. unfold section_body. rewrite Hc.
  destruct k; try discriminate; destruct (startsWith line BULLET);
    try reflexivity; rewrite appendEntries_nil, with_result_id; reflexivity.
Qed.

Lemma bullet_is_plain (line : jsstring) :
  startsWith line BULLET = true -> plainLine line = true.
Proof.
  intros H. unfold plainLine. apply andb_true_iff. split; apply negb_true_iff.
  - destruct (startsWithIcon line) eqn:E; [exfalso|reflexivity].
    unfold startsWithIcon in E.
    repeat (apply orb_true_iff in E as [E|E]);
      first_unit H; first_unit E; congruence.
  - destruct (isHeader line) eqn:E; [exfalso|reflexivity].
    unfold isHeader, consumesNext in E.
    repeat (apply orb_true_iff in E as [E|E]);
      first_unit H; first_unit E; congruence.
Qed.

Lemma bulletEntries_cons (raw : jsstring) (body : list jsstring) :
  bulletEntries (raw :: body)
  = (if startsWith (trim raw) BULLET then [trim (substring (trim raw) 2)] else [])
    ++ bulletEntries body.
Proof.
  unfold bulletEntries. cbn [map filter].
  destruct (startsWith (trim raw) BULLET); reflexivity.
Qed.

Lemma appendEntries_set_icon (k : ResultKey) (r : ParsedResult)
    (entries : list jsstring) (tok ic : jsstring) :
  set_icon (appendEntries k (set_icon r tok) entries) ic
  = set_icon (appendEntries k r entries) ic.
Proof. destruct k; reflexivity. Qed.

Lemma icon_appendEntries (k : ResultKey) (r : ParsedResult)
    (entries : list jsstring) :
  icon (appendEntries k r entries) = icon r.
Proof. destruct k; reflexivity. Qed.

(** A block of lines of a bulleted section, icon lines included. *)
Lemma scan_bulleted_block (k : ResultKey) (body rest : list jsstring) :
  isBulletedKey k = true ->
  Forall (fun raw => isHeader (trim raw) = false) body ->
  forall st, currentSection st = Some k ->
  exists ic,
    scan (body ++ rest) st =
    scan rest
      (with_result st
         (set_icon (appendEntries k (result st) (bulletEntries body)) ic))
    /\ (Forall (fun raw => startsWithIcon (trim raw) = false) body ->
        ic = icon (result st)).
Proof.
  intros Hk Hbody. induction Hbody as [|raw body Hraw _ IH]; intros st Hc.
  - exists (icon (result st)). split; [|reflexivity].
    unfold bulletEntries. simpl.
    rewrite appendEntries_nil. destruct st as [r c n], r. reflexivity.
  - simpl app. rewrite scan_nonconsuming by (apply notHeader_nonconsuming, Hraw).
    rewrite bulletEntries_cons. unfold line_step.
    destruct (startsWithIcon (trim raw)) eqn:Hi.
    + destruct (startsWith (trim raw) BULLET) eqn:Hb.
      { apply bullet_is_plain in Hb. unfold plainLine in Hb.
        rewrite Hi in Hb. discriminate. }
      destruct (IH (with_result st
                      (set_icon (result st) (hd [] (split (trim raw) SP)))) Hc)
        as [ic [E _]].
      exists ic. split.
      * rewrite E. unfold with_result. simpl.
        rewrite appendEntries_set_icon. reflexivity.
      * intros HF. inversion HF; subst. congruence.
    + assert (E : section_line st (trim raw) = section_body st (trim raw)).
      { rewrite <- (section_line_plain st (trim raw))
          by (unfold plainLine; rewrite Hi, Hraw; reflexivity).
        unfold line_step. rewrite Hi. reflexivity. }
      rewrite E, (section_body_bulleted k st (trim raw) Hk Hc).
      destruct (IH (with_result st
                      (appendEntries k (result st)
                         (if startsWith (trim raw) BULLET
                          then [trim (substring (trim raw) 2)] else []))) Hc)
        as [ic [E' Hic]].
      exists ic. split.
      * rewrite E'. unfold with_result. simpl.
        rewrite appendEntries_app. reflexivity.
      * intros HF. inversion HF; subst. rewrite Hic by assumption.
        simpl. apply icon_appendEntries.
Qed.

(** The same block, field by field. *)
Lemma bulleted_block_fields (k : ResultKey) (body rest : list jsstring)
    (st : scan_state) :
  isBulletedKey k = true ->
  currentSection st = Some k ->
  Forall (fun raw => isHeader (trim raw) = false) body ->
  exists st',
    scan (body ++ rest) st = scan rest st'
    /\ currentSection st' = Some k
    /\ ingredientDetailName st' = ingredientDetailName st
    /\ bulletList k (result st') = bulletList k (result st) ++ bulletEntries body
    /\ (forall k', k' <> k -> k' <> Kicon ->
                   sameField k' (result st) (result st'))
    /\ (Forall (fun raw => startsWithIcon (trim raw) = false) body ->
        sameField Kicon (result st) (result st')).
Proof.
  intros Hk Hc Hbody.
  destruct (scan_bulleted_block k body rest Hk Hbody st Hc) as [ic [E Hic]].
  eexists. split; [exact E|].
  split; [exact Hc|]. split; [reflexivity|].
  split; [destruct k; try discriminate; reflexivity|].
  split.
  - intros k' Hk1 Hk2.
    destruct k; try discriminate; destruct k'; try reflexivity;
      congruence.
  - intros HF. simpl. apply Hic, HF.
Qed.

(** A line that starts with the literal [p], a code unit of which is
    neither white space nor a code unit of the guidance message, makes the
    text relevant. *)
Lemma line_prefix_relevant (rawText raw p : jsstring) (c : char16) :
  In raw (split rawText LF) -> startsWith (trim raw) p = true ->
  In c p -> isWhiteSpace c = false ->
  existsb (N.eqb c) IRRELEVANT_INPUT_MESSAGE = false ->
  irrelevant rawText = false.
Proof.
  intros Hin Hp Hc Hws Hno.
  assert (Hraw : In c rawText).
  { apply (split_In rawText LF raw _ Hin). apply (In_trim raw c Hws).
    apply startsWith_app in Hp as [t ->]. apply in_or_app; left; exact Hc. }
  apply irrelevant_false.
  - intros ->. destruct Hraw.
  - apply (not_sentinel rawText c Hraw Hws Hno).
Qed.

Section OutsideSection.

(** A field [f] of the record that only the lines of the section [k] change,
    [h] being the header of that section. *)
Variable A : Type.
Variable f : ParsedResult -> A.
Variable k : ResultKey.
Variable h : jsstring.

Hypothesis step_outside :
  forall st line,
    startsWith line h = false -> currentSection st <> Some k ->
    currentSection (line_step st line) <> Some k
    /\ f (result (line_step st line)) = f (result st).
Hypothesis step_header :
  forall st line,
    isHeader line = true -> consumesNext line = false ->
    startsWith line h = false ->
    currentSection (line_step st line) <> Some k
    /\ f (result (line_step st line)) = f (result st).
Hypothesis f_set_overallVerdict :
  forall r v, f (set_overallVerdict r v) = f r.
Hypothesis f_set_greenwashingRisk :
  forall r v, f (set_greenwashingRisk r v) = f r.

(** While the cursor is elsewhere and no line is the header [h], the field
    stays as it is and the cursor stays elsewhere. *)
Lemma scan_outside_section (lines : list jsstring) :
  Forall (fun raw => startsWith (trim raw) h = false) lines ->
  forall st st',
    currentSection st <> Some k -> scan lines st = Normal st' ->
    currentSection st' <> Some k /\ f (result st') = f (result st).
Proof.
  induction lines as [|a|a b l IH1 IH2] using list_ind2; intros HF st st' Hc H.
  - simpl in H. injection H as <-. auto.
  - inversion HF as [|? ? Ha _]; subst.
    destruct (consumesNext (trim a)) eqn:E.
    + rewrite scan_last_header in H by exact E. discriminate.
    + rewrite scan_nonconsuming in H by exact E. simpl in H. injection H as <-.
      apply step_outside; assumption.
  - inversion HF as [|? ? Ha HF']; subst.
    destruct (consumesNext (trim a)) eqn:E.
    + inversion HF' as [|? ? _ HF'']; subst.
      unfold consumesNext in E. apply orb_true_iff in E as [E|E].
      * rewrite scan_verdict in H by exact E.
        assert (Hv : currentSection (set_verdict st b) <> Some k)
          by discriminate.
        destruct (IH1 HF'' _ _ Hv H) as [H1 H2].
        split; [exact H1|]. rewrite H2. apply f_set_overallVerdict.
      * rewrite scan_risk in H by exact E.
        assert (Hv : currentSection (set_risk st b) <> Some k)
          by discriminate.
        destruct (IH1 HF'' _ _ Hv H) as [H1 H2].
        split; [exact H1|]. rewrite H2. apply f_set_greenwashingRisk.
    + rewrite scan_nonconsuming in H by exact E.
      destruct (step_outside st (trim a) Ha Hc) as [Hc1 Hf1].
      destruct (IH2 HF' _ _ Hc1 H) as [H1 H2].
      split; [exact H1|]. rewrite H2. exact Hf1.
Qed.

(** Lines that follow the section and start with another header. *)
Lemma scan_after_section (after : list jsstring) (st st' : scan_state) :
  after = [] \/ isHeader (trim (hd [] after)) = true ->
  Forall (fun raw => startsWith (trim raw) h = false) after ->
  scan after st = Normal st' ->
  f (result st') = f (result st).
Proof.
  intros Hhd HF H. destruct after as [|a l].
  { simpl in H. injection H as <-. reflexivity. }
  destruct Hhd as [Hhd|Hhd]; [discriminate|]. simpl in Hhd.
  inversion HF as [|? ? Ha HF']; subst.
  destruct (consumesNext (trim a)) eqn:E.
  - destruct l as [|b l].
    { rewrite scan_last_header in H by exact E. discriminate. }
    inversion HF' as [|? ? _ HF'']; subst.
    unfold consumesNext in E. apply orb_true_iff in E as [E|E].
    + rewrite scan_verdict in H by exact E.
      assert (Hv : currentSection (set_verdict st b) <> Some k)
        by discriminate.
      destruct (scan_outside_section l HF'' _ _ Hv H) as [_ H2].
      rewrite H2. apply f_set_overallVerdict.
    + rewrite scan_risk in H by exact E.
      assert (Hv : currentSection (set_risk st b) <> Some k)
        by discriminate.
      destruct (scan_outside_section l HF'' _ _ Hv H) as [_ H2].
      rewrite H2. apply f_set_greenwashingRisk.
  - rewrite scan_nonconsuming in H by exact E.
    destruct (step_header st (trim a) Hhd E Ha) as [Hc1 Hf1].
    destruct (scan_outside_section l HF' _ _ Hc1 H) as [_ H2].
    rewrite H2. exact Hf1.
Qed.

End OutsideSection.

(** Case analysis on the tests of one iteration, keeping the value of the
    cursor as the equation [E]. *)
Ltac line_cases st E :=
  unfold line_step, section_line, section_body;
  repeat match goal with
         | |- context [if ?b then _ else _] => destruct b
         end;
  try (destruct (currentSection st) as [[]|] eqn:E);
  repeat match goal with
         | |- context [if ?b then _ else _] => destruct b
         end;
  simpl.

Lemma claims_step_outside (st : scan_state) (line : jsstring) :
  startsWith line H_CLAIMS_FAILED = false ->
  currentSection st <> Some KclaimsFailed ->
  currentSection (line_step st line) <> Some KclaimsFailed
  /\ claimsFailed (result (line_step st line)) = claimsFailed (result st).
Proof.
  intros Hh Hc. unfold line_step, section_line. rewrite Hh.
  line_cases st E; split; try reflexivity; try discriminate; congruence.
Qed.

(** What a header line does, when it is not one of the two that read the
    next line. *)
Lemma header_moves_cursor (st : scan_state) (line : jsstring) :
  isHeader line = true -> consumesNext line = false ->
  exists k', line_step st line = with_section st (Some k')
             /\ (startsWith line H_CLAIMS_FAILED = false -> k' <> KclaimsFailed)
             /\ (startsWith line H_MORE_DETAILS = false -> k' <> KmoreDetails).
Proof.
  intros Hh Hn. unfold line_step. rewrite (header_not_icon line Hh).
  unfold isHeader in Hh. rewrite Hn in Hh. simpl in Hh.
  unfold section_line.
  destruct (startsWith line H_CLAIMS_FAILED);
    [eexists; split; [reflexivity|]; split; [discriminate|]; discriminate|].
  destruct (startsWith line H_WHY_FAILED);
    [eexists; split; [reflexivity|]; split; discriminate|].
  destruct (startsWith line H_INGREDIENTS_TO_NOTE);
    [eexists; split; [reflexivity|]; split; discriminate|].
  destruct (startsWith line H_MORE_DETAILS);
    [eexists; split; [reflexivity|]; split; discriminate|].
  destruct (startsWith line H_INGREDIENT_SPECIFIC);
    [eexists; split; [reflexivity|]; split; discriminate|].
  destruct (startsWith line H_IMPROVEMENT);
    [eexists; split; [reflexivity|]; split; discriminate|].
  discriminate Hh.
Qed.

Lemma claims_step_header (st : scan_state) (line : jsstring) :
  isHeader line = true -> consumesNext line = false ->
  startsWith line H_CLAIMS_FAILED = false ->
  currentSection (line_step st line) <> Some KclaimsFailed
  /\ claimsFailed (result (line_step st line)) = claimsFailed (result st).
Proof.
  intros Hh Hn Hc.
  destruct (header_moves_cursor st line Hh Hn) as (k' & -> & Hk & _).
  split; [|reflexivity]. simpl. intros X. injection X as X.
  exact (Hk Hc X).
Qed.

(** The line of the header "Claims that failed to meet expectations:". *)
Lemma claims_header_step (st : scan_state) (line : jsstring) :
  startsWith line H_CLAIMS_FAILED = true ->
  consumesNext line = false
  /\ line_step st line = with_section st (Some KclaimsFailed).
Proof.
  intros H. split.
  - unfold consumesNext. apply orb_false_iff. split.
    + destruct (startsWith line H_OVERALL_VERDICT) eqn:E; [|reflexivity].
      first_unit H; first_unit E; congruence.
    + destruct (startsWith line H_GREENWASHING_RISK) eqn:E; [|reflexivity].
      first_unit H; first_unit E; congruence.
  - unfold line_step. rewrite (header_not_icon line).
    + unfold section_line. rewrite H. reflexivity.
    + unfold isHeader. rewrite H. rewrite !orb_true_r. reflexivity.
Qed.

(** The list of failed claims of a text with one section of claims. *)
Lemma claims_of_one_section
    (rawText : jsstring) (before body after : list jsstring)
    (header : jsstring) (st : scan_state) :
  split rawText LF = before ++ header :: body ++ after ->
  scan before initial_state = Normal st ->
  Forall (fun raw => startsWith (trim raw) H_CLAIMS_FAILED = false)
    (before ++ after) ->
  startsWith (trim header) H_CLAIMS_FAILED = true ->
  Forall (fun raw => isHeader (trim raw) = false) body ->
  after = [] \/ isHeader (trim (hd [] after)) = true ->
  consumesNext (trim (last (split rawText LF) [])) = false ->
  exists r, parseSustainabilityResult rawText = Normal (Some r)
            /\ claimsFailed r = bulletEntries body.
Proof.
  intros Hsplit Hbefore HF Hh Hbody Hafter Hlast.
  apply Forall_app in HF as [HFb HFa].
  assert (Hrel : irrelevant rawText = false).
  { apply (line_prefix_relevant rawText header H_CLAIMS_FAILED 67%N);
      [|exact Hh|vm_compute; tauto|reflexivity|reflexivity].
    rewrite Hsplit. apply in_or_app; right; left; reflexivity. }
  rewrite (parse_relevant _ Hrel).
  destruct (scan_returns _ Hlast initial_state) as [stf Hf].
  rewrite Hf. eexists. split; [reflexivity|].
  destruct (cleanup_fields (result stf)) as (_ & _ & _ & -> & _).
  rewrite Hsplit, (scan_app before _ _ _ Hbefore) in Hf.
  destruct (claims_header_step st (trim header) Hh) as [Hn Hstep].
  rewrite scan_nonconsuming, Hstep in Hf by exact Hn.
  destruct (bulleted_block_fields KclaimsFailed body after
              (with_section st (Some KclaimsFailed)) eq_refl eq_refl Hbody)
    as (st1 & E1 & _ & _ & Hl & _).
  rewrite E1 in Hf.
  rewrite (scan_after_section _ claimsFailed KclaimsFailed H_CLAIMS_FAILED
             claims_step_outside claims_step_header
             (fun _ _ => eq_refl) (fun _ _ => eq_refl) after st1 stf
             Hafter HFa Hf).
  simpl in Hl. rewrite Hl.
  assert (H0 : currentSection initial_state <> Some KclaimsFailed)
    by discriminate.
  destruct (scan_outside_section _ claimsFailed KclaimsFailed H_CLAIMS_FAILED
              claims_step_outside (fun _ _ => eq_refl) (fun _ _ => eq_refl)
              before HFb initial_state st H0 Hbefore) as [_ ->].
  reflexivity.
Qed.

(** C3, as stated, fails for its example: what a text that contains
    "Claims that failed to meet expectations:\n- Claim A\n- Claim B\n"
    yields depends on the lines around it.  After the line "Overall Verdict:"
    the header of the claims is read as the value of the verdict and no claim
    is collected; a bulleted line that follows the two claims is collected as
    a third one. *)
Lemma claims_sample_in_context :
  contains (lit "Overall Verdict:" ++ [LF] ++ CLAIMS_SAMPLE) CLAIMS_SAMPLE
  /\ (exists r,
         parseSustainabilityResult
           (lit "Overall Verdict:" ++ [LF] ++ CLAIMS_SAMPLE) = Normal (Some r)
         /\ claimsFailed r = []
         /\ overallVerdict r = lit "Claims that failed to meet expectations:")
  /\ contains (CLAIMS_SAMPLE ++ lit "- Claim C") CLAIMS_SAMPLE
  /\ (exists r,
         parseSustainabilityResult (CLAIMS_SAMPLE ++ lit "- Claim C")
         = Normal (Some r)
         /\ claimsFailed r = [lit "Claim A"; lit "Claim B"; lit "Claim C"]).
Proof.
  split; [|split; [|split]].
  - exists (lit "Overall Verdict:" ++ [LF]), []. vm_compute. reflexivity.
  - eexists. split; [vm_compute; reflexivity|]. split; reflexivity.
  - exists [], (lit "- Claim C"). reflexivity.
  - eexists. split; [vm_compute; reflexivity|]. reflexivity.
Qed.

(** C3, amended: while the cursor is one of the four bulleted sections, a
    block of lines none of which is a header appends to the list of that
    section exactly the entries of its "- " lines (the rest of the trimmed
    line, trimmed), in input order, and leaves the cursor, the current
    ingredient name and every other field but the icon as they were; when
    none of the lines is an icon line either, the icon too is left as it
    was.  A line that starts with "- " is neither a header nor an icon line.
    For a text in which the header of the claims stands on a line that the
    scan reads as a header, is the only such header, and is followed by
    lines that are not headers up to the end of the text or to the next
    header, the list claimsFailed of the record is exactly the entries of
    these lines: ["Claim A", "Claim B"] for the lines "- Claim A" and
    "- Claim B". *)
Theorem bulleted_section_collects_entries :
  (forall (k : ResultKey) (body rest : list jsstring) (st : scan_state),
      isBulletedKey k = true ->
      currentSection st = Some k ->
      Forall (fun raw => isHeader (trim raw) = false) body ->
      exists st',
        scan (body ++ rest) st = scan rest st'
        /\ currentSection st' = Some k
        /\ ingredientDetailName st' = ingredientDetailName st
        /\ bulletList k (result st')
           = bulletList k (result st) ++ bulletEntries body
        /\ (forall k', k' <> k -> k' <> Kicon ->
                       sameField k' (result st) (result st'))
        /\ (Forall (fun raw => startsWithIcon (trim raw) = false) body ->
            sameField Kicon (result st) (result st')))
  /\ (forall line, startsWith line BULLET = true -> plainLine line = true)
  /\ (forall (rawText : jsstring) (before body after : list jsstring)
             (header : jsstring) (st : scan_state),
         split rawText LF = before ++ header :: body ++ after ->
         scan before initial_state = Normal st ->
         Forall (fun raw => startsWith (trim raw) H_CLAIMS_FAILED = false)
           (before ++ after) ->
         startsWith (trim header) H_CLAIMS_FAILED = true ->
         Forall (fun raw => isHeader (trim raw) = false) body ->
         after = [] \/ isHeader (trim (hd [] after)) = true ->
         consumesNext (trim (last (split rawText LF) [])) = false ->
         exists r, parseSustainabilityResult rawText = Normal (Some r)
                   /\ claimsFailed r = bulletEntries body).
Proof.
  split; [|split].
  - intros k body rest st Hk Hc Hbody.
    apply bulleted_block_fields; assumption.
  - exact bullet_is_plain.
  - intros rawText before body after header st.
    apply claims_of_one_section.
Qed.

Lemma bulleted_section_collects_entries_witness :
  (exists st',
      scan ([lit "  - Claim A "; ICON_CROSS ++ lit " High risk"; lit "see below";
             lit "- Claim B"] ++ [lit "Why these claims failed:"])
           (with_section initial_state (Some KclaimsFailed))
      = scan [lit "Why these claims failed:"] st'
      /\ currentSection st' = Some KclaimsFailed
      /\ claimsFailed (result st') = [lit "Claim A"; lit "Claim B"])
  /\ plainLine (lit "- Claim A") = true
  /\ (exists r,
         parseSustainabilityResult
           (lit "Overall Verdict:" ++ [LF] ++ lit "High Greenwashing Risk"
            ++ [LF] ++ CLAIMS_SAMPLE ++ lit "Why these claims failed:" ++ [LF]
            ++ lit "- Claim A is not supported")
         = Normal (Some r)
         /\ claimsFailed r = [lit "Claim A"; lit "Claim B"]).
Proof.
  split; [|split].
  - destruct (proj1 bulleted_section_collects_entries KclaimsFailed
                [lit "  - Claim A "; ICON_CROSS ++ lit " High risk";
                 lit "see below"; lit "- Claim B"]
                [lit "Why these claims failed:"]
                (with_section initial_state (Some KclaimsFailed))
                eq_refl eq_refl)
      as (st' & E & Hc & _ & Hl & _).
    + repeat constructor.
    + exists st'. split; [exact E|]. split; [exact Hc | exact Hl].
  - apply (proj1 (proj2 bulleted_section_collects_entries)). reflexivity.
  - apply (proj2 (proj2 bulleted_section_collects_entries)
             (lit "Overall Verdict:" ++ [LF] ++ lit "High Greenwashing Risk"
              ++ [LF] ++ CLAIMS_SAMPLE ++ lit "Why these claims failed:" ++ [LF]
              ++ lit "- Claim A is not supported")
             [lit "Overall Verdict:"; lit "High Greenwashing Risk"]
             [lit "- Claim A"; lit "- Claim B"]
             [lit "Why these claims failed:"; lit "- Claim A is not supported"]
             (lit "Claims that failed to meet expectations:")
             (set_verdict initial_state (lit "High Greenwashing Risk"))).
    + vm_compute. reflexivity.
    + vm_compute. reflexivity.
    + repeat constructor.
    + reflexivity.
    + repeat constructor.
    + right. reflexivity.
    + vm_compute. reflexivity.
Defined.

(* ================================================================== *)
(** ** The free-text section *)
(* ================================================================== *)

Lemma set_moreDetails_id (r : ParsedResult) : set_moreDetails r (moreDetails r) = r.
Proof. destruct r; reflexivity. Qed.

(** A block of lines of the section, in one step. *)
Lemma scan_moreDetails_block (body rest : list jsstring) (st : scan_state) :
  currentSection st = Some KmoreDetails ->
  Forall (fun raw => plainLine (trim raw) = true) body ->
  scan (body ++ rest) st =
  scan rest
    (with_result st
       (set_moreDetails (result st)
          (moreDetails (result st) ++ detailText body))).
Proof.
  intros Hc Hbody. revert st Hc.
  induction Hbody as [|raw body Hraw _ IH]; intros st Hc.
  - unfold detailText. simpl.
    rewrite app_nil_r, set_moreDetails_id, with_result_id. reflexivity.
  - simpl app. rewrite (scan_plain _ _ _ Hraw).
    unfold section_body at 1. rewrite Hc.
    unfold detailText. simpl map.
    destruct (truthy (trim raw)) eqn:E; simpl filter.
    + rewrite IH by exact Hc. f_equal.
      unfold with_result, set_moreDetails, detailText. simpl.
      rewrite <- !app_assoc. reflexivity.
    + rewrite IH by exact Hc. reflexivity.
Qed.

(** The same block, field by field. *)
Lemma moreDetails_block_fields (body rest : list jsstring) (st : scan_state) :
  currentSection st = Some KmoreDetails ->
  Forall (fun raw => plainLine (trim raw) = true) body ->
  exists st',
    scan (body ++ rest) st = scan rest st'
    /\ currentSection st' = Some KmoreDetails
    /\ ingredientDetailName st' = ingredientDetailName st
    /\ moreDetails (result st') = moreDetails (result st) ++ detailText body
    /\ (forall k', k' <> KmoreDetails -> sameField k' (result st) (result st')).
Proof.
  intros Hc Hbody. eexists.
  split; [apply (scan_moreDetails_block body rest st Hc Hbody)|].
  split; [exact Hc|]. split; [reflexivity|]. split; [reflexivity|].
  intros [] Hk; try reflexivity. congruence.
Qed.

Lemma more_step_outside (st : scan_state) (line : jsstring) :
  startsWith line H_MORE_DETAILS = false ->
  currentSection st <> Some KmoreDetails ->
  currentSection (line_step st line) <> Some KmoreDetails
  /\ moreDetails (result (line_step st line)) = moreDetails (result st).
Proof.
  intros Hh Hc. unfold line_step, section_line. rewrite Hh.
  line_cases st E; split; try reflexivity; try discriminate; congruence.
Qed.

Lemma more_step_header (st : scan_state) (line : jsstring) :
  isHeader line = true -> consumesNext line = false ->
  startsWith line H_MORE_DETAILS = false ->
  currentSection (line_step st line) <> Some KmoreDetails
  /\ moreDetails (result (line_step st line)) = moreDetails (result st).
Proof.
  intros Hh Hn Hc.
  destruct (header_moves_cursor st line Hh Hn) as (k' & -> & _ & Hk).
  split; [|reflexivity]. simpl. intros X. injection X as X.
  exact (Hk Hc X).
Qed.

(** The line of the header "More details:". *)
Lemma more_header_step (st : scan_state) (line : jsstring) :
  startsWith line H_MORE_DETAILS = true ->
  consumesNext line = false
  /\ line_step st line = with_section st (Some KmoreDetails).
Proof.
  intros H.
  assert (Hh : isHeader line = true).
  { unfold isHeader. rewrite H. rewrite !orb_true_r. reflexivity. }
  split.
  - unfold consumesNext. apply orb_false_iff. split.
    + destruct (startsWith line H_OVERALL_VERDICT) eqn:E; [|reflexivity].
      first_unit H; first_unit E; congruence.
    + destruct (startsWith line H_GREENWASHING_RISK) eqn:E; [|reflexivity].
      first_unit H; first_unit E; congruence.
  - unfold line_step. rewrite (header_not_icon line Hh).
    unfold section_line.
    destruct (startsWith line H_CLAIMS_FAILED) eqn:E1;
      [first_unit H; first_unit E1; congruence|].
    destruct (startsWith line H_WHY_FAILED) eqn:E2;
      [first_unit H; first_unit E2; congruence|].
    destruct (startsWith line H_INGREDIENTS_TO_NOTE) eqn:E3;
      [first_unit H; first_unit E3; congruence|].
    rewrite H. reflexivity.
Qed.

(** The free text of a response with one section "More details:". *)
Lemma moreDetails_of_one_section
    (rawText : jsstring) (before body after : list jsstring)
    (header : jsstring) (st : scan_state) :
  split rawText LF = before ++ header :: body ++ after ->
  scan before initial_state = Normal st ->
  Forall (fun raw => startsWith (trim raw) H_MORE_DETAILS = false)
    (before ++ after) ->
  startsWith (trim header) H_MORE_DETAILS = true ->
  Forall (fun raw => plainLine (trim raw) = true) body ->
  after = [] \/ isHeader (trim (hd [] after)) = true ->
  consumesNext (trim (last (split rawText LF) [])) = false ->
  exists r, parseSustainabilityResult rawText = Normal (Some r)
            /\ moreDetails r = trim (detailText body).
Proof.
  intros Hsplit Hbefore HF Hh Hbody Hafter Hlast.
  apply Forall_app in HF as [HFb HFa].
  assert (Hrel : irrelevant rawText = false).
  { apply (line_prefix_relevant rawText header H_MORE_DETAILS 77%N);
      [|exact Hh|vm_compute; tauto|reflexivity|reflexivity].
    rewrite Hsplit. apply in_or_app; right; left; reflexivity. }
  rewrite (parse_relevant _ Hrel).
  destruct (scan_returns _ Hlast initial_state) as [stf Hf].
  rewrite Hf. eexists. split; [reflexivity|].
  destruct (cleanup_fields (result stf)) as (_ & _ & _ & _ & _ & _ & -> & _).
  rewrite Hsplit, (scan_app before _ _ _ Hbefore) in Hf.
  destruct (more_header_step st (trim header) Hh) as [Hn Hstep].
  rewrite scan_nonconsuming, Hstep in Hf by exact Hn.
  destruct (moreDetails_block_fields body after
              (with_section st (Some KmoreDetails)) eq_refl Hbody)
    as (st1 & E1 & _ & _ & Hl & _).
  rewrite E1 in Hf.
  rewrite (scan_after_section _ moreDetails KmoreDetails H_MORE_DETAILS
             more_step_outside more_step_header
             (fun _ _ => eq_refl) (fun _ _ => eq_refl) after st1 stf
             Hafter HFa Hf).
  rewrite Hl. simpl.
  assert (H0 : currentSection initial_state <> Some KmoreDetails)
    by discriminate.
  destruct (scan_outside_section _ moreDetails KmoreDetails H_MORE_DETAILS
              more_step_outside (fun _ _ => eq_refl) (fun _ _ => eq_refl)
              before HFb initial_state st H0 Hbefore) as [_ ->].
  reflexivity.
Qed.

(** C7: while the cursor is [moreDetails], a block of lines that are neither
    icon lines nor headers appends to the accumulator every non-empty line,
    each followed by a newline, and changes nothing else; the field of the
    returned record is the accumulator at the end of the scan, trimmed.  So
    for a text with one section "More details:", whose lines run to the end
    of the text or to the next header, the field is the text of these lines,
    joined by newlines and trimmed. *)
Theorem moreDetails_accumulates_lines :
  (forall (body rest : list jsstring) (st : scan_state),
      currentSection st = Some KmoreDetails ->
      Forall (fun raw => plainLine (trim raw) = true) body ->
      exists st',
        scan (body ++ rest) st = scan rest st'
        /\ currentSection st' = Some KmoreDetails
        /\ ingredientDetailName st' = ingredientDetailName st
        /\ moreDetails (result st')
           = moreDetails (result st) ++ detailText body
        /\ (forall k', k' <> KmoreDetails ->
                       sameField k' (result st) (result st')))
  /\ (forall (rawText : jsstring) (r : ParsedResult),
         parseSustainabilityResult rawText = Normal (Some r) ->
         exists st, scan (split rawText LF) initial_state = Normal st
                    /\ moreDetails r = trim (moreDetails (result st)))
  /\ (forall (rawText : jsstring) (before body after : list jsstring)
             (header : jsstring) (st : scan_state),
         split rawText LF = before ++ header :: body ++ after ->
         scan before initial_state = Normal st ->
         Forall (fun raw => startsWith (trim raw) H_MORE_DETAILS = false)
           (before ++ after) ->
         startsWith (trim header) H_MORE_DETAILS = true ->
         Forall (fun raw => plainLine (trim raw) = true) body ->
         after = [] \/ isHeader (trim (hd [] after)) = true ->
         consumesNext (trim (last (split rawText LF) [])) = false ->
         exists r, parseSustainabilityResult rawText = Normal (Some r)
                   /\ moreDetails r = trim (detailText body)).
Proof.
  split; [|split].
  - exact moreDetails_block_fields.
  - intros rawText r H. apply parse_record in H as [st [Hscan ->]].
    exists st. split; [exact Hscan|].
    apply (cleanup_fields (result st)).
  - exact moreDetails_of_one_section.
Qed.

Lemma moreDetails_accumulates_lines_witness :
  (exists st',
      scan ([lit " First line."; []; lit "Second line. "] ++ [])
           (with_section initial_state (Some KmoreDetails))
      = scan [] st'
      /\ moreDetails (result st')
         = lit "First line." ++ [LF] ++ lit "Second line." ++ [LF])
  /\ (exists st,
         scan (split (lit "More details:" ++ [LF] ++ lit "Plain text." ++ [LF]) LF)
              initial_state = Normal st
         /\ lit "Plain text." = trim (moreDetails (result st)))
  /\ (exists r,
         parseSustainabilityResult
           (lit "Greenwashing Risk:" ++ [LF] ++ lit "12% (Low)" ++ [LF]
            ++ lit "More details:" ++ [LF] ++ lit " First line." ++ [LF] ++ [LF]
            ++ lit "Second line. " ++ [LF]
            ++ lit "Improvement suggestions:" ++ [LF] ++ lit "- Use less")
         = Normal (Some r)
         /\ moreDetails r = lit "First line." ++ [LF] ++ lit "Second line.").
Proof.
  split; [|split].
  - destruct (proj1 moreDetails_accumulates_lines
                [lit " First line."; []; lit "Second line. "] []
                (with_section initial_state (Some KmoreDetails)) eq_refl)
      as (st' & E & _ & _ & Hm & _).
    + repeat constructor.
    + exists st'. split; [exact E | exact Hm].
  - apply (proj1 (proj2 moreDetails_accumulates_lines)
             (lit "More details:" ++ [LF] ++ lit "Plain text." ++ [LF])
             (set_moreDetails empty_result (lit "Plain text."))).
    vm_compute. reflexivity.
  - apply (proj2 (proj2 moreDetails_accumulates_lines)
             (lit "Greenwashing Risk:" ++ [LF] ++ lit "12% (Low)" ++ [LF]
              ++ lit "More details:" ++ [LF] ++ lit " First line." ++ [LF] ++ [LF]
              ++ lit "Second line. " ++ [LF]
              ++ lit "Improvement suggestions:" ++ [LF] ++ lit "- Use less")
             [lit "Greenwashing Risk:"; lit "12% (Low)"]
             [lit " First line."; []; lit "Second line. "]
             [lit "Improvement suggestions:"; lit "- Use less"]
             (lit "More details:")
             (set_risk initial_state (lit "12% (Low)"))).
    + vm_compute. reflexivity.
    + vm_compute. reflexivity.
    + repeat constructor.
    + reflexivity.
    + repeat constructor.
    + right. reflexivity.
    + vm_compute. reflexivity.
Defined.

(* ================================================================== *)
(** ** The ingredient-specific section *)
(* ================================================================== *)





(** A line "pre:" in the ingredient-specific section. *)
Lemma section_body_name_line (st : scan_state) (line pre : jsstring) :
  currentSection st = Some KingredientSpecificDetails ->
  line = pre ++ [COLON] ->
  section_body st line =
  with_result (with_name st (trim pre))
    (set_ingredientSpecificDetails (result st)
       (ingredientSpecificDetails (result st)
          ++ (if truthy (trim pre)
              then [{| name := trim pre; explanation := [] |}] else []))).
Proof.
  intros Hc ->. unfold section_body. rewrite Hc.
  replace (endsWith (pre ++ [COLON]) [COLON]) with true
    by (symmetry; apply endsWith_app; exists pre; reflexivity).
  rewrite slice_drop_last.
  destruct (truthy (trim pre)); [reflexivity|].
  destruct st as [r c n], r. unfold with_result, with_name,
    set_ingredientSpecificDetails. simpl. rewrite app_nil_r. reflexivity.
Qed.



(** A line of the ingredient-specific section that is not a header and does
    not end with ':' adds nothing while no name is active. *)
Lemma line_step_inactive (st : scan_state) (line : jsstring) :
  currentSection st = Some KingredientSpecificDetails ->
  ingredientDetailName st = [] ->
  isHeader line = false -> endsWith line [COLON] = false ->
  currentSection (line_step st line) = Some KingredientSpecificDetails
  /\ ingredientDetailName (line_step st line) = []
  /\ ingredientSpecificDetails (result (line_step st line))
     = ingredientSpecificDetails (result st).
Proof.
  intros Hc Hn Hh Hcolon. unfold line_step.
  destruct (startsWithIcon line) eqn:Hi; [simpl; auto|].
  assert (E : section_line st line = section_body st line).
  { rewrite <- (section_line_plain st line)
      by (unfold plainLine; rewrite Hi, Hh; reflexivity).
    unfold line_step. rewrite Hi. reflexivity. }
  rewrite E. unfold section_body. rewrite Hc, Hcolon, Hn. simpl. auto.
Qed.

(** C10: while the cursor is [ingredientSpecificDetails], a line that ends
    with ':' and whose text before the colon trims to the empty string (a
    lone ":" for example) creates no entry and leaves no name active; the
    lines after it that are not headers and do not end with ':' are then
    appended to no entry, the list of entries staying as it was, until a line
    "pre:" with a non-empty trimmed [pre] appends an entry and makes its name
    active again. *)
Theorem empty_name_deactivates_accumulation
    (raw pre : jsstring) (body rest : list jsstring) (st : scan_state) :
  currentSection st = Some KingredientSpecificDetails ->
  plainLine (trim raw) = true ->
  trim raw = pre ++ [COLON] ->
  trim pre = [] ->
  Forall (fun l => isHeader (trim l) = false
                   /\ endsWith (trim l) [COLON] = false) body ->
  exists st',
    scan (raw :: body ++ rest) st = scan rest st'
    /\ currentSection st' = Some KingredientSpecificDetails
    /\ ingredientDetailName st' = []
    /\ ingredientSpecificDetails (result st')
       = ingredientSpecificDetails (result st)
    /\ forall (raw2 pre2 : jsstring) (rest2 : list jsstring),
         plainLine (trim raw2) = true ->
         trim raw2 = pre2 ++ [COLON] ->
         trim pre2 <> [] ->
         exists st2,
           scan (raw2 :: rest2) st' = scan rest2 st2
           /\ ingredientDetailName st2 = trim pre2
           /\ ingredientSpecificDetails (result st2)
              = ingredientSpecificDetails (result st)
                ++ [{| name := trim pre2; explanation := [] |}].
Proof.
  intros Hc Hp Hraw Hpre Hbody.
  rewrite (scan_plain _ _ _ Hp).
  rewrite (section_body_name_line st (trim raw) pre Hc Hraw), Hpre.
  simpl truthy. cbv iota. rewrite app_nil_r.
  set (st0 := with_result (with_name st []) _).
  assert (H0 : currentSection st0 = Some KingredientSpecificDetails
               /\ ingredientDetailName st0 = []
               /\ ingredientSpecificDetails (result st0)
                  = ingredientSpecificDetails (result st)).
  { subst st0. simpl. auto. }
  clearbody st0. revert st0 H0.
  induction Hbody as [|l body [Hh Hcolon] _ IH]; intros st0 (H1 & H2 & H3).
  - exists st0. simpl app. repeat split; auto.
    intros raw2 pre2 rest2 Hp2 Hraw2 Hpre2. eexists.
    rewrite (scan_plain _ _ _ Hp2).
    rewrite (section_body_name_line st0 (trim raw2) pre2 H1 Hraw2).
    apply truthy_true in Hpre2. rewrite Hpre2.
    split; [reflexivity|]. simpl. rewrite H3. auto.
  - simpl app. rewrite scan_nonconsuming.
    + apply IH. rewrite <- H3.
      apply (line_step_inactive st0 (trim l) H1 H2 Hh Hcolon).
    + apply notHeader_nonconsuming, Hh.
Qed.

Lemma empty_name_deactivates_accumulation_witness :
  exists st',
    scan (lit " : " :: [lit "dropped text"; ICON_CHECK ++ lit " ok"] ++ [])
         after_paraben = scan [] st'
    /\ currentSection st' = Some KingredientSpecificDetails
    /\ ingredientDetailName st' = []
    /\ ingredientSpecificDetails (result st')
       = ingredientSpecificDetails (result after_paraben)
    /\ forall (raw2 pre2 : jsstring) (rest2 : list jsstring),
         plainLine (trim raw2) = true ->
         trim raw2 = pre2 ++ [COLON] ->
         trim pre2 <> [] ->
         exists st2,
           scan (raw2 :: rest2) st' = scan rest2 st2
           /\ ingredientDetailName st2 = trim pre2
           /\ ingredientSpecificDetails (result st2)
              = ingredientSpecificDetails (result after_paraben)
                ++ [{| name := trim pre2; explanation := [] |}].
Proof.
  apply (empty_name_deactivates_accumulation (lit " : ") []
           [lit "dropped text"; ICON_CHECK ++ lit " ok"] [] after_paraben);
    try reflexivity.
  repeat constructor.
Defined.

(* ================================================================== *)
(** ** The overall verdict *)
(* ================================================================== *)

(** C6, as stated, fails: a later "Overall Verdict:" header overwrites the
    field.  The text below contains the substring of the claim, and the
    record returned for it has the verdict "High Greenwashing Risk". *)
Lemma later_verdict_overwrites :
  contains (VERDICT_SAMPLE ++ lit "Overall Verdict:" ++ [LF]
            ++ lit "High Greenwashing Risk" ++ [LF]) VERDICT_SAMPLE
  /\ exists r,
       parseSustainabilityResult
         (VERDICT_SAMPLE ++ lit "Overall Verdict:" ++ [LF]
          ++ lit "High Greenwashing Risk" ++ [LF]) = Normal (Some r)
       /\ overallVerdict r = lit "High Greenwashing Risk"
       /\ overallVerdict r <> lit "Low Greenwashing Risk".
Proof.
  split.
  - exists [], (lit "Overall Verdict:" ++ [LF]
                ++ lit "High Greenwashing Risk" ++ [LF]). reflexivity.
  - eexists. split; [vm_compute; reflexivity|].
    split; [reflexivity | vm_compute; discriminate].
Qed.

Lemma line_step_overallVerdict (st : scan_state) (line : jsstring) :
  overallVerdict (result (line_step st line)) = overallVerdict (result st).
Proof. step_cases st; reflexivity. Qed.

(** Lines none of which is an "Overall Verdict:" header leave the verdict as
    it is. *)
Lemma scan_keeps_verdict (lines : list jsstring) :
  Forall (fun raw => startsWith (trim raw) H_OVERALL_VERDICT = false) lines ->
  forall st st', scan lines st = Normal st' ->
                 overallVerdict (result st') = overallVerdict (result st).
Proof.
  induction lines as [|a|a b l IH1 IH2] using list_ind2; intros HF st st' H.
  - simpl in H. injection H as <-. reflexivity.
  - destruct (consumesNext (trim a)) eqn:E.
    + rewrite scan_last_header in H by exact E. discriminate.
    + rewrite scan_nonconsuming in H by exact E. simpl in H. injection H as <-.
      apply line_step_overallVerdict.
  - inversion HF as [|? ? Ha HF']; subst.
    destruct (consumesNext (trim a)) eqn:E.
    + unfold consumesNext in E. rewrite Ha in E. simpl in E.
      rewrite scan_risk in H by exact E.
      inversion HF' as [|? ? _ HF'']; subst.
      rewrite (IH1 HF'' _ _ H). reflexivity.
    + rewrite scan_nonconsuming in H by exact E.
      rewrite (IH2 HF' _ _ H). apply line_step_overallVerdict.
Qed.

Lemma last_Forall (A : Type) (P : A -> Prop) (l : list A) (d : A) :
  Forall P l -> P d -> P (last l d).
Proof.
  intros H Hd. induction H as [|a l Ha _ IH]; [exact Hd|].
  destruct l; [exact Ha | exact IH].
Qed.

(** C6, amended: when the lines of the response are lines that the scan
    reads completely, then a line that starts (trimmed) with
    "Overall Verdict:" and a line whose trimmed text is
    "Low Greenwashing Risk", then lines none of which starts with
    "Overall Verdict:" and the last of which does not start with
    "Greenwashing Risk:", [parseSustainabilityResult] returns a record whose
    overallVerdict is "Low Greenwashing Risk". *)
Theorem verdict_line_is_parsed
    (rawText : jsstring) (before after : list jsstring)
    (header value : jsstring) (st : scan_state) :
  split rawText LF = before ++ [header; value] ++ after ->
  scan before initial_state = Normal st ->
  startsWith (trim header) H_OVERALL_VERDICT = true ->
  trim value = lit "Low Greenwashing Risk" ->
  Forall (fun raw => startsWith (trim raw) H_OVERALL_VERDICT = false) after ->
  startsWith (trim (last after [])) H_GREENWASHING_RISK = false ->
  exists r, parseSustainabilityResult rawText = Normal (Some r)
            /\ overallVerdict r = lit "Low Greenwashing Risk".
Proof.
  intros Hsplit Hbefore Hh Hvalue Hafter Hlast.
  assert (Hc : consumesNext (trim header) = true).
  { unfold consumesNext. rewrite Hh. reflexivity. }
  assert (Hne : rawText <> []).
  { intros ->. simpl in Hsplit.
    destruct before as [|b [|b' before]]; discriminate. }
  assert (Hs : trim rawText <> trim IRRELEVANT_INPUT_MESSAGE).
  { apply (value_header_not_sentinel rawText header); [|exact Hc].
    rewrite Hsplit. apply in_or_app; right; left; reflexivity. }
  rewrite (parse_relevant _ (irrelevant_false _ Hne Hs)), Hsplit.
  rewrite (scan_app before _ _ _ Hbefore).
  simpl app. rewrite scan_verdict by exact Hh.
  assert (Hl : consumesNext (trim (last after [])) = false).
  { unfold consumesNext. rewrite Hlast, orb_false_r.
    apply (last_Forall _
             (fun raw => startsWith (trim raw) H_OVERALL_VERDICT = false));
      [exact Hafter | reflexivity]. }
  destruct (scan_returns after Hl (set_verdict st value)) as [st' Hst'].
  rewrite Hst'. eexists. split; [reflexivity|].
  destruct (cleanup_fields (result st')) as (_ & -> & _).
  rewrite (scan_keeps_verdict after Hafter _ _ Hst'). exact Hvalue.
Qed.

Lemma verdict_line_is_parsed_witness :
  exists r,
    parseSustainabilityResult
      (lit "Greenwashing Risk:" ++ [LF] ++ lit "12% (Low)" ++ [LF]
       ++ lit "  " ++ VERDICT_SAMPLE
       ++ lit "More details:" ++ [LF] ++ lit "Overall, the claims hold.")
    = Normal (Some r)
    /\ overallVerdict r = lit "Low Greenwashing Risk".
Proof.
  apply (verdict_line_is_parsed _
           [lit "Greenwashing Risk:"; lit "12% (Low)"]
           [lit "More details:"; lit "Overall, the claims hold."]
           (lit "  Overall Verdict:") (lit "Low Greenwashing Risk")
           (set_risk initial_state (lit "12% (Low)"))).
  - vm_compute. reflexivity.
  - vm_compute. reflexivity.
  - reflexivity.
  - reflexivity.
  - repeat constructor.
  - reflexivity.
Defined.

(* ================================================================== *)
(** ** The report: what is placed *)
(* ================================================================== *)

Lemma appends_id : appends (fun st => st).
Proof. intros st. exists []. symmetry. apply app_nil_r. Qed.

Lemma appends_emit (op : pdf_op) : appends (emit op).
Proof. intros st. exists [op]. reflexivity. Qed.

Lemma appends_advance (dy : Q) : appends (advance dy).
Proof. intros st. exists []. symmetry. apply app_nil_r. Qed.

Lemma appends_text (s : jsstring) (x : Q) : appends (text s x).
Proof. intros st. eexists. reflexivity. Qed.

Lemma appends_andThen (f g : pdf_state -> pdf_state) :
  appends f -> appends g -> appends (f ;; g)%pdf.
Proof.
  intros Hf Hg st. unfold andThen.
  destruct (Hf st) as [o1 E1]. destruct (Hg (f st)) as [o2 E2].
  exists (o1 ++ o2). rewrite E2, E1. symmetry. apply app_assoc.
Qed.

Lemma appends_fold (A : Type) (f : pdf_state -> A -> pdf_state) (l : list A) :
  (forall a, appends (fun st => f st a)) ->
  appends (fun st => fold_left f l st).
Proof.
  intros Hf. induction l as [|a l IH]; simpl.
  - apply appends_id.
  - intros st. destruct (Hf a st) as [o1 E1]. destruct (IH (f st a)) as [o2 E2].
    exists (o1 ++ o2). rewrite E2, E1. symmetry. apply app_assoc.
Qed.

Ltac appends_steps :=
  repeat match goal with
         | |- appends (andThen _ _) => apply appends_andThen
         | |- appends (fun st => andThen ?f ?g st) =>
             change (appends (andThen f g))
         end.

Lemma appends_dep (g : pdf_state -> pdf_state -> pdf_state) :
  (forall st0, appends (g st0)) -> appends (fun st => g st st).
Proof. intros H st. apply (H st). Qed.

Section ReportFacts.

Variables pageWidth pageHeight : Q.
Variable getTextWidth : list pdf_op -> jsstring -> Q.
Variable splitTextToSize : list pdf_op -> jsstring -> Q -> list jsstring.

Lemma appends_pageBreakIfNeeded (need : Q) :
  appends (pageBreakIfNeeded pageHeight need).
Proof.
  intros st. unfold pageBreakIfNeeded.
  destruct (negb _); [exists [AddPage]; reflexivity|].
  exists []. symmetry. apply app_nil_r.
Qed.

Lemma appends_bulletItem (entry : jsstring) :
  appends (fun st => bulletItem pageHeight st entry).
Proof.
  unfold bulletItem.
  appends_steps;
    auto using appends_pageBreakIfNeeded, appends_text, appends_advance.
Qed.

Lemma appends_wrappedLine (x : Q) (line : jsstring) :
  appends (fun st => wrappedLine pageHeight x st line).
Proof.
  unfold wrappedLine.
  appends_steps;
    auto using appends_pageBreakIfNeeded, appends_text, appends_advance.
Qed.

Lemma appends_wrappedLines (x : Q)
    (lines : pdf_state -> list jsstring) :
  appends (fun st => fold_left (wrappedLine pageHeight x) (lines st) st).
Proof.
  apply (appends_dep
           (fun st0 st => fold_left (wrappedLine pageHeight x) (lines st0) st)).
  intros st0. apply appends_fold. intros line. apply appends_wrappedLine.
Qed.

Lemma appends_ingredientItem (item : IngredientDetail) :
  appends (fun st =>
             ingredientItem pageWidth pageHeight splitTextToSize st item).
Proof.
  unfold ingredientItem.
  appends_steps;
    auto using appends_pageBreakIfNeeded, appends_text, appends_advance.
  apply appends_wrappedLines.
Qed.

Lemma appends_urlItem (url : GroundingUrl) :
  appends (fun st => urlItem pageHeight st url).
Proof.
  unfold urlItem.
  appends_steps;
    auto using appends_pageBreakIfNeeded, appends_text, appends_advance,
      appends_emit.
  intros st. eexists. reflexivity.
Qed.

Lemma appends_bulletedBlock (heading : jsstring) (entries : list jsstring) :
  appends (bulletedBlock pageHeight heading entries).
Proof.
  unfold bulletedBlock.
  appends_steps;
    auto using appends_text, appends_advance, appends_emit.
  apply appends_fold, appends_bulletItem.
Qed.

Lemma appends_fallbackBlock (heading label fallback : jsstring) :
  appends (fallbackBlock getTextWidth heading label fallback).
Proof.
  unfold fallbackBlock.
  appends_steps;
    auto using appends_text, appends_advance, appends_emit.
  intros st. eexists. reflexivity.
Qed.

Lemma appends_whyBlock (r : ParsedResult) :
  appends (whyBlock pageHeight getTextWidth r).
Proof.
  unfold whyBlock. destruct (whyClaimsFailed r);
    auto using appends_bulletedBlock, appends_fallbackBlock.
Qed.

Lemma appends_ingredientsBlock (r : ParsedResult) :
  appends (ingredientsBlock pageHeight getTextWidth r).
Proof.
  unfold ingredientsBlock. destruct (ingredientsToNote r);
    auto using appends_bulletedBlock, appends_fallbackBlock.
Qed.

Lemma appends_moreDetailsBlock (r : ParsedResult) :
  appends (moreDetailsBlock pageWidth pageHeight splitTextToSize r).
Proof.
  unfold moreDetailsBlock. destruct (truthy (moreDetails r));
    [|apply appends_id].
  appends_steps;
    auto using appends_text, appends_advance, appends_emit.
  apply appends_wrappedLines.
Qed.

Lemma appends_ingredientDetailsBlock (r : ParsedResult) :
  appends (ingredientDetailsBlock pageWidth pageHeight splitTextToSize r).
Proof.
  unfold ingredientDetailsBlock. destruct (ingredientSpecificDetails r);
    [apply appends_id|].
  appends_steps;
    auto using appends_text, appends_advance, appends_emit.
  apply appends_fold, appends_ingredientItem.
Qed.

Lemma appends_suggestionsBlock (r : ParsedResult) :
  appends (suggestionsBlock pageHeight r).
Proof.
  unfold suggestionsBlock. destruct (improvementSuggestions r);
    auto using appends_bulletedBlock, appends_id.
Qed.

Lemma appends_groundingBlock (r : ParsedResult) :
  appends (groundingBlock pageHeight r).
Proof.
  unfold groundingBlock. destruct (groundingUrls r); [apply appends_id|].
  appends_steps;
    auto using appends_text, appends_advance, appends_emit.
  apply appends_fold, appends_urlItem.
Qed.

Lemma fallbackBlock_placed (heading label fallback : jsstring)
    (st : pdf_state) :
  fallbackPlaced getTextWidth heading label fallback
    (doc (fallbackBlock getTextWidth heading label fallback st)).
Proof.
  exists (doc st ++ [SetFont helvetica bold]), [], (y st).
  unfold fallbackBlock, andThen, textAfterLabel, text, emit, advance. simpl.
  rewrite <- !app_assoc. reflexivity.
Qed.

Lemma fallbackPlaced_appends (heading label fallback : jsstring)
    (f : pdf_state -> pdf_state) (st : pdf_state) :
  appends f ->
  fallbackPlaced getTextWidth heading label fallback (doc st) ->
  fallbackPlaced getTextWidth heading label fallback (doc (f st)).
Proof.
  intros Hf (pre & post & y0 & E). destruct (Hf st) as [ops Eops].
  exists pre, (post ++ ops), y0. rewrite Eops, E.
  rewrite <- !app_assoc. reflexivity.
Qed.

(** The calls of a report, block after block. *)
Lemma generatePdfReport_ops (r : ParsedResult) (ops : list pdf_op) :
  generatePdfReport pageWidth pageHeight getTextWidth splitTextToSize (Some r)
  = Some ops ->
  ops =
  doc (emit (Save (lit "GreenChoice_Report.pdf"))
         (groundingBlock pageHeight r
            (suggestionsBlock pageHeight r
               (ingredientDetailsBlock pageWidth pageHeight splitTextToSize r
                  (moreDetailsBlock pageWidth pageHeight splitTextToSize r
                     (ingredientsBlock pageHeight getTextWidth r
                        (whyBlock pageHeight getTextWidth r
                           (claimsBlock pageHeight getTextWidth r
                              (riskLine getTextWidth r
                                 (verdictLine getTextWidth r
                                    (header r newDocument))))))))))).
Proof. intros H. injection H as <-. reflexivity. Qed.

(** C8: in the report of a record, an empty claimsFailed places the
    heading and, on its line, the literal "None" (no bulleted list); an
    empty ingredientsToNote places "None" in the same way; an empty
    whyClaimsFailed places "All claims appear reasonable or are
    well-supported by ingredients.". *)
Theorem empty_lists_place_fallbacks (r : ParsedResult) (ops : list pdf_op) :
  generatePdfReport pageWidth pageHeight getTextWidth splitTextToSize (Some r)
  = Some ops ->
  (claimsFailed r = [] ->
   fallbackPlaced getTextWidth H_CLAIMS_FAILED
     (lit "Claims that failed to meet expectations: ") (lit "None") ops)
  /\ (ingredientsToNote r = [] ->
      fallbackPlaced getTextWidth H_INGREDIENTS_TO_NOTE (lit "Ingredients to note: ")
        (lit "None") ops)
  /\ (whyClaimsFailed r = [] ->
      fallbackPlaced getTextWidth H_WHY_FAILED (lit "Why these claims failed: ")
        (lit "All claims appear reasonable or are well-supported by ingredients.")
        ops).
Proof.
  intros H. rewrite (generatePdfReport_ops r ops H).
  repeat split; intros E.
  - do 7 (apply fallbackPlaced_appends;
          [auto using appends_emit, appends_groundingBlock,
             appends_suggestionsBlock, appends_ingredientDetailsBlock,
             appends_moreDetailsBlock, appends_ingredientsBlock,
             appends_whyBlock|]).
    unfold claimsBlock. rewrite E. apply fallbackBlock_placed.
  - do 5 (apply fallbackPlaced_appends;
          [auto using appends_emit, appends_groundingBlock,
             appends_suggestionsBlock, appends_ingredientDetailsBlock,
             appends_moreDetailsBlock|]).
    unfold ingredientsBlock. rewrite E. apply fallbackBlock_placed.
  - do 6 (apply fallbackPlaced_appends;
          [auto using appends_emit, appends_groundingBlock,
             appends_suggestionsBlock, appends_ingredientDetailsBlock,
             appends_moreDetailsBlock, appends_ingredientsBlock|]).
    unfold whyBlock. rewrite E. apply fallbackBlock_placed.
Qed.

End ReportFacts.

(* ================================================================== *)
(** ** The report: pagination *)
(* ================================================================== *)

Lemma preserves_id (P : pdf_op -> Prop) : preserves P (fun st => st).
Proof. intros st H; exact H. Qed.

Lemma preserves_advance (P : pdf_op -> Prop) (dy : Q) :
  preserves P (advance dy).
Proof. intros st H; exact H. Qed.

Lemma preserves_emit (P : pdf_op -> Prop) (op : pdf_state -> pdf_op) :
  (forall st, P (op st)) -> preserves P (fun st => emit (op st) st).
Proof.
  intros Hop st H. unfold emit. simpl. apply Forall_app. split; [exact H|].
  constructor; [apply Hop | constructor].
Qed.

Lemma preserves_andThen (P : pdf_op -> Prop) (f g : pdf_state -> pdf_state) :
  preserves P f -> preserves P g -> preserves P (f ;; g)%pdf.
Proof. intros Hf Hg st H. apply Hg, Hf, H. Qed.

Lemma preserves_fold (P : pdf_op -> Prop) (A : Type)
    (f : pdf_state -> A -> pdf_state) (l : list A) :
  (forall a, preserves P (fun st => f st a)) ->
  preserves P (fun st => fold_left f l st).
Proof.
  intros Hf. induction l as [|a l IH]; simpl; intros st H; [exact H|].
  apply IH. apply (Hf a). exact H.
Qed.

Lemma preserves_dep (P : pdf_op -> Prop)
    (g : pdf_state -> pdf_state -> pdf_state) :
  (forall st0, preserves P (g st0)) -> preserves P (fun st => g st st).
Proof. intros H st. apply (H st). Qed.

Ltac preserves_steps :=
  repeat match goal with
         | |- preserves _ (andThen (pageBreakIfNeeded _ _) _) => fail 1
         | |- preserves _ (andThen _ _) => apply preserves_andThen
         | |- preserves ?P (fun st => andThen ?f ?g st) =>
             change (preserves P (andThen f g))
         | |- preserves _ (advance _) => apply preserves_advance
         | |- preserves ?P (emit ?op) =>
             apply (preserves_emit P (fun _ => op)); intros _; exact I
         end.

Section Pagination.

Variables pageWidth pageHeight : Q.
Variable getTextWidth : list pdf_op -> jsstring -> Q.
Variable splitTextToSize : list pdf_op -> jsstring -> Q -> list jsstring.

(** The two outcomes of the check. *)
Lemma pageBreakIfNeeded_cases (need : Q) (st : pdf_state) :
  (pageHeight - margin < y st + need
   /\ pageBreakIfNeeded pageHeight need st
      = {| doc := doc st ++ [AddPage]; y := margin |})
  \/ (y st + need <= pageHeight - margin
      /\ pageBreakIfNeeded pageHeight need st = st).
Proof.
  unfold pageBreakIfNeeded.
  destruct (Qle_bool (y st + need) (pageHeight - margin)) eqn:E; simpl.
  - right. split; [apply Qle_bool_iff, E | reflexivity].
  - left. split; [|reflexivity].
    apply Qnot_le_lt. intros H. apply Qle_bool_iff in H. congruence.
Qed.

(** After the check there is room for what is to be placed. *)
Lemma room_after_check (need : Q) (st : pdf_state) :
  margin + need <= pageHeight - margin ->
  y (pageBreakIfNeeded pageHeight need st) + need <= pageHeight - margin.
Proof.
  intros Hgeo.
  destruct (pageBreakIfNeeded_cases need st) as [[_ ->]|[H ->]];
    [exact Hgeo | exact H].
Qed.

Variable r : ParsedResult.
Hypothesis tall_enough : margin + lineHeight * 2 <= pageHeight - margin.

Local Abbreviation P := (placedWithin pageHeight r).

Lemma preserves_pageBreakIfNeeded (need : Q) :
  preserves P (pageBreakIfNeeded pageHeight need).
Proof.
  intros st H.
  destruct (pageBreakIfNeeded_cases need st) as [[_ ->]|[_ ->]];
    [|exact H].
  simpl. apply Forall_app. split; [exact H|]. repeat constructor.
Qed.

Lemma preserves_unchecked (s : jsstring) (x : pdf_state -> Q) :
  In s (uncheckedTexts r) ->
  preserves P (fun st => emit (Text s (x st) (y st)) st).
Proof.
  intros Hs. apply (preserves_emit P (fun st => Text s (x st) (y st))).
  intros st. right. exact Hs.
Qed.

(** A line placed after the check for [need], which is at least the height
    of a line. *)
Lemma preserves_checked (need : Q) (s : jsstring) (x : Q) :
  lineHeight <= need -> margin + need <= pageHeight - margin ->
  preserves P (pageBreakIfNeeded pageHeight need ;; text s x)%pdf.
Proof.
  intros Hneed Hgeo st H. unfold andThen, text, emit. simpl.
  apply Forall_app. split; [apply preserves_pageBreakIfNeeded, H|].
  constructor; [|constructor]. left.
  pose proof (room_after_check need st Hgeo) as Hroom.
  apply Qle_trans with (2 := Hroom).
  apply Qplus_le_r. exact Hneed.
Qed.

Lemma one_line_fits : margin + lineHeight <= pageHeight - margin.
Proof. unfold margin, lineHeight in *. lra. Qed.

Lemma preserves_bulletItem (entry : jsstring) :
  preserves P (fun st => bulletItem pageHeight st entry).
Proof.
  unfold bulletItem. preserves_steps.
  apply preserves_checked; [apply Qle_refl | apply one_line_fits].
Qed.

Lemma preserves_wrappedLine (x : Q) (line : jsstring) :
  preserves P (fun st => wrappedLine pageHeight x st line).
Proof.
  unfold wrappedLine. preserves_steps.
  apply preserves_checked; [apply Qle_refl | apply one_line_fits].
Qed.

Lemma preserves_wrappedLines (x : Q) (lines : pdf_state -> list jsstring) :
  preserves P (fun st => fold_left (wrappedLine pageHeight x) (lines st) st).
Proof.
  apply (preserves_dep P
           (fun st0 st => fold_left (wrappedLine pageHeight x) (lines st0) st)).
  intros st0. apply preserves_fold. intros line. apply preserves_wrappedLine.
Qed.

Lemma preserves_ingredientItem (item : IngredientDetail) :
  preserves P
    (fun st => ingredientItem pageWidth pageHeight splitTextToSize st item).
Proof.
  unfold ingredientItem. preserves_steps.
  - apply preserves_checked; [|exact tall_enough].
    unfold lineHeight. lra.
  - apply preserves_wrappedLines.
Qed.

Lemma preserves_urlItem (url : GroundingUrl) :
  preserves P (fun st => urlItem pageHeight st url).
Proof.
  intros st H. unfold urlItem, andThen, text, emit, advance. simpl.
  pose proof (room_after_check (lineHeight * 2) st tall_enough) as Hroom.
  rewrite <- !app_assoc. apply Forall_app.
  split; [apply preserves_pageBreakIfNeeded, H|].
  assert (Hhalf : lineHeight / 2 + lineHeight <= lineHeight * 2)
    by (apply Qle_bool_iff; reflexivity).
  constructor; [left; unfold lineHeight in *; lra|].
  constructor; [exact I|].
  constructor; [|constructor; [exact I | constructor]].
  unfold placedWithin. set (half := lineHeight / 2) in *. clearbody half.
  unfold lineHeight in *. lra.
Qed.

Lemma preserves_bulletedBlock (heading : jsstring) (entries : list jsstring) :
  In heading (uncheckedTexts r) ->
  preserves P (bulletedBlock pageHeight heading entries).
Proof.
  intros Hh. unfold bulletedBlock. preserves_steps.
  - apply (preserves_unchecked heading (fun _ => margin) Hh).
  - apply preserves_fold, preserves_bulletItem.
Qed.

Lemma preserves_fallbackBlock (heading label fallback : jsstring) :
  In heading (uncheckedTexts r) -> In fallback (uncheckedTexts r) ->
  preserves P (fallbackBlock getTextWidth heading label fallback).
Proof.
  intros Hh Hf. unfold fallbackBlock. preserves_steps.
  - apply (preserves_unchecked heading (fun _ => margin) Hh).
  - apply (preserves_unchecked fallback
             (fun st => margin + getTextWidth (doc st) label + 2) Hf).
Qed.

Ltac unchecked := unfold uncheckedTexts; simpl; tauto.

Lemma preserves_render : preserves P
  (render pageWidth pageHeight getTextWidth splitTextToSize r).
Proof.
  unfold render. preserves_steps.
  - unfold header. preserves_steps.
    apply (preserves_unchecked (icon r ++ T_TITLE) (fun _ => margin)).
    unchecked.
  - unfold verdictLine. preserves_steps.
    + apply (preserves_unchecked H_OVERALL_VERDICT (fun _ => margin)).
      unchecked.
    + apply (preserves_unchecked (overallVerdict r)
               (fun st => margin
                          + getTextWidth (doc st) (lit "Overall Verdict: "))).
      unchecked.
  - unfold riskLine. preserves_steps.
    + apply (preserves_unchecked H_GREENWASHING_RISK (fun _ => margin)).
      unchecked.
    + apply (preserves_unchecked (greenwashingRisk r)
               (fun st => margin
                          + getTextWidth (doc st) (lit "Greenwashing Risk: "))).
      unchecked.
  - unfold claimsBlock. destruct (claimsFailed r);
      [apply preserves_fallbackBlock | apply preserves_bulletedBlock];
      unchecked.
  - unfold whyBlock. destruct (whyClaimsFailed r);
      [apply preserves_fallbackBlock | apply preserves_bulletedBlock];
      unchecked.
  - unfold ingredientsBlock. destruct (ingredientsToNote r);
      [apply preserves_fallbackBlock | apply preserves_bulletedBlock];
      unchecked.
  - unfold moreDetailsBlock. destruct (truthy (moreDetails r));
      [|apply preserves_id]. preserves_steps.
    + apply (preserves_unchecked H_MORE_DETAILS (fun _ => margin)). unchecked.
    + apply preserves_wrappedLines.
  - unfold ingredientDetailsBlock. destruct (ingredientSpecificDetails r);
      [apply preserves_id|]. preserves_steps.
    + apply (preserves_unchecked H_INGREDIENT_SPECIFIC (fun _ => margin)).
      unchecked.
    + apply preserves_fold, preserves_ingredientItem.
  - unfold suggestionsBlock. destruct (improvementSuggestions r);
      [apply preserves_id | apply preserves_bulletedBlock; unchecked].
  - unfold groundingBlock. destruct (groundingUrls r);
      [apply preserves_id|]. preserves_steps.
    + apply (preserves_unchecked H_SOURCES (fun _ => margin)). unchecked.
    + apply preserves_fold, preserves_urlItem.
Qed.

End Pagination.

(** C5: the code does not do what the claim says.  The check of the
    cursor against the bottom margin stands only in the loops over bulleted
    entries, wrapped lines, ingredient names and citations; the section
    headings, like the title, the verdict and risk lines and the fallback
    strings, are placed at the running cursor without it.  On an A4 page
    (210 x 297 millimetres), whatever the font metrics and the wrapping are,
    the report of thirty-three failed claims fills the first page down to
    y = 279; the heading "Why these claims failed:" is then placed at
    y = 296, below the bottom margin line at 287, and the heading
    "Ingredients to note:" at y = 313, below the end of the page at 297,
    without any check and without a new page: the document has a single
    page. *)
Theorem heading_placed_below_bottom_margin
    (pageWidth : Q) (getTextWidth : list pdf_op -> jsstring -> Q)
    (splitTextToSize : list pdf_op -> jsstring -> Q -> list jsstring) :
  exists ops,
    generatePdfReport pageWidth 297 getTextWidth splitTextToSize
      (Some thirtyThreeClaims) = Some ops
    /\ nth_error ops 47 = Some (Text (BULLET ++ lit "x") (margin + 5) 279)
    /\ nth_error ops 49 = Some (Text H_WHY_FAILED margin 296)
    /\ nth_error ops 53 = Some (Text H_INGREDIENTS_TO_NOTE margin 313)
    /\ 297 - margin < 296
    /\ 297 < 313
    /\ existsb isAddPage ops = false
    /\ ~ noTextBelowBottomMargin 297 ops.
Proof.
  eexists. split; [reflexivity|].
  split; [vm_compute; reflexivity|].
  split; [vm_compute; reflexivity|].
  split; [vm_compute; reflexivity|].
  split; [vm_compute; reflexivity|].
  split; [vm_compute; reflexivity|].
  split; [vm_compute; reflexivity|].
  intros H. unfold noTextBelowBottomMargin in H. rewrite Forall_forall in H.
  specialize (H (Text H_WHY_FAILED margin 296)).
  assert (Hin : In (Text H_WHY_FAILED margin 296)
                  (doc (render pageWidth 297 getTextWidth splitTextToSize
                          thirtyThreeClaims newDocument))).
  { apply (nth_error_In _ 49). vm_compute. reflexivity. }
  apply H in Hin. apply Qle_bool_iff in Hin. vm_compute in Hin. discriminate.
Qed.

(** The same placement results for the page height jsPDF computes from
    points, which is a little more than 297. *)
Lemma heading_below_margin_any_metrics
    (pageWidth : Q) (getTextWidth : list pdf_op -> jsstring -> Q)
    (splitTextToSize : list pdf_op -> jsstring -> Q -> list jsstring) :
  (exists ops,
      generatePdfReport pageWidth 297 getTextWidth splitTextToSize
        (Some thirtyThreeClaims) = Some ops
      /\ nth_error ops 49 = Some (Text H_WHY_FAILED margin 296)
      /\ existsb isAddPage ops = false)
  /\ (exists ops,
         generatePdfReport pageWidth a4HeightFromPoints getTextWidth
           splitTextToSize (Some thirtyThreeClaims) = Some ops
         /\ nth_error ops 49 = Some (Text H_WHY_FAILED margin 296)
         /\ a4HeightFromPoints - margin < 296
         /\ existsb isAddPage ops = false).
Proof.
  split; eexists; (split; [reflexivity|]); repeat split; vm_compute; reflexivity.
Qed.

(** The checks that the function does make: before placing each bulleted
    entry, each wrapped line of
    moreDetails and each line of an explanation (required height: one line),
    and before each ingredient name and each citation (required height: two
    lines), [generatePdfReport] compares the cursor plus the required height
    with the page height minus the margin and, when it is greater, starts a
    new page and resets the cursor to the top margin.  Consequently, on a
    page that has room for two lines between its margins, each of these
    lines is placed at least one line height above the bottom margin.  The
    title, the verdict and risk lines, the section headings and the fallback
    strings are placed at the running cursor without this check. *)
Lemma checked_lines_above_bottom_margin
    (pageWidth pageHeight : Q) (getTextWidth : list pdf_op -> jsstring -> Q)
    (splitTextToSize : list pdf_op -> jsstring -> Q -> list jsstring) :
  (forall need st,
      (pageHeight - margin < y st + need
       /\ pageBreakIfNeeded pageHeight need st
          = {| doc := doc st ++ [AddPage]; y := margin |})
      \/ (y st + need <= pageHeight - margin
          /\ pageBreakIfNeeded pageHeight need st = st))
  /\ (forall st entry,
         bulletItem pageHeight st entry
         = advance lineHeight
             (text (BULLET ++ entry) (margin + 5)
                (pageBreakIfNeeded pageHeight lineHeight st)))
  /\ (forall x st line,
         wrappedLine pageHeight x st line
         = advance lineHeight
             (text line x (pageBreakIfNeeded pageHeight lineHeight st)))
  /\ (forall st item,
         exists more,
           doc (ingredientItem pageWidth pageHeight splitTextToSize st item)
           = doc (text (name item ++ [COLON]) (margin + 5)
                    (pageBreakIfNeeded pageHeight (lineHeight * 2) st))
             ++ more)
  /\ (forall st url,
         exists more,
           doc (urlItem pageHeight st url)
           = doc (text (if truthy (title url) then title url else uri url)
                    (margin + 5)
                    (pageBreakIfNeeded pageHeight (lineHeight * 2) st))
             ++ more)
  /\ (forall r ops,
         margin + lineHeight * 2 <= pageHeight - margin ->
         generatePdfReport pageWidth pageHeight getTextWidth splitTextToSize
           (Some r) = Some ops ->
         Forall (placedWithin pageHeight r) ops).
Proof.
  split; [exact (pageBreakIfNeeded_cases pageHeight)|].
  split; [reflexivity|]. split; [reflexivity|].
  split; [|split].
  - intros st item.
    destruct (appends_andThen _ _
                (appends_wrappedLines pageHeight (margin + 10)
                   (fun st0 => splitTextToSize (doc st0) (explanation item)
                                 (textWidth pageWidth - 10)))
                (appends_advance (lineHeight / 2))
                (advance lineHeight
                   (text (name item ++ [COLON]) (margin + 5)
                      (pageBreakIfNeeded pageHeight (lineHeight * 2) st))))
      as [more E].
    exists more. exact E.
  - intros st url. eexists.
    unfold urlItem, andThen, text, emit, advance. simpl.
    rewrite <- !app_assoc. reflexivity.
  - intros r ops Hgeo H. injection H as <-.
    apply (preserves_render pageWidth pageHeight getTextWidth splitTextToSize
             r Hgeo).
    constructor.
Qed.

Lemma checked_lines_above_bottom_margin_witness :
  exists ops,
    generatePdfReport 210 297 sampleTextWidth sampleSplit
      (Some thirtyThreeClaims) = Some ops
    /\ Forall (placedWithin 297 thirtyThreeClaims) ops.
Proof.
  eexists. split; [reflexivity|].
  apply (proj2 (proj2 (proj2 (proj2 (proj2
           (checked_lines_above_bottom_margin 210 297
              sampleTextWidth sampleSplit)))))).
  - apply Qle_bool_iff. reflexivity.
  - reflexivity.
Defined.

Lemma empty_lists_place_fallbacks_witness :
  exists ops,
    generatePdfReport 210 297 sampleTextWidth sampleSplit (Some empty_result)
    = Some ops
    /\ fallbackPlaced sampleTextWidth H_CLAIMS_FAILED
         (lit "Claims that failed to meet expectations: ") (lit "None") ops
    /\ fallbackPlaced sampleTextWidth H_INGREDIENTS_TO_NOTE
         (lit "Ingredients to note: ") (lit "None") ops
    /\ fallbackPlaced sampleTextWidth H_WHY_FAILED
         (lit "Why these claims failed: ")
         (lit "All claims appear reasonable or are well-supported by ingredients.")
         ops.
Proof.
  eexists. split; [reflexivity|].
  pose proof (empty_lists_place_fallbacks 210 297 sampleTextWidth sampleSplit
                empty_result _ eq_refl) as (H1 & H2 & H3).
  split; [apply H1; reflexivity|].
  split; [apply H2; reflexivity | apply H3; reflexivity].
Defined.

(* ================================================================== *)
(** ** More on trimming and splitting *)
(* ================================================================== *)

Lemma trimStart_app_ws (ws s : jsstring) :
  whitespaceOnly ws = true -> trimStart (ws ++ s) = trimStart s.
Proof.
  induction ws as [|c ws IH]; simpl; [reflexivity|].
  intros H. apply andb_true_iff in H as [Hc Hws]. rewrite Hc. auto.
Qed.

Lemma trimStart_nil_ws (s : jsstring) :
  trimStart s = [] -> whitespaceOnly s = true.
Proof.
  intros H. destruct (trimStart_suffix s) as [ws [E W]].
  rewrite H, app_nil_r in E. rewrite E. exact W.
Qed.

Lemma trimStart_app_keep (s t : jsstring) :
  trimStart s <> [] -> trimStart (s ++ t) = trimStart s ++ t.
Proof.
  induction s as [|c s IH]; simpl; [congruence|].
  destruct (isWhiteSpace c); auto.
Qed.

Lemma trimEnd_app_ws (s ws : jsstring) :
  whitespaceOnly ws = true -> trimEnd (s ++ ws) = trimEnd s.
Proof.
  intros H. unfold trimEnd. rewrite rev_app_distr, trimStart_app_ws;
    [reflexivity | rewrite whitespaceOnly_rev; exact H].
Qed.

Lemma whitespaceOnly_app (s t : jsstring) :
  whitespaceOnly (s ++ t) = whitespaceOnly s && whitespaceOnly t.
Proof. apply forallb_app. Qed.

(** White space before a string does not change its trimmed value. *)
Lemma trim_app_ws_l (ws s : jsstring) :
  whitespaceOnly ws = true -> trim (ws ++ s) = trim s.
Proof.
  intros H. unfold trim. rewrite trimStart_app_ws by exact H. reflexivity.
Qed.

(** Nor does white space after it. *)
Lemma trim_app_ws_r (s ws : jsstring) :
  whitespaceOnly ws = true -> trim (s ++ ws) = trim s.
Proof.
  intros H. destruct (trimStart s) as [|c x] eqn:E.
  - apply trimStart_nil_ws in E.
    rewrite !trim_whitespaceOnly; auto.
    rewrite whitespaceOnly_app, E, H. reflexivity.
  - unfold trim. rewrite trimStart_app_keep by (rewrite E; discriminate).
    rewrite trimEnd_app_ws by exact H. reflexivity.
Qed.

Lemma trimStart_idem (s : jsstring) : trimStart (trimStart s) = trimStart s.
Proof.
  induction s as [|c s IH]; simpl; [reflexivity|].
  destruct (isWhiteSpace c) eqn:E; [exact IH|]. simpl. rewrite E. reflexivity.
Qed.

(** [trim] is idempotent: a trimmed value has no white space at its ends. *)
Lemma trim_idem (s : jsstring) : trim (trim s) = trim s.
Proof.
  set (x := trimStart s).
  assert (Hx : trimStart x = x) by apply trimStart_idem.
  assert (Hend : trimEnd (trimEnd x) = trimEnd x).
  { unfold trimEnd. rewrite rev_involutive, trimStart_idem. reflexivity. }
  assert (Hstart : trimStart (trimEnd x) = trimEnd x).
  { destruct (trimStart_suffix (rev x)) as [ws [Ews Wws]].
    assert (Ex : x = trimEnd x ++ rev ws).
    { unfold trimEnd. rewrite <- rev_app_distr, <- Ews, rev_involutive.
      reflexivity. }
    destruct (trimEnd x) as [|c y] eqn:Ey; [reflexivity|].
    simpl. destruct (isWhiteSpace c) eqn:Ec; [|reflexivity].
    exfalso. rewrite Ex in Hx. simpl in Hx. rewrite Ec in Hx.
    destruct (trimStart_suffix (y ++ rev ws)) as [w2 [E2 _]].
    apply (f_equal (@List.length _)) in E2. rewrite Hx in E2.
    rewrite !length_app in E2. cbn [List.length] in E2.
    rewrite length_app in E2. lia. }
  change (trim s) with (trimEnd x). unfold trim at 1.
  rewrite Hstart. exact Hend.
Qed.

Lemma trimmed_trim (s : jsstring) : trimmed (trim s).
Proof. apply trim_idem. Qed.

(** [split] over a concatenation: the last piece of the first string and the
    first piece of the second are one piece. *)
Lemma split_app (x y0 : jsstring) (sep : char16) :
  split (x ++ y0) sep
  = removelast (split x sep)
    ++ [last (split x sep) [] ++ hd [] (split y0 sep)]
    ++ tl (split y0 sep).
Proof.
  induction x as [|c x IH]; simpl.
  - destruct (split y0 sep) as [|h t] eqn:E; [|reflexivity].
    exfalso. exact (split_nonempty y0 sep E).
  - destruct (c =? sep)%N.
    + rewrite IH. destruct (split x sep) as [|l ls] eqn:E;
        [exfalso; exact (split_nonempty x sep E)|]. reflexivity.
    + rewrite IH. destruct (split x sep) as [|l ls] eqn:E;
        [exfalso; exact (split_nonempty x sep E)|].
      destruct ls as [|l' ls']; reflexivity.
Qed.

(** The first piece of [split] holds no separator. *)
Lemma split_hd_no_sep (s : jsstring) (sep : char16) :
  ~ In sep (hd [] (split s sep)).
Proof.
  induction s as [|c s IH]; simpl; [tauto|].
  destruct (c =? sep)%N eqn:E; simpl; [tauto|].
  destruct (split s sep) as [|l ls]; simpl in *.
  - intros [H|[]]. subst. rewrite N.eqb_refl in E. discriminate.
  - intros [H|H]; [subst; rewrite N.eqb_refl in E; discriminate | tauto].
Qed.

Lemma startsWith_cons (c a : char16) (s p : jsstring) :
  startsWith (c :: s) (a :: p) = (a =? c)%N && startsWith s p.
Proof. reflexivity. Qed.

(** A prefix without separator is a prefix of the first piece. *)
Lemma split_hd_startsWith (s p : jsstring) (sep : char16) :
  ~ In sep p -> startsWith s p = true ->
  startsWith (hd [] (split s sep)) p = true.
Proof.
  revert s; induction p as [|a p IH]; intros s Hsep H; [reflexivity|].
  destruct s as [|c s]; [discriminate|].
  cbn [startsWith] in H. apply andb_true_iff in H as [Hac Hp].
  apply N.eqb_eq in Hac. subst c. simpl.
  destruct (a =? sep)%N eqn:E.
  - apply N.eqb_eq in E. subst. exfalso. apply Hsep. left; reflexivity.
  - assert (IH' : startsWith (hd [] (split s sep)) p = true).
    { apply IH; [|exact Hp]. intros Hin. apply Hsep. right; exact Hin. }
    destruct (split s sep) as [|l ls]; cbn [hd] in *.
    + destruct p; [|discriminate]. rewrite startsWith_cons, N.eqb_refl.
      reflexivity.
    + rewrite startsWith_cons, N.eqb_refl. exact IH'.
Qed.

(* ================================================================== *)
(** ** What the parser stores *)
(* ================================================================== *)

Lemma append_to_last_names (Q : jsstring -> Prop) (ds : list IngredientDetail)
    (text : jsstring) :
  Forall (fun d => Q (name d)) ds ->
  Forall (fun d => Q (name d)) (append_to_last ds text).
Proof.
  induction ds as [|d ds IH]; intros H; [constructor|].
  inversion H as [|? ? Hd Hds]; subst. simpl.
  destruct ds as [|d' ds']; [repeat constructor; exact Hd|].
  constructor; [exact Hd | apply IH, Hds].
Qed.

Lemma Forall_snoc (A : Type) (P : A -> Prop) (l : list A) (a : A) :
  Forall P l -> P a -> Forall P (l ++ [a]).
Proof. intros Hl Ha. apply Forall_app. split; [exact Hl | repeat constructor; exact Ha]. Qed.

Lemma section_body_storedTrimmed (st : scan_state) (line : jsstring) :
  storedTrimmed (result st) -> storedTrimmed (result (section_body st line)).
Proof.
  intros H. pose proof H as (H1 & H2 & H3 & H4 & H5 & H6 & H7).
  unfold section_body.
  destruct (currentSection st) as [k|]; [|exact H].
  destruct k; try exact H.
  - destruct (startsWith line BULLET); [|exact H].
    unfold storedTrimmed; simpl. repeat split; try assumption.
    apply Forall_snoc; [assumption | apply trimmed_trim].
  - destruct (startsWith line BULLET); [|exact H].
    unfold storedTrimmed; simpl. repeat split; try assumption.
    apply Forall_snoc; [assumption | apply trimmed_trim].
  - destruct (startsWith line BULLET); [|exact H].
    unfold storedTrimmed; simpl. repeat split; try assumption.
    apply Forall_snoc; [assumption | apply trimmed_trim].
  - destruct (truthy line); [|exact H].
    unfold storedTrimmed; simpl. repeat split; assumption.
  - destruct (endsWith line [COLON]).
    + destruct (truthy (trim (slice line 0 (-1)))) eqn:E; [|exact H].
      unfold storedTrimmed; simpl. repeat split; try assumption.
      apply Forall_snoc; [assumption|]. simpl.
      split; [apply trimmed_trim | apply truthy_true, E].
    + destruct (truthy (ingredientDetailName st) && truthy line); [|exact H].
      unfold storedTrimmed; simpl. repeat split; try assumption.
      apply (append_to_last_names (fun n => trimmed n /\ n <> [])). exact H7.
  - destruct (startsWith line BULLET); [|exact H].
    unfold storedTrimmed; simpl. repeat split; try assumption.
    apply Forall_snoc; [assumption | apply trimmed_trim].
Qed.

Lemma line_step_storedTrimmed (st : scan_state) (line : jsstring) :
  storedTrimmed (result st) -> storedTrimmed (result (line_step st line)).
Proof.
  intros H. unfold line_step, section_line.
  repeat match goal with
         | |- context [if startsWithIcon ?l then _ else _] =>
             destruct (startsWithIcon l); [exact H|]
         | |- context [if startsWith ?l ?p then _ else _] =>
             destruct (startsWith l p); [exact H|]
         end.
  apply section_body_storedTrimmed, H.
Qed.

Lemma scan_storedTrimmed (lines : list jsstring) (st : scan_state) :
  scan lines initial_state = Normal st -> storedTrimmed (result st).
Proof.
  apply (scan_invariant (fun st => storedTrimmed (result st))).
  - exact line_step_storedTrimmed.
  - intros st0 next (H1 & H2 & H). unfold storedTrimmed. simpl.
    split; [apply trimmed_trim | split; assumption].
  - intros st0 next (H1 & H2 & H). unfold storedTrimmed. simpl.
    split; [assumption | split; [apply trimmed_trim | assumption]].
  - unfold storedTrimmed. simpl. repeat split; constructor.
Qed.

(** X2: no string of a returned record (the icon apart) has white space at
    either end: the verdict, the risk, every entry of the four lists, the
    free text, and the name and explanation of every ingredient entry are
    equal to their own trimmed value. *)
Theorem parsed_strings_are_trimmed (rawText : jsstring) (r : ParsedResult) :
  parseSustainabilityResult rawText = Normal (Some r) ->
  trimmed (overallVerdict r) /\ trimmed (greenwashingRisk r)
  /\ Forall trimmed (claimsFailed r) /\ Forall trimmed (whyClaimsFailed r)
  /\ Forall trimmed (ingredientsToNote r)
  /\ Forall trimmed (improvementSuggestions r)
  /\ trimmed (moreDetails r)
  /\ Forall (fun d => trimmed (name d) /\ trimmed (explanation d))
       (ingredientSpecificDetails r).
Proof.
  intros H. apply parse_record in H as [st [Hscan ->]].
  pose proof (scan_storedTrimmed _ _ Hscan) as (H1 & H2 & H3 & H4 & H5 & H6 & H7).
  destruct (cleanup_fields (result st))
    as (_ & -> & -> & -> & -> & -> & -> & -> & -> & _).
  repeat split; try assumption; [apply trimmed_trim|].
  apply Forall_map. apply Forall_impl with (2 := H7).
  intros d [Hn _]. simpl. split; [exact Hn | apply trimmed_trim].
Qed.

Lemma parsed_strings_are_trimmed_witness :
  trimmed (lit "Low Greenwashing Risk") /\ trimmed []
  /\ Forall trimmed [] /\ Forall trimmed []
  /\ Forall trimmed [] /\ Forall trimmed []
  /\ trimmed []
  /\ Forall (fun d => trimmed (name d) /\ trimmed (explanation d)) [].
Proof.
  apply (parsed_strings_are_trimmed
           (lit "  Overall Verdict:" ++ [LF] ++ lit "  Low Greenwashing Risk  ")
           (set_overallVerdict empty_result (lit "Low Greenwashing Risk"))).
  vm_compute. reflexivity.
Defined.

(** X3: every ingredient entry of a returned record has a non-empty name: a
    line ":" (or white space and ':') never creates an entry. *)
Theorem parsed_ingredient_names_nonempty
    (rawText : jsstring) (r : ParsedResult) :
  parseSustainabilityResult rawText = Normal (Some r) ->
  Forall (fun d => name d <> []) (ingredientSpecificDetails r).
Proof.
  intros H. apply parse_record in H as [st [Hscan ->]].
  pose proof (scan_storedTrimmed _ _ Hscan) as (_ & _ & _ & _ & _ & _ & H7).
  destruct (cleanup_fields (result st)) as (_ & _ & _ & _ & _ & _ & _ & -> & _).
  apply Forall_map. apply Forall_impl with (2 := H7).
  intros d [_ Hn]. exact Hn.
Qed.

Lemma parsed_ingredient_names_nonempty_witness :
  Forall (fun d => name d <> [])
    [{| name := lit "Paraben"; explanation := [] |}].
Proof.
  apply (parsed_ingredient_names_nonempty
           (lit "Ingredient-specific details:" ++ [LF] ++ lit " : " ++ [LF]
            ++ lit "Paraben:")
           (set_ingredientSpecificDetails empty_result
              [{| name := lit "Paraben"; explanation := [] |}])).
  vm_compute. reflexivity.
Defined.

Lemma startsWithIcon_token (line : jsstring) :
  startsWithIcon line = true -> iconToken (hd [] (split line SP)).
Proof.
  intros H. right. split; [|apply split_hd_no_sep].
  unfold startsWithIcon in *.
  apply orb_true_iff in H as [H|H]; [apply orb_true_iff in H as [H|H]|].
  - rewrite (split_hd_startsWith line ICON_CROSS SP); [reflexivity| |exact H].
    vm_compute. intros [E|[]]. discriminate.
  - rewrite (split_hd_startsWith line ICON_ORANGE SP);
      [rewrite orb_true_r; reflexivity| |exact H].
    vm_compute. intros [E|[E|[]]]; discriminate.
  - rewrite (split_hd_startsWith line ICON_CHECK SP);
      [apply orb_true_r| |exact H].
    vm_compute. intros [E|[]]. discriminate.
Qed.

Lemma line_step_icon (st : scan_state) (line : jsstring) :
  iconToken (icon (result st)) -> iconToken (icon (result (line_step st line))).
Proof.
  intros H. unfold line_step.
  destruct (startsWithIcon line) eqn:E.
  - simpl. apply startsWithIcon_token, E.
  - replace (icon (result (section_line st line))) with (icon (result st));
      [exact H|].
    clear. step_cases st; reflexivity.
Qed.

(** X4: the icon of a returned record is the empty string or a token that
    starts with one of the three glyphs and contains no space. *)
Theorem parsed_icon_is_token (rawText : jsstring) (r : ParsedResult) :
  parseSustainabilityResult rawText = Normal (Some r) ->
  icon r = [] \/ (startsWithIcon (icon r) = true /\ ~ In SP (icon r)).
Proof.
  intros H. apply parse_record in H as [st [Hscan ->]].
  destruct (cleanup_fields (result st)) as (-> & _).
  apply (scan_invariant (fun st => iconToken (icon (result st))))
    with (lines := split rawText LF) (st := initial_state); auto.
  - exact line_step_icon.
  - left. reflexivity.
Qed.

Lemma parsed_icon_is_token_witness :
  ICON_ORANGE = []
  \/ (startsWithIcon ICON_ORANGE = true /\ ~ In SP ICON_ORANGE).
Proof.
  apply (parsed_icon_is_token
           (lit "  " ++ ICON_ORANGE ++ lit " Medium Greenwashing Risk")
           (set_icon empty_result ICON_ORANGE)).
  vm_compute. reflexivity.
Defined.

(* ================================================================== *)
(** ** Lines outside a section, and blank lines *)
(* ================================================================== *)

Lemma scan_plain_no_section (body rest : list jsstring) (st : scan_state) :
  currentSection st = None ->
  Forall (fun raw => plainLine (trim raw) = true) body ->
  scan (body ++ rest) st = scan rest st.
Proof.
  intros Hc Hbody. induction Hbody as [|raw body Hraw _ IH]; [reflexivity|].
  simpl app. rewrite (scan_plain _ _ _ Hraw).
  unfold section_body. rewrite Hc. exact IH.
Qed.

(** X5: a single-value header closes the open section.  After the line of
    "Overall Verdict:" or "Greenwashing Risk:" and the line of its value, the
    lines that are neither icon lines nor headers are dropped, whatever
    section was open before: they change no field.  The same holds of such
    lines at the very start of the input. *)
Theorem value_header_closes_section
    (hdr next : jsstring) (body rest : list jsstring) (st : scan_state) :
  consumesNext (trim hdr) = true ->
  Forall (fun raw => plainLine (trim raw) = true) body ->
  (exists st1,
      scan (hdr :: next :: body ++ rest) st = scan rest st1
      /\ currentSection st1 = None
      /\ (st1 = set_verdict st next \/ st1 = set_risk st next))
  /\ scan (body ++ rest) initial_state = scan rest initial_state.
Proof.
  intros Hh Hbody. split.
  - unfold consumesNext in Hh. apply orb_true_iff in Hh as [Hh|Hh].
    + exists (set_verdict st next). rewrite scan_verdict by exact Hh.
      rewrite scan_plain_no_section by (reflexivity || exact Hbody). auto.
    + exists (set_risk st next). rewrite scan_risk by exact Hh.
      rewrite scan_plain_no_section by (reflexivity || exact Hbody). auto.
  - apply scan_plain_no_section; [reflexivity | exact Hbody].
Qed.

Lemma value_header_closes_section_witness :
  (exists st1,
      scan (lit "Overall Verdict:" :: lit "Low Greenwashing Risk"
            :: [lit "- Claim B"] ++ [])
           (with_section initial_state (Some KclaimsFailed))
      = scan [] st1
      /\ currentSection st1 = None
      /\ (st1 = set_verdict (with_section initial_state (Some KclaimsFailed))
                  (lit "Low Greenwashing Risk")
          \/ st1 = set_risk (with_section initial_state (Some KclaimsFailed))
                     (lit "Low Greenwashing Risk")))
  /\ scan ([lit "- Claim B"] ++ []) initial_state = scan [] initial_state.
Proof.
  apply (value_header_closes_section (lit "Overall Verdict:")
           (lit "Low Greenwashing Risk") [lit "- Claim B"] []
           (with_section initial_state (Some KclaimsFailed)));
    [reflexivity | repeat constructor].
Defined.

(** X6: a line of white space is ignored wherever the scan reads it as a
    line of its own: adding one after lines the scan has read completely
    changes nothing.  Only right after a single-value header is it read, as
    the (empty) value of that header. *)
Theorem blank_line_is_ignored
    (l1 l2 : list jsstring) (blank : jsstring) (st st1 : scan_state) :
  scan l1 st = Normal st1 ->
  whitespaceOnly blank = true ->
  scan (l1 ++ blank :: l2) st = scan (l1 ++ l2) st
  /\ scan (H_OVERALL_VERDICT :: blank :: l2) st1
     = scan l2 (with_section
                  (with_result st1 (set_overallVerdict (result st1) [])) None).
Proof.
  intros H1 Hb. split.
  - rewrite (scan_app l1 (blank :: l2) _ _ H1), (scan_app l1 l2 _ _ H1).
    rewrite scan_nonconsuming; rewrite (trim_whitespaceOnly blank Hb);
      [|reflexivity].
    rewrite line_step_blank. reflexivity.
  - rewrite scan_verdict by reflexivity. unfold set_verdict.
    rewrite (trim_whitespaceOnly blank Hb). reflexivity.
Qed.

Lemma blank_line_is_ignored_witness :
  scan ([lit "More details:"; lit "First."] ++ lit "   " :: [lit "Second."])
       initial_state
  = scan ([lit "More details:"; lit "First."] ++ [lit "Second."]) initial_state
  /\ scan (H_OVERALL_VERDICT :: lit "   " :: [lit "Second."])
          (with_result (with_section initial_state (Some KmoreDetails))
             (set_moreDetails empty_result (lit "First." ++ [LF])))
     = scan [lit "Second."]
         (with_section
            (with_result
               (with_result (with_section initial_state (Some KmoreDetails))
                  (set_moreDetails empty_result (lit "First." ++ [LF])))
               (set_overallVerdict
                  (result
                     (with_result (with_section initial_state (Some KmoreDetails))
                        (set_moreDetails empty_result (lit "First." ++ [LF]))))
                  [])) None).
Proof.
  apply (blank_line_is_ignored [lit "More details:"; lit "First."]
           [lit "Second."] (lit "   ") initial_state
           (with_result (with_section initial_state (Some KmoreDetails))
              (set_moreDetails empty_result (lit "First." ++ [LF]))));
    vm_compute; reflexivity.
Defined.

(* ================================================================== *)
(** ** Parsing a trimmed response *)
(* ================================================================== *)

Lemma set_verdict_trim (st : scan_state) (next : jsstring) :
  set_verdict st (trim next) = set_verdict st next.
Proof. unfold set_verdict. rewrite trim_idem. reflexivity. Qed.

Lemma set_risk_trim (st : scan_state) (next : jsstring) :
  set_risk st (trim next) = set_risk st next.
Proof. unfold set_risk. rewrite trim_idem. reflexivity. Qed.

(** The scan reads its lines through [trim] only. *)
Lemma scan_map_trim (lines : list jsstring) :
  forall st, scan (map trim lines) st = scan lines st.
Proof.
  induction lines as [|a|a b l IH1 IH2] using list_ind2; intros st.
  - reflexivity.
  - cbn [map]. rewrite !scan_cons, trim_idem. reflexivity.
  - cbn [map]. rewrite (scan_cons (trim a)), (scan_cons a), trim_idem.
    change (trim b :: map trim l) with (map trim (b :: l)).
    rewrite IH2. cbn [map]. rewrite !IH1, set_verdict_trim, set_risk_trim.
    reflexivity.
Qed.

Lemma Forall_removelast (A : Type) (P : A -> Prop) (l : list A) :
  Forall P l -> Forall P (removelast l).
Proof.
  induction 1 as [|a l Ha Hl IH]; [constructor|].
  simpl. destruct l; [constructor|]. constructor; assumption.
Qed.

Lemma Forall_tl (A : Type) (P : A -> Prop) (l : list A) :
  Forall P l -> Forall P (tl l).
Proof. intros H. destruct H; [constructor | assumption]. Qed.

Lemma map_trim_blank (l : list jsstring) :
  Forall (fun s => whitespaceOnly s = true) l ->
  Forall (fun s => whitespaceOnly s = true) (map trim l).
Proof.
  intros H. apply Forall_map. apply Forall_impl with (2 := H).
  intros s Hs. rewrite (trim_whitespaceOnly s Hs). reflexivity.
Qed.

(** The lines of a text with white space before it: blank lines, then the
    lines of the text, up to trimming. *)
Lemma split_ws_before (a x : jsstring) :
  whitespaceOnly a = true ->
  exists blanks,
    Forall (fun s => whitespaceOnly s = true) blanks
    /\ map trim (split (a ++ x) LF) = blanks ++ map trim (split x LF).
Proof.
  intros Ha. pose proof (split_whitespaceOnly a LF Ha) as Hsa.
  exists (map trim (removelast (split a LF))). split.
  - apply map_trim_blank, Forall_removelast, Hsa.
  - rewrite split_app, !map_app. f_equal. cbn [map app].
    rewrite trim_app_ws_l
      by (apply (last_Forall _ (fun s => whitespaceOnly s = true));
          [exact Hsa | reflexivity]).
    destruct (split x LF) as [|h t] eqn:E;
      [exfalso; exact (split_nonempty x LF E) | reflexivity].
Qed.

(** And with white space after it. *)
Lemma split_ws_after (x b : jsstring) :
  whitespaceOnly b = true ->
  exists blanks,
    Forall (fun s => whitespaceOnly s = true) blanks
    /\ map trim (split (x ++ b) LF) = map trim (split x LF) ++ blanks.
Proof.
  intros Hb. pose proof (split_whitespaceOnly b LF Hb) as Hsb.
  exists (map trim (tl (split b LF))). split.
  - apply map_trim_blank, Forall_tl, Hsb.
  - rewrite split_app, !map_app. cbn [map app].
    rewrite trim_app_ws_r
      by (destruct Hsb; [reflexivity | assumption]).
    replace (map trim (split x LF))
      with (map trim (removelast (split x LF)) ++ [trim (last (split x LF) [])]).
    + rewrite <- app_assoc. reflexivity.
    + change [trim (last (split x LF) [])]
        with (map trim [last (split x LF) []]).
      rewrite <- map_app, <- app_removelast_last by apply split_nonempty.
      reflexivity.
Qed.

(** X1: trimming a response before parsing it (as [checkSustainability] does
    with the text it returns) never changes a record: whenever the trimmed
    text parses to a record, the text itself parses to the same record.
    The converse does not hold: the newline after a last-line header, or the
    white space of a blank text, is lost by trimming. *)
Theorem parse_of_trimmed_text (rawText : jsstring) (r : ParsedResult) :
  parseSustainabilityResult (trim rawText) = Normal (Some r) ->
  parseSustainabilityResult rawText = Normal (Some r).
Proof.
  intros H.
  assert (Hirr : irrelevant (trim rawText) = false).
  { unfold parseSustainabilityResult in H.
    destruct (irrelevant (trim rawText)); [discriminate | reflexivity]. }
  apply parse_record in H as [st [Hscan ->]].
  assert (Hirr' : irrelevant rawText = false).
  { apply irrelevant_false.
    - intros ->. discriminate.
    - intros E. rewrite <- trim_idem in E.
      assert (Hs : irrelevant (trim rawText) = true)
        by (apply irrelevant_spec; right; exact E).
      congruence. }
  rewrite (parse_relevant _ Hirr').
  destruct (trim_decompose rawText) as [a [b [E [Wa Wb]]]].
  destruct (split_ws_before a (trim rawText ++ b) Wa) as [bl1 [Hbl1 E1]].
  destruct (split_ws_after (trim rawText) b Wb) as [bl2 [Hbl2 E2]].
  rewrite <- scan_map_trim. rewrite E at 1. rewrite E1, E2.
  rewrite (scan_app bl1 _ _ _ (scan_blank_lines bl1 initial_state Hbl1)).
  rewrite <- scan_map_trim in Hscan.
  rewrite (scan_app _ bl2 _ _ Hscan).
  rewrite (scan_blank_lines bl2 st Hbl2). reflexivity.
Qed.

Lemma parse_of_trimmed_text_witness :
  parseSustainabilityResult
    ([LF; SP] ++ lit "Overall Verdict:" ++ [LF] ++ lit "High" ++ [LF; LF])
  = Normal (Some (set_overallVerdict empty_result (lit "High")))
  /\ parseSustainabilityResult (lit "Overall Verdict:" ++ [LF])
     = Normal (Some empty_result)
  /\ parseSustainabilityResult (trim (lit "Overall Verdict:" ++ [LF]))
     = Throw TypeError.
Proof.
  split; [|split; vm_compute; reflexivity].
  apply parse_of_trimmed_text. vm_compute. reflexivity.
Defined.

(* ================================================================== *)
(** ** The report: pages and saving *)
(* ================================================================== *)

Lemma chunked_app (l1 l2 : list pdf_op) :
  chunked l1 -> chunked l2 -> chunked (l1 ++ l2).
Proof.
  intros H1 H2. induction H1; simpl; [exact H2| |];
    constructor; assumption.
Qed.

Lemma chunked_no_save (l : list pdf_op) : chunked l -> existsb isSave l = false.
Proof.
  induction 1 as [|op ops _ Hs _ IH|s x ops _ IH]; simpl; [reflexivity| |exact IH].
  rewrite Hs. exact IH.
Qed.

(** In such calls, followed by calls without [addPage], every [addPage] is
    followed at once by a text at the top margin. *)
Lemma chunked_pages (l : list pdf_op) :
  chunked l ->
  forall t pre post,
    existsb isAddPage t = false ->
    l ++ t = pre ++ AddPage :: post ->
    exists s x post', post = Text s x margin :: post'.
Proof.
  induction 1 as [|op ops Ha _ _ IH|s x ops _ IH]; intros t pre post Ht E.
  - simpl in E. exfalso.
    assert (H : existsb isAddPage (pre ++ AddPage :: post) = true).
    { rewrite existsb_app. simpl. apply orb_true_r. }
    rewrite <- E in H. congruence.
  - destruct pre as [|p pre]; simpl in E; injection E as E1 E2.
    + subst op. discriminate.
    + eapply IH; eassumption.
  - destruct pre as [|p pre]; simpl in E.
    + injection E as E1. subst post. eauto.
    + injection E as _ E2.
      destruct pre as [|p' pre]; simpl in E2; [discriminate|].
      injection E2 as _ E3. eapply IH; eassumption.
Qed.

Lemma emits_id : emits (fun st => st).
Proof. intros st. exists []. split; [symmetry; apply app_nil_r | constructor]. Qed.

Lemma emits_advance (dy : Q) : emits (advance dy).
Proof. intros st. exists []. split; [symmetry; apply app_nil_r | constructor]. Qed.

Lemma emits_emit (op : pdf_state -> pdf_op) :
  (forall st, isAddPage (op st) = false /\ isSave (op st) = false) ->
  emits (fun st => emit (op st) st).
Proof.
  intros H st. exists [op st]. split; [reflexivity|].
  destruct (H st). constructor; [assumption | assumption | constructor].
Qed.

Lemma emits_andThen (f g : pdf_state -> pdf_state) :
  emits f -> emits g -> emits (f ;; g)%pdf.
Proof.
  intros Hf Hg st. unfold andThen.
  destruct (Hf st) as [o1 [E1 C1]]. destruct (Hg (f st)) as [o2 [E2 C2]].
  exists (o1 ++ o2). split; [|apply chunked_app; assumption].
  rewrite E2, E1. symmetry. apply app_assoc.
Qed.

Lemma emits_fold (A : Type) (f : pdf_state -> A -> pdf_state) (l : list A) :
  (forall a, emits (fun st => f st a)) -> emits (fun st => fold_left f l st).
Proof.
  intros Hf. induction l as [|a l IH]; simpl; [apply emits_id|].
  intros st. destruct (Hf a st) as [o1 [E1 C1]].
  destruct (IH (f st a)) as [o2 [E2 C2]].
  exists (o1 ++ o2). split; [|apply chunked_app; assumption].
  rewrite E2, E1. symmetry. apply app_assoc.
Qed.

Lemma emits_dep (g : pdf_state -> pdf_state -> pdf_state) :
  (forall st0, emits (g st0)) -> emits (fun st => g st st).
Proof. intros H st. apply (H st). Qed.

(** The check, then the text: a text, or a new page and a text at the top
    margin. *)
Lemma emits_checked (pageHeight need : Q) (s : jsstring) (x : Q) :
  emits (pageBreakIfNeeded pageHeight need ;; text s x)%pdf.
Proof.
  intros st. unfold andThen, text, emit.
  destruct (pageBreakIfNeeded_cases pageHeight need st) as [[_ ->]|[_ ->]]; simpl.
  - exists [AddPage; Text s x margin]. split.
    + rewrite <- app_assoc. reflexivity.
    + apply chunked_page. constructor.
  - exists [Text s x (y st)]. split; [reflexivity|].
    apply chunked_op; [reflexivity | reflexivity | constructor].
Qed.

Ltac emits_steps :=
  repeat match goal with
         | |- emits (andThen (pageBreakIfNeeded _ _) (text _ _)) =>
             apply emits_checked
         | |- emits (andThen _ _) => apply emits_andThen
         | |- emits (fun st => andThen ?f ?g st) => change (emits (andThen f g))
         | |- emits (advance _) => apply emits_advance
         | |- emits (emit ?op) =>
             change (emits (fun st => emit op st));
             apply (emits_emit (fun _ => op)); intros ?; split; reflexivity
         | |- emits (text ?s ?x) =>
             change (emits (fun st => emit (Text s x (y st)) st));
             apply (emits_emit (fun st => Text s x (y st)));
             intros ?; split; reflexivity
         end.

Section ReportPages.

Variables pageWidth pageHeight : Q.
Variable getTextWidth : list pdf_op -> jsstring -> Q.
Variable splitTextToSize : list pdf_op -> jsstring -> Q -> list jsstring.

Lemma emits_wrappedLines (x : Q) (lines : pdf_state -> list jsstring) :
  emits (fun st => fold_left (wrappedLine pageHeight x) (lines st) st).
Proof.
  apply (emits_dep
           (fun st0 st => fold_left (wrappedLine pageHeight x) (lines st0) st)).
  intros st0. apply emits_fold. intros line. unfold wrappedLine. emits_steps.
Qed.

Lemma emits_bulletedBlock (heading : jsstring) (entries : list jsstring) :
  emits (bulletedBlock pageHeight heading entries).
Proof.
  unfold bulletedBlock. emits_steps.
  apply emits_fold. intros entry. unfold bulletItem. emits_steps.
Qed.

Lemma emits_fallbackBlock (heading label fallback : jsstring) :
  emits (fallbackBlock getTextWidth heading label fallback).
Proof.
  unfold fallbackBlock. emits_steps.
  unfold textAfterLabel.
  apply (emits_emit
           (fun st => Text fallback (margin + getTextWidth (doc st) label + 2)
                        (y st))).
  intros ?. split; reflexivity.
Qed.

Lemma emits_render (r : ParsedResult) :
  emits (header r ;; verdictLine getTextWidth r ;; riskLine getTextWidth r
         ;; claimsBlock pageHeight getTextWidth r
         ;; whyBlock pageHeight getTextWidth r
         ;; ingredientsBlock pageHeight getTextWidth r
         ;; moreDetailsBlock pageWidth pageHeight splitTextToSize r
         ;; ingredientDetailsBlock pageWidth pageHeight splitTextToSize r
         ;; suggestionsBlock pageHeight r ;; groundingBlock pageHeight r)%pdf.
Proof.
  emits_steps.
  - unfold header. emits_steps.
  - unfold verdictLine. emits_steps.
    apply (emits_emit
             (fun st => Text (overallVerdict r)
                          (margin + getTextWidth (doc st) (lit "Overall Verdict: "))
                          (y st))).
    intros ?. split; reflexivity.
  - unfold riskLine. emits_steps.
    apply (emits_emit
             (fun st => Text (greenwashingRisk r)
                          (margin
                           + getTextWidth (doc st) (lit "Greenwashing Risk: "))
                          (y st))).
    intros ?. split; reflexivity.
  - unfold claimsBlock. destruct (claimsFailed r);
      [apply emits_fallbackBlock | apply emits_bulletedBlock].
  - unfold whyBlock. destruct (whyClaimsFailed r);
      [apply emits_fallbackBlock | apply emits_bulletedBlock].
  - unfold ingredientsBlock. destruct (ingredientsToNote r);
      [apply emits_fallbackBlock | apply emits_bulletedBlock].
  - unfold moreDetailsBlock. destruct (truthy (moreDetails r));
      [|apply emits_id]. emits_steps. apply emits_wrappedLines.
  - unfold ingredientDetailsBlock. destruct (ingredientSpecificDetails r);
      [apply emits_id|]. emits_steps.
    apply emits_fold. intros item. unfold ingredientItem. emits_steps.
    apply emits_wrappedLines.
  - unfold suggestionsBlock. destruct (improvementSuggestions r);
      [apply emits_id | apply emits_bulletedBlock].
  - unfold groundingBlock. destruct (groundingUrls r);
      [apply emits_id|]. emits_steps.
    apply emits_fold. intros url. unfold urlItem. emits_steps.
    apply (emits_emit
             (fun st => TextWithLink (uri url) (margin + 5)
                          (y st + lineHeight / 2) (uri url))).
    intros ?. split; reflexivity.
Qed.

(** The calls of a report: chunks, then the one call of [save]. *)
Lemma report_chunked (r : ParsedResult) (ops : list pdf_op) :
  generatePdfReport pageWidth pageHeight getTextWidth splitTextToSize (Some r)
  = Some ops ->
  exists body,
    ops = body ++ [Save (lit "GreenChoice_Report.pdf")] /\ chunked body.
Proof.
  intros H. injection H as <-.
  destruct (emits_render r newDocument) as [body [E C]].
  exists body. split; [|exact C].
  unfold render. unfold andThen at 1. unfold emit. simpl.
  change (doc ((header r ;; verdictLine getTextWidth r ;; riskLine getTextWidth r
         ;; claimsBlock pageHeight getTextWidth r
         ;; whyBlock pageHeight getTextWidth r
         ;; ingredientsBlock pageHeight getTextWidth r
         ;; moreDetailsBlock pageWidth pageHeight splitTextToSize r
         ;; ingredientDetailsBlock pageWidth pageHeight splitTextToSize r
         ;; suggestionsBlock pageHeight r ;; groundingBlock pageHeight r)%pdf
                 newDocument) ++ [Save (lit "GreenChoice_Report.pdf")]
          = body ++ [Save (lit "GreenChoice_Report.pdf")]).
  rewrite E. reflexivity.
Qed.

(** X7: a report is saved exactly once, under the name
    "GreenChoice_Report.pdf", and saving is the last call made on the
    document; without a parsed result no document is made at all. *)
Theorem report_saved_once_at_the_end :
  generatePdfReport pageWidth pageHeight getTextWidth splitTextToSize None = None
  /\ forall (r : ParsedResult),
       exists body,
         generatePdfReport pageWidth pageHeight getTextWidth splitTextToSize
           (Some r)
         = Some (body ++ [Save (lit "GreenChoice_Report.pdf")])
         /\ existsb isSave body = false.
Proof.
  split; [reflexivity|]. intros r.
  destruct (report_chunked r _ eq_refl) as [body [E C]].
  exists body. split; [|apply chunked_no_save, C].
  unfold generatePdfReport. rewrite E. reflexivity.
Qed.

(** X8: no page of a report is left empty, and every page after the first
    starts at the top margin: each call of [addPage] is followed at once by
    a text placed at y = margin. *)
Theorem new_page_starts_with_text
    (r : ParsedResult) (ops pre post : list pdf_op) :
  generatePdfReport pageWidth pageHeight getTextWidth splitTextToSize (Some r)
  = Some ops ->
  ops = pre ++ AddPage :: post ->
  exists s x post', post = Text s x margin :: post'.
Proof.
  intros H E. destruct (report_chunked r ops H) as [body [Eb C]].
  apply (chunked_pages body C [Save (lit "GreenChoice_Report.pdf")] pre post);
    [reflexivity | congruence].
Qed.

End ReportPages.

Lemma new_page_starts_with_text_witness :
  exists s x post',
    skipn 49 (doc (render 210 297 sampleTextWidth sampleSplit thirtyFourClaims
                     newDocument))
    = Text s x margin :: post'.
Proof.
  apply (new_page_starts_with_text 210 297 sampleTextWidth sampleSplit
           thirtyFourClaims
           (doc (render 210 297 sampleTextWidth sampleSplit thirtyFourClaims
                   newDocument))
           (firstn 48 (doc (render 210 297 sampleTextWidth sampleSplit
                              thirtyFourClaims newDocument)))).
  - reflexivity.
  - vm_compute. reflexivity.
Defined.

(* ================================================================== *)
(** ** The report: what is written, and in which order *)
(* ================================================================== *)

Lemma placedStrings_app (l1 l2 : list pdf_op) :
  placedStrings (l1 ++ l2) = placedStrings l1 ++ placedStrings l2.
Proof. apply flat_map_app. Qed.

Lemma fontOf_snoc (ops : list pdf_op) (op : pdf_op) :
  fontOf (ops ++ [op]) = applyFont (fontOf ops) op.
Proof. unfold fontOf. rewrite fold_left_app. reflexivity. Qed.

Lemma placesIn_id (F : font) : placesIn F F (fun st => st) [].
Proof. intros st HF. split; [symmetry; apply app_nil_r | exact HF]. Qed.

Lemma placesIn_advance (F : font) (dy : Q) : placesIn F F (advance dy) [].
Proof. intros st HF. split; [symmetry; apply app_nil_r | exact HF]. Qed.

Lemma placesIn_emit (F F' : font) (op : pdf_state -> pdf_op)
    (l : list jsstring) :
  (forall st, placedStrings [op st] = l) ->
  (forall st, applyFont F (op st) = F') ->
  placesIn F F' (fun st => emit (op st) st) l.
Proof.
  intros H HF' st HF. unfold emit. simpl doc.
  rewrite placedStrings_app, H, fontOf_snoc, HF, HF'. auto.
Qed.

Lemma placesIn_andThen (F1 F2 F3 : font) (f g : pdf_state -> pdf_state)
    (l1 l2 : list jsstring) :
  placesIn F1 F2 f l1 -> placesIn F2 F3 g l2 ->
  placesIn F1 F3 (f ;; g)%pdf (l1 ++ l2).
Proof.
  intros Hf Hg st HF. unfold andThen.
  destruct (Hf st HF) as [E1 HF2]. destruct (Hg (f st) HF2) as [E2 HF3].
  split; [|exact HF3]. rewrite E2, E1. symmetry. apply app_assoc.
Qed.

Lemma placesIn_fold (F : font) (A : Type) (f : pdf_state -> A -> pdf_state)
    (strings : A -> list jsstring) (l : list A) :
  (forall a, placesIn F F (fun st => f st a) (strings a)) ->
  placesIn F F (fun st => fold_left f l st) (flat_map strings l).
Proof.
  intros Hf. induction l as [|a l IH]; simpl; [apply placesIn_id|].
  intros st HF. destruct (Hf a st HF) as [E1 HF1].
  destruct (IH (f st a) HF1) as [E2 HF2].
  split; [|exact HF2]. rewrite E2, E1. symmetry. apply app_assoc.
Qed.

Lemma placesIn_pageBreakIfNeeded (F : font) (pageHeight need : Q) :
  placesIn F F (pageBreakIfNeeded pageHeight need) [].
Proof.
  intros st HF.
  destruct (pageBreakIfNeeded_cases pageHeight need st) as [[_ ->]|[_ ->]];
    simpl; rewrite ?placedStrings_app, ?fontOf_snoc, ?HF; simpl;
    rewrite ?app_nil_r; auto.
Qed.

Lemma placesIn_eq (F F' : font) (f : pdf_state -> pdf_state)
    (l l' : list jsstring) :
  placesIn F F' f l -> l = l' -> placesIn F F' f l'.
Proof. intros H <-. exact H. Qed.

Lemma flat_map_singleton (A B : Type) (f : A -> B) (l : list A) :
  flat_map (fun a => [f a]) l = map f l.
Proof. induction l as [|a l IH]; simpl; [reflexivity | f_equal; exact IH]. Qed.

Ltac placesIn_steps :=
  repeat match goal with
         | |- placesIn _ _ (andThen _ _) _ => eapply placesIn_andThen
         | |- placesIn ?F ?F' (fun st => andThen ?f ?g st) ?l =>
             change (placesIn F F' (andThen f g) l)
         | |- placesIn _ _ (advance _) _ => apply placesIn_advance
         | |- placesIn _ _ (pageBreakIfNeeded _ _) _ =>
             apply placesIn_pageBreakIfNeeded
         | |- placesIn ?F _ (emit ?op) _ =>
             apply (placesIn_emit F (applyFont F op) (fun _ => op)
                      (placedStrings [op]));
             intros ?; reflexivity
         | |- placesIn ?F _ (text ?s ?x) _ =>
             unfold text;
             apply (placesIn_emit F F (fun st => Text s x (y st)) [s]);
             intros ?; reflexivity
         end.

Section ReportStrings.

Variables pageWidth pageHeight : Q.
Variable getTextWidth : list pdf_op -> jsstring -> Q.
Variable splitTextToSize : list pdf_op -> jsstring -> Q -> list jsstring.

(** [doc.splitTextToSize] wraps a text by the metrics of the font in force:
    of the calls made before it, only those that set the font count. *)
Hypothesis wrap_by_font :
  forall log1 log2 s w,
    fontOf log1 = fontOf log2 ->
    splitTextToSize log1 s w = splitTextToSize log2 s w.

Local Abbreviation B := (fontOf bodyFont).

Lemma placesIn_bulletItems (entries : list jsstring) :
  placesIn B B (fun st => fold_left (bulletItem pageHeight) entries st)
    (map (app BULLET) entries).
Proof.
  rewrite <- flat_map_singleton. apply placesIn_fold. intros entry.
  unfold bulletItem. eapply placesIn_eq; [placesIn_steps|]. reflexivity.
Qed.

Lemma placesIn_bulletedBlock (heading : jsstring) (entries : list jsstring) :
  placesIn B B (bulletedBlock pageHeight heading entries)
    (heading :: map (app BULLET) entries).
Proof.
  unfold bulletedBlock. eapply placesIn_eq.
  - placesIn_steps. apply placesIn_bulletItems.
  - simpl. rewrite app_nil_r. reflexivity.
Qed.

Lemma placesIn_fallbackBlock (heading label fallback : jsstring) :
  placesIn B B (fallbackBlock getTextWidth heading label fallback)
    [heading; fallback].
Proof.
  unfold fallbackBlock. eapply placesIn_eq.
  - placesIn_steps. unfold textAfterLabel.
    apply (placesIn_emit B B
             (fun st => Text fallback (margin + getTextWidth (doc st) label + 2)
                          (y st)) [fallback]); reflexivity.
  - reflexivity.
Qed.

Lemma placesIn_listSection (heading label fallback : jsstring)
    (entries : list jsstring) :
  placesIn B B (match entries with
                | _ :: _ => bulletedBlock pageHeight heading entries
                | [] => fallbackBlock getTextWidth heading label fallback
                end)
    (listSectionStrings heading fallback entries).
Proof.
  destruct entries; [apply placesIn_fallbackBlock | apply placesIn_bulletedBlock].
Qed.

Lemma placesIn_wrappedLines (x : Q) (s : jsstring) (w : Q) :
  placesIn B B (fun st =>
                  fold_left (wrappedLine pageHeight x)
                    (splitTextToSize (doc st) s w) st)
    (splitTextToSize bodyFont s w).
Proof.
  intros st HF. rewrite (wrap_by_font (doc st) bodyFont s w HF).
  set (L := splitTextToSize bodyFont s w).
  assert (H : placesIn B B
                (fun st0 => fold_left (wrappedLine pageHeight x) L st0)
                (flat_map (fun l => [l]) L)).
  { apply placesIn_fold. intros line. unfold wrappedLine.
    eapply placesIn_eq; [placesIn_steps|]. reflexivity. }
  destruct (H st HF) as [E HF'].
  rewrite E, (flat_map_singleton _ _ (fun l : jsstring => l)), map_id.
  auto.
Qed.

Lemma placesIn_render (r : ParsedResult) :
  placesIn (fontOf [])
    (fontOf bodyFont)
    (render pageWidth pageHeight getTextWidth splitTextToSize r)
    (reportStrings (splitTextToSize bodyFont) pageWidth r).
Proof.
  unfold render, reportStrings. eapply placesIn_eq.
  - placesIn_steps.
    + unfold header. placesIn_steps.
    + unfold verdictLine. placesIn_steps.
      apply (placesIn_emit B B
               (fun st => Text (overallVerdict r)
                            (margin
                             + getTextWidth (doc st) (lit "Overall Verdict: "))
                            (y st)) [overallVerdict r]); reflexivity.
    + unfold riskLine. placesIn_steps.
      apply (placesIn_emit B B
               (fun st => Text (greenwashingRisk r)
                            (margin
                             + getTextWidth (doc st) (lit "Greenwashing Risk: "))
                            (y st)) [greenwashingRisk r]); reflexivity.
    + apply (placesIn_listSection H_CLAIMS_FAILED
               (lit "Claims that failed to meet expectations: ") F_NONE).
    + apply (placesIn_listSection H_WHY_FAILED
               (lit "Why these claims failed: ") F_ALL_REASONABLE).
    + apply (placesIn_listSection H_INGREDIENTS_TO_NOTE
               (lit "Ingredients to note: ") F_NONE).
    + unfold moreDetailsBlock.
      instantiate (1 := if truthy (moreDetails r)
                        then H_MORE_DETAILS
                             :: splitTextToSize bodyFont (moreDetails r)
                                  (textWidth pageWidth)
                        else []).
      destruct (truthy (moreDetails r)); [|apply placesIn_id].
      eapply placesIn_eq; [placesIn_steps; apply placesIn_wrappedLines|].
      simpl. rewrite app_nil_r. reflexivity.
    + unfold ingredientDetailsBlock.
      instantiate (1 := optionalSectionStrings IngredientDetail
                          H_INGREDIENT_SPECIFIC
                          (fun item =>
                             (name item ++ [COLON])
                             :: splitTextToSize bodyFont (explanation item)
                                  (textWidth pageWidth - 10))
                          (ingredientSpecificDetails r)).
      destruct (ingredientSpecificDetails r) as [|d ds]; [apply placesIn_id|].
      eapply placesIn_eq.
      * placesIn_steps. apply placesIn_fold. intros item.
        unfold ingredientItem.
        eapply placesIn_eq; [placesIn_steps; apply placesIn_wrappedLines|].
        simpl. rewrite app_nil_r. reflexivity.
      * unfold optionalSectionStrings. simpl. rewrite !app_nil_r. reflexivity.
    + unfold suggestionsBlock.
      instantiate (1 := optionalSectionStrings jsstring H_IMPROVEMENT
                          (fun entry => [BULLET ++ entry])
                          (improvementSuggestions r)).
      destruct (improvementSuggestions r) as [|e es]; [apply placesIn_id|].
      eapply placesIn_eq; [apply placesIn_bulletedBlock|].
      unfold optionalSectionStrings. rewrite flat_map_singleton. reflexivity.
    + unfold groundingBlock.
      instantiate (1 := optionalSectionStrings GroundingUrl H_SOURCES
                          (fun url =>
                             [if truthy (title url) then title url else uri url;
                              uri url])
                          (groundingUrls r)).
      destruct (groundingUrls r) as [|u us]; [apply placesIn_id|].
      eapply placesIn_eq.
      * placesIn_steps. apply placesIn_fold. intros url. unfold urlItem.
        eapply placesIn_eq.
        -- placesIn_steps.
           apply (placesIn_emit B B
                    (fun st => TextWithLink (uri url) (margin + 5)
                                 (y st + lineHeight / 2) (uri url))
                    [uri url]); reflexivity.
        -- reflexivity.
      * unfold optionalSectionStrings. simpl. rewrite !app_nil_r. reflexivity.
  - simpl. rewrite ?app_nil_r. rewrite <- ?app_assoc. reflexivity.
Qed.

(** X9: the strings written on the pages of a report, in the order of the
    calls, are those of the record in the fixed order of the sections,
    whatever the page height is: the page breaks lose, repeat and reorder
    nothing.  The wrapped lines are those that [doc.splitTextToSize] gives in
    the font of the body, 12-point helvetica normal, which is in force at
    each of its calls; the wrapping is taken to depend, of the calls made
    before it, on those that set the font only. *)
Theorem report_strings_in_order (r : ParsedResult) (ops : list pdf_op) :
  generatePdfReport pageWidth pageHeight getTextWidth splitTextToSize (Some r)
  = Some ops ->
  placedStrings ops = reportStrings (splitTextToSize bodyFont) pageWidth r.
Proof.
  intros H. injection H as <-.
  exact (proj1 (placesIn_render r newDocument eq_refl)).
Qed.

End ReportStrings.

Lemma report_strings_in_order_witness :
  placedStrings
    (doc (render 210 297 sampleTextWidth sampleFontSplit verdictAndDetails
            newDocument))
  = reportStrings (sampleFontSplit bodyFont) 210 verdictAndDetails
  /\ sampleFontSplit bodyFont (lit "No misleading claim was found.") 190
     = [lit "No misleading claim was found."]
  /\ sampleFontSplit [] (lit "No misleading claim was found.") 190
     <> [lit "No misleading claim was found."].
Proof.
  split; [|split; [reflexivity | discriminate]].
  apply (report_strings_in_order 210 297 sampleTextWidth sampleFontSplit).
  - intros log1 log2 s w H. unfold sampleFontSplit. rewrite H. reflexivity.
  - reflexivity.
Defined.

(* ================================================================== *)
(** ** checkSustainability *)
(* ================================================================== *)

Lemma split_no_sep (s : jsstring) (sep : char16) :
  ~ In sep s -> split s sep = [s].
Proof.
  induction s as [|c s IH]; intros H; [reflexivity|]. simpl.
  destruct (c =? sep)%N eqn:E.
  - apply N.eqb_eq in E. subst. exfalso. apply H. left; reflexivity.
  - rewrite IH; [reflexivity|]. intros Hin. apply H. right; exact Hin.
Qed.

Lemma split_sep_cons (s : jsstring) (sep : char16) :
  split (sep :: s) sep = [] :: split s sep.
Proof. simpl. rewrite N.eqb_refl. reflexivity. Qed.

(** X10: for a data URL "header,payload" in which neither the header nor
    the payload holds a comma (the payload is base64), [blobToBase64]
    resolves with exactly the payload; for a result without any comma it
    resolves with [undefined] rather than rejecting. *)
Theorem blobToBase64_payload
    (env : Service.Environment) (blob : Service.Blob) (result : jsstring) :
  Service.readAsDataURL env blob = Service.Loaded (Some result) ->
  (forall header payload,
      result = header ++ [Service.COMMA] ++ payload ->
      ~ In Service.COMMA header -> ~ In Service.COMMA payload ->
      Service.blobToBase64 env blob = Service.Resolved (Some payload))
  /\ (~ In Service.COMMA result ->
      Service.blobToBase64 env blob = Service.Resolved None).
Proof.
  intros H. unfold Service.blobToBase64. rewrite H. split.
  - intros header payload -> Hh Hp.
    rewrite split_app, (split_no_sep header _ Hh). cbn [removelast last app].
    change ([Service.COMMA] ++ payload) with (Service.COMMA :: payload).
    rewrite split_sep_cons, (split_no_sep payload _ Hp). reflexivity.
  - intros Hno. rewrite (split_no_sep result _ Hno). reflexivity.
Qed.

Lemma blobToBase64_payload_witness :
  Service.blobToBase64 (reading (lit "data:image/png;base64,iVBORw0KGgo="))
    {| Service.type := lit "image/png"; Service.bytes := [] |}
  = Service.Resolved (Some (lit "iVBORw0KGgo="))
  /\ Service.blobToBase64 (reading (lit "data:"))
       {| Service.type := []; Service.bytes := [] |}
     = Service.Resolved None.
Proof.
  split.
  - apply (proj1 (blobToBase64_payload
                    (reading (lit "data:image/png;base64,iVBORw0KGgo=")) _ _
                    eq_refl) (lit "data:image/png;base64")).
    + reflexivity.
    + vm_compute. intuition discriminate.
    + vm_compute. intuition discriminate.
  - apply (proj2 (blobToBase64_payload (reading (lit "data:")) _ _ eq_refl)).
    vm_compute. intuition discriminate.
Defined.

Lemma titleOrUri_truthy (w : Service.WebSource) :
  Service.titleOrUri w <> [] \/ Service.webUri w = [].
Proof.
  unfold Service.titleOrUri. destruct (Service.webTitle w) as [t|].
  - destruct (truthy t) eqn:E; [left; apply truthy_true, E|].
    destruct (Service.webUri w); [right; reflexivity | left; discriminate].
  - destruct (Service.webUri w); [right; reflexivity | left; discriminate].
Qed.

Lemma extractUrls_titles (chunks : list Service.GroundingChunk) :
  Forall (fun url => title url <> [] \/ uri url = [])
    (Service.extractUrls chunks).
Proof.
  unfold Service.extractUrls. induction chunks as [|c chunks IH]; simpl;
    [constructor|].
  destruct (Service.web c) as [w|]; simpl; [|exact IH].
  constructor; [apply titleOrUri_truthy | exact IH].
Qed.

Lemma extractUrls_uris (chunks : list Service.GroundingChunk) :
  map uri (Service.extractUrls chunks)
  = flat_map (fun chunk => match Service.web chunk with
                           | Some w => [Service.webUri w]
                           | None => []
                           end) chunks.
Proof.
  unfold Service.extractUrls. induction chunks as [|c l IH]; [reflexivity|].
  cbn [flat_map]. rewrite map_app, IH.
  destruct (Service.web c); reflexivity.
Qed.

(** What [checkSustainability] resolves with. *)
Lemma checkSustainability_resolved
    (env : Service.Environment) (textInput : jsstring)
    (imageFile : option Service.File) (response : Service.Response) :
  Service.checkSustainability env textInput imageFile
  = Service.Resolved response ->
  exists contents apiResponse raw,
    Service.buildContents env textInput imageFile = Service.Resolved contents
    /\ contents <> []
    /\ Service.generateContent env contents = Service.Resolved apiResponse
    /\ Service.responseText apiResponse = Some raw /\ raw <> []
    /\ response
       = {| Service.text := trim raw;
            Service.groundingUrls :=
              Service.extractUrls (Service.chunksOf apiResponse) |}.
Proof.
  unfold Service.checkSustainability, Service.callApi.
  destruct (Service.hasApiKey env); [|discriminate].
  destruct (Service.buildContents env textInput imageFile)
    as [[|part parts]|e]; try discriminate.
  destruct (Service.generateContent env (part :: parts)) as [api|[m|m|]] eqn:Eg;
    try discriminate.
  destruct (Service.responseText api) as [t|] eqn:Et; try discriminate.
  destruct (truthy t) eqn:E; try discriminate.
  intros H. injection H as <-.
  exists (part :: parts), api, t.
  split; [reflexivity|]. split; [discriminate|]. split; [exact Eg|].
  split; [exact Et|]. split; [apply truthy_true, E | reflexivity].
Qed.



(** X12: the citations [checkSustainability] resolves with are the web
    sources of the first candidate, in their order, and none has an empty
    title beside a non-empty URI; so the report and the page, which show
    [url.title || url.uri], show the title of each. *)
Theorem service_citations_have_titles
    (env : Service.Environment) (textInput : jsstring)
    (imageFile : option Service.File) (response : Service.Response) :
  Service.checkSustainability env textInput imageFile
  = Service.Resolved response ->
  (exists contents apiResponse,
      Service.generateContent env contents = Service.Resolved apiResponse
      /\ map uri (Service.groundingUrls response)
         = flat_map (fun chunk => match Service.web chunk with
                                  | Some w => [Service.webUri w]
                                  | None => []
                                  end) (Service.chunksOf apiResponse))
  /\ Forall (fun url =>
               (title url <> [] \/ uri url = [])
               /\ (if truthy (title url) then title url else uri url)
                  = title url)
       (Service.groundingUrls response).
Proof.
  intros H.
  destruct (checkSustainability_resolved _ _ _ _ H)
    as (contents & api & raw & _ & _ & Hapi & _ & _ & ->).
  simpl. split.
  - exists contents, api. split; [exact Hapi | apply extractUrls_uris].
  - apply Forall_impl with (2 := extractUrls_titles (Service.chunksOf api)).
    intros url Hu. split; [exact Hu|].
    destruct (title url) eqn:Et; simpl; [|reflexivity].
    destruct Hu as [Hu|Hu]; [congruence | exact Hu].
Qed.

Lemma service_citations_have_titles_witness :
  (exists contents apiResponse,
      Service.generateContent (answering (lit "Some text")) contents
      = Service.Resolved apiResponse
      /\ map uri [{| uri := lit "https://example.org";
                     title := lit "https://example.org" |}]
         = flat_map (fun chunk => match Service.web chunk with
                                  | Some w => [Service.webUri w]
                                  | None => []
                                  end) (Service.chunksOf apiResponse))
  /\ Forall (fun url =>
               (title url <> [] \/ uri url = [])
               /\ (if truthy (title url) then title url else uri url)
                  = title url)
       [{| uri := lit "https://example.org";
           title := lit "https://example.org" |}].
Proof.
  apply (service_citations_have_titles (answering (lit "Some text"))
           (lit "water, glycerin") None
           {| Service.text := lit "Some text";
              Service.groundingUrls :=
                [{| uri := lit "https://example.org";
                    title := lit "https://example.org" |}] |}).
  vm_compute. reflexivity.
Defined.

(** What [checkSustainability] is rejected with. *)
Lemma checkSustainability_rejected
    (env : Service.Environment) (textInput : jsstring)
    (imageFile : option Service.File) (e : Service.thrown) :
  Service.checkSustainability env textInput imageFile = Service.Rejected e ->
  exists message,
    e = Service.ErrorObject message
    /\ ((Service.hasApiKey env = false /\ message = Service.E_API_KEY)
        \/ (Service.hasApiKey env = true
            /\ (In message [Service.E_AVIF; Service.E_IMAGE;
                            Service.E_NO_INPUT; Service.E_UNKNOWN]
                \/ exists detail, message = Service.E_API_PREFIX ++ detail))).
Proof.
  unfold Service.checkSustainability, Service.callApi.
  destruct (Service.hasApiKey env).
  2:{ intros H. injection H as <-. eexists. split; [reflexivity|].
      left. split; reflexivity. }
  intros H.
  cut (exists message,
          e = Service.ErrorObject message
          /\ (In message [Service.E_AVIF; Service.E_IMAGE;
                          Service.E_NO_INPUT; Service.E_UNKNOWN]
              \/ exists detail, message = Service.E_API_PREFIX ++ detail)).
  { intros (m & He & Hm). exists m. split; [exact He|]. right. split; auto. }
  revert H.
  destruct (Service.buildContents env textInput imageFile)
    as [[|part parts]|e0] eqn:Eb.
  - intros H. injection H as <-. eexists. split; [reflexivity|].
    left. simpl. tauto.
  - destruct (Service.generateContent env (part :: parts)) as [api|[m|m|]].
    + destruct (Service.responseText api) as [t|];
        [destruct (truthy t); [discriminate|]|];
        intros H; injection H as <-; eexists; (split; [reflexivity|]);
        right; eexists; reflexivity.
    + intros H. injection H as <-. eexists. split; [reflexivity|].
      right. eexists. reflexivity.
    + intros H. injection H as <-. eexists. split; [reflexivity|].
      left. simpl. tauto.
    + intros H. injection H as <-. eexists. split; [reflexivity|].
      left. simpl. tauto.
  - intros H. injection H as <-.
    unfold Service.buildContents in Eb.
    destruct imageFile as [file|]; [|discriminate].
    destruct (eqb (Service.type file) (lit "image/avif")).
    + destruct (Service.convertAvifToJpegBlob env file) as [blob|e1].
      * destruct (Service.blobToBase64 env blob); [discriminate|].
        injection Eb as <-. eexists. split; [reflexivity|]. left. simpl. tauto.
      * injection Eb as <-. eexists. split; [reflexivity|]. left. simpl. tauto.
    + destruct (Service.blobToBase64 env file); [discriminate|].
      injection Eb as <-. eexists. split; [reflexivity|]. left. simpl. tauto.
Qed.



(* ================================================================== *)
(** ** handleSubmit *)
(* ================================================================== *)

Lemma parse_null (rawText : jsstring) :
  parseSustainabilityResult rawText = Normal None -> irrelevant rawText = true.
Proof.
  unfold parseSustainabilityResult.
  destruct (irrelevant rawText); [reflexivity|].
  destruct (scan (split rawText LF) initial_state); discriminate.
Qed.

Lemma parse_throw (rawText : jsstring) (e : js_error) :
  parseSustainabilityResult rawText = Throw e -> irrelevant rawText = false.
Proof.
  unfold parseSustainabilityResult.
  destruct (irrelevant rawText); [discriminate | reflexivity].
Qed.

Lemma irrelevant_not_sentinel (rawText : jsstring) :
  irrelevant rawText = false ->
  eqb (trim rawText) (trim IRRELEVANT_INPUT_MESSAGE) = false.
Proof.
  unfold irrelevant. intros H. apply orb_false_iff in H as [_ H]. exact H.
Qed.

(** What [handleSubmit] leaves when the awaited promise is not rejected
    with [undefined] or [null]. *)
Lemma handleSubmit_cases
    (typeErrorMessage : jsstring)
    (checkSustainability :
       jsstring -> option Service.File -> Service.promise Service.Response)
    (s : App.State) :
  checkSustainability (App.productInput s) (App.imageFile s)
  <> Service.Rejected Service.Nullish ->
  let s' := App.handleSubmit typeErrorMessage checkSustainability s in
  App.loading s' = false
  /\ App.showMoreDetails s' = false
  /\ App.showIngredientSpecificDetails s' = false
  /\ App.showImprovementSuggestions s' = false
  /\ App.showGroundingUrls s' = false
  /\ ((exists m, App.error s' = Some m
                 /\ App.irrelevantInputMessage s' = None
                 /\ App.parsedResult s' = None /\ App.result s' = None)
      \/ (exists t, App.irrelevantInputMessage s' = Some t
                    /\ App.error s' = None
                    /\ App.parsedResult s' = None /\ App.result s' = None)
      \/ (exists p t, App.parsedResult s' = Some p /\ App.result s' = Some t
                      /\ App.error s' = None
                      /\ App.irrelevantInputMessage s' = None)
      \/ (App.result s' = Some [] /\ App.parsedResult s' = None
          /\ App.error s' = None /\ App.irrelevantInputMessage s' = None)).
Proof.
  intros Hc s'. subst s'. unfold App.handleSubmit.
  destruct (App.noInput s).
  { simpl. repeat split. left. eexists. repeat split. }
  destruct (checkSustainability (App.productInput s) (App.imageFile s))
    as [response|[m|m|]].
  - unfold App.showResponse.
    destruct (eqb (trim (Service.text response)) (trim IRRELEVANT_INPUT_MESSAGE))
      eqn:Es.
    { simpl. repeat split. right; left. eexists. repeat split. }
    destruct (parseSustainabilityResult (Service.text response))
      as [[p|]|[]] eqn:Ep.
    + simpl. repeat split. right; right; left. do 2 eexists. repeat split.
    + apply parse_null, irrelevant_spec in Ep. destruct Ep as [Ep|Ep].
      * rewrite Ep. simpl. repeat split. right; right; right. repeat split.
      * apply eqb_neq in Es. contradiction.
    + simpl. repeat split. left. eexists. repeat split.
  - simpl. repeat split. left. eexists. repeat split.
  - simpl. repeat split. left. eexists. repeat split.
  - contradiction Hc. reflexivity.
Qed.

(** X14: when [handleSubmit] has completed on the [checkSustainability] of
    the service, [loading] is false, the four sections are collapsed, and
    exactly one of four things is shown: an error message; the
    irrelevant-input message; a parsed record together with the raw text; or
    nothing, with the empty string as raw text (the answer was empty).  An
    error or the irrelevant-input message never comes with a record or a raw
    text.  The service rejects with an [Error] only, so the [catch] of line
    243 can always read [err.message]. *)
Theorem handleSubmit_outcomes
    (typeErrorMessage : jsstring) (env : Service.Environment)
    (s : App.State) :
  let s' := App.handleSubmit typeErrorMessage
              (Service.checkSustainability env) s in
  App.loading s' = false
  /\ App.showMoreDetails s' = false
  /\ App.showIngredientSpecificDetails s' = false
  /\ App.showImprovementSuggestions s' = false
  /\ App.showGroundingUrls s' = false
  /\ ((exists m, App.error s' = Some m
                 /\ App.irrelevantInputMessage s' = None
                 /\ App.parsedResult s' = None /\ App.result s' = None)
      \/ (exists t, App.irrelevantInputMessage s' = Some t
                    /\ App.error s' = None
                    /\ App.parsedResult s' = None /\ App.result s' = None)
      \/ (exists p t, App.parsedResult s' = Some p /\ App.result s' = Some t
                      /\ App.error s' = None
                      /\ App.irrelevantInputMessage s' = None)
      \/ (App.result s' = Some [] /\ App.parsedResult s' = None
          /\ App.error s' = None /\ App.irrelevantInputMessage s' = None)).
Proof.
  apply handleSubmit_cases. intros H.
  apply checkSustainability_rejected in H as (m & H & _). discriminate H.
Qed.

(** X15: a record is shown only for a resolved response, and it is the
    record parsed from the text of that response with the citations of the
    response put in; the raw text stored beside it is that text. *)
Theorem handleSubmit_shows_parsed_response
    (typeErrorMessage : jsstring)
    (checkSustainability :
       jsstring -> option Service.File -> Service.promise Service.Response)
    (s : App.State) (p : ParsedResult) :
  App.parsedResult (App.handleSubmit typeErrorMessage checkSustainability s)
  = Some p ->
  exists response r,
    checkSustainability (App.productInput s) (App.imageFile s)
    = Service.Resolved response
    /\ parseSustainabilityResult (Service.text response) = Normal (Some r)
    /\ p = set_groundingUrls r (Service.groundingUrls response)
    /\ groundingUrls p = Service.groundingUrls response
    /\ App.result (App.handleSubmit typeErrorMessage checkSustainability s)
       = Some (Service.text response).
Proof.
  unfold App.handleSubmit. destruct (App.noInput s); [discriminate|].
  destruct (checkSustainability (App.productInput s) (App.imageFile s))
    as [response|[m|m|]] eqn:Ec; try discriminate.
  unfold App.showResponse.
  destruct (eqb (trim (Service.text response)) (trim IRRELEVANT_INPUT_MESSAGE));
    [discriminate|].
  destruct (parseSustainabilityResult (Service.text response))
    as [[r|]|[]] eqn:Ep; try discriminate.
  simpl. intros H. injection H as <-.
  exists response, r. repeat split; auto.
Qed.

Lemma handleSubmit_shows_parsed_response_witness :
  exists response r,
    Service.checkSustainability (answering (lit "Overall Verdict:" ++ [LF] ++ lit "High"))
      (lit "water, glycerin") None
    = Service.Resolved response
    /\ parseSustainabilityResult (Service.text response) = Normal (Some r)
    /\ set_groundingUrls (set_overallVerdict empty_result (lit "High"))
         [{| uri := lit "https://example.org";
             title := lit "https://example.org" |}]
       = set_groundingUrls r (Service.groundingUrls response)
    /\ groundingUrls
         (set_groundingUrls (set_overallVerdict empty_result (lit "High"))
            [{| uri := lit "https://example.org";
                title := lit "https://example.org" |}])
       = Service.groundingUrls response
    /\ App.result
         (App.handleSubmit (lit "Cannot read properties of undefined")
            (Service.checkSustainability
               (answering (lit "Overall Verdict:" ++ [LF] ++ lit "High")))
            {| App.productInput := lit "water, glycerin";
               App.imageFile := None; App.previewUrl := None;
               App.loading := false; App.result := None;
               App.parsedResult := None;
               App.irrelevantInputMessage := None; App.error := None;
               App.showMoreDetails := true;
               App.showIngredientSpecificDetails := false;
               App.showImprovementSuggestions := false;
               App.showGroundingUrls := false |})
       = Some (Service.text response).
Proof.
  apply (handleSubmit_shows_parsed_response
           (lit "Cannot read properties of undefined")
           (Service.checkSustainability
              (answering (lit "Overall Verdict:" ++ [LF] ++ lit "High")))
           {| App.productInput := lit "water, glycerin";
              App.imageFile := None; App.previewUrl := None;
              App.loading := false; App.result := None;
              App.parsedResult := None;
              App.irrelevantInputMessage := None; App.error := None;
              App.showMoreDetails := true;
              App.showIngredientSpecificDetails := false;
              App.showImprovementSuggestions := false;
              App.showGroundingUrls := false |}).
  vm_compute. reflexivity.
Defined.

Lemma trim_nil_of_untruthy (p : jsstring) : truthy p = false -> trim p = [].
Proof. intros H. apply truthy_false in H. subst. reflexivity. Qed.

(** X16: the submit button and [handleSubmit] test the input differently:
    the button ([isFormValid]) trims the text, the function does not.
    Whenever the button is enabled the function passes its own check and
    never shows "Please provide either text input or an image."; a text of
    white space only, without image, disables the button but would pass the
    check of the function. *)
Theorem form_valid_passes_input_check
    (typeErrorMessage : jsstring)
    (checkSustainability :
       jsstring -> option Service.File -> Service.promise Service.Response)
    (s : App.State) :
  (App.isFormValid s = true ->
   App.noInput s = false
   /\ App.error (App.handleSubmit typeErrorMessage checkSustainability s)
      <> Some App.M_NO_INPUT)
  /\ (App.productInput s <> [] ->
      whitespaceOnly (App.productInput s) = true ->
      App.imageFile s = None ->
      App.isFormValid s = false /\ App.noInput s = false).
Proof.
  split.
  - intros Hv.
    assert (Hn : App.noInput s = false).
    { unfold App.isFormValid, App.noInput in *.
      destruct (App.imageFile s); [apply andb_false_r|].
      rewrite orb_false_r in Hv. apply negb_true_iff in Hv.
      destruct (truthy (App.productInput s)) eqn:E; [reflexivity|].
      rewrite (trim_nil_of_untruthy _ E) in Hv. discriminate. }
    split; [exact Hn|].
    unfold App.handleSubmit. rewrite Hn.
    assert (Hf : forall m s0,
               App.error (App.setLoading false (App.failed m s0))
               <> Some App.M_NO_INPUT).
    { intros m s0 H. vm_compute in H. discriminate H. }
    destruct (checkSustainability (App.productInput s) (App.imageFile s))
      as [response|[m|m|]]; try apply Hf; [|simpl; discriminate].
    unfold App.showResponse.
    destruct (eqb (trim (Service.text response)) (trim IRRELEVANT_INPUT_MESSAGE));
      [simpl; discriminate|].
    destruct (parseSustainabilityResult (Service.text response)) as [parsed|[]];
      [simpl; discriminate | apply Hf].
  - intros Hne Hws Hi. unfold App.isFormValid, App.noInput.
    rewrite Hi, (trim_whitespaceOnly _ Hws).
    apply truthy_true in Hne. rewrite Hne. split; reflexivity.
Qed.

Lemma form_valid_passes_input_check_witness :
  (App.noInput
     {| App.productInput := lit " water "; App.imageFile := None;
        App.previewUrl := None; App.loading := false; App.result := None;
        App.parsedResult := None; App.irrelevantInputMessage := None;
        App.error := None; App.showMoreDetails := false;
        App.showIngredientSpecificDetails := false;
        App.showImprovementSuggestions := false;
        App.showGroundingUrls := false |} = false
   /\ App.error
        (App.handleSubmit [] (fun _ _ => Service.Rejected (Service.OtherValue None))
           {| App.productInput := lit " water "; App.imageFile := None;
              App.previewUrl := None; App.loading := false; App.result := None;
              App.parsedResult := None; App.irrelevantInputMessage := None;
              App.error := None; App.showMoreDetails := false;
              App.showIngredientSpecificDetails := false;
              App.showImprovementSuggestions := false;
              App.showGroundingUrls := false |})
      <> Some App.M_NO_INPUT)
  /\ (App.isFormValid
        {| App.productInput := lit "  "; App.imageFile := None;
           App.previewUrl := None; App.loading := false; App.result := None;
           App.parsedResult := None; App.irrelevantInputMessage := None;
           App.error := None; App.showMoreDetails := false;
           App.showIngredientSpecificDetails := false;
           App.showImprovementSuggestions := false;
           App.showGroundingUrls := false |} = false
      /\ App.noInput
           {| App.productInput := lit "  "; App.imageFile := None;
              App.previewUrl := None; App.loading := false; App.result := None;
              App.parsedResult := None; App.irrelevantInputMessage := None;
              App.error := None; App.showMoreDetails := false;
              App.showIngredientSpecificDetails := false;
              App.showImprovementSuggestions := false;
              App.showGroundingUrls := false |} = false).
Proof.
  split.
  - apply (proj1 (form_valid_passes_input_check []
                    (fun _ _ => Service.Rejected (Service.OtherValue None)) _)).
    reflexivity.
  - apply (proj2 (form_valid_passes_input_check []
                    (fun _ _ => Service.Rejected (Service.OtherValue None)) _));
      [discriminate | reflexivity | reflexivity].
Defined.

(** X17: the check "No input (text or image) provided" of
    [checkSustainability] never fires on a call made by [handleSubmit]:
    once the check of line 225 has passed, the request has a part, or the
    image has failed with another message. *)
Theorem service_no_input_unreachable
    (env : Service.Environment) (s : App.State) :
  App.noInput s = false ->
  Service.checkSustainability env (App.productInput s) (App.imageFile s)
  <> Service.Rejected (Service.ErrorObject Service.E_NO_INPUT).
Proof.
  intros Hn. unfold Service.checkSustainability, Service.callApi.
  destruct (Service.hasApiKey env);
    [|intros H; vm_compute in H; discriminate H].
  destruct (Service.buildContents env (App.productInput s) (App.imageFile s))
    as [[|part parts]|e] eqn:Eb.
  - exfalso. unfold Service.buildContents, App.noInput in *.
    destruct (App.imageFile s) as [file|].
    + destruct (eqb (Service.type file) (lit "image/avif")).
      * destruct (Service.convertAvifToJpegBlob env file) as [blob|];
          [|discriminate].
        destruct (Service.blobToBase64 env blob); [|discriminate].
        injection Eb as Eb. destruct (truthy (App.productInput s)); discriminate.
      * destruct (Service.blobToBase64 env file); [|discriminate].
        injection Eb as Eb. destruct (truthy (App.productInput s)); discriminate.
    + rewrite andb_true_r in Hn. apply negb_false_iff in Hn.
      rewrite Hn in Eb. discriminate.
  - destruct (Service.generateContent env (part :: parts)) as [api|[m|m|]].
    + destruct (Service.responseText api) as [t|];
        [destruct (truthy t); [discriminate|]|];
        intros H; vm_compute in H; discriminate H.
    + intros H. vm_compute in H. discriminate H.
    + intros H. vm_compute in H. discriminate H.
    + intros H. vm_compute in H. discriminate H.
  - unfold Service.buildContents in Eb.
    destruct (App.imageFile s) as [file|]; [|discriminate].
    destruct (eqb (Service.type file) (lit "image/avif")).
    + destruct (Service.convertAvifToJpegBlob env file) as [blob|].
      * destruct (Service.blobToBase64 env blob); [discriminate|].
        injection Eb as <-. intros H. vm_compute in H. discriminate H.
      * injection Eb as <-. intros H. vm_compute in H. discriminate H.
    + destruct (Service.blobToBase64 env file); [discriminate|].
      injection Eb as <-. intros H. vm_compute in H. discriminate H.
Qed.

Lemma service_no_input_unreachable_witness :
  Service.checkSustainability (answering [])
    (lit " ") None
  <> Service.Rejected (Service.ErrorObject Service.E_NO_INPUT).
Proof.
  apply (service_no_input_unreachable (answering [])
           {| App.productInput := lit " "; App.imageFile := None;
              App.previewUrl := None; App.loading := false; App.result := None;
              App.parsedResult := None; App.irrelevantInputMessage := None;
              App.error := None; App.showMoreDetails := false;
              App.showIngredientSpecificDetails := false;
              App.showImprovementSuggestions := false;
              App.showGroundingUrls := false |}).
  reflexivity.
Defined.

(** X18: when the text [checkSustainability] resolves with makes
    [parseSustainabilityResult] throw, [handleSubmit] ends with the error
    "Failed to check sustainability: " followed by the message of the
    [TypeError], and shows neither record nor raw text.  As the service
    trims the answer of the API, this happens for an answer that ends with
    "Overall Verdict:" and a newline, which parses to a record when it is
    not trimmed. *)
Theorem handleSubmit_reports_parse_failure
    (typeErrorMessage : jsstring) (env : Service.Environment)
    (s : App.State) (response : Service.Response) :
  App.noInput s = false ->
  Service.checkSustainability env (App.productInput s) (App.imageFile s)
  = Service.Resolved response ->
  parseSustainabilityResult (Service.text response) = Throw TypeError ->
  let s' := App.handleSubmit typeErrorMessage
              (Service.checkSustainability env) s in
  App.error s'
  = Some (App.M_FAILED
          ++ (if truthy typeErrorMessage then typeErrorMessage
              else App.M_UNKNOWN))
  /\ App.parsedResult s' = None /\ App.result s' = None
  /\ App.irrelevantInputMessage s' = None /\ App.loading s' = false.
Proof.
  intros Hn Hr Hp s'. subst s'. unfold App.handleSubmit.
  rewrite Hn, Hr. unfold App.showResponse.
  rewrite (irrelevant_not_sentinel _ (parse_throw _ _ Hp)), Hp.
  simpl. repeat split.
Qed.

Lemma handleSubmit_reports_parse_failure_witness :
  let s' :=
    App.handleSubmit (lit "Cannot read properties of undefined")
      (Service.checkSustainability (answering (lit "Overall Verdict:" ++ [LF])))
      {| App.productInput := lit "water, glycerin"; App.imageFile := None;
         App.previewUrl := None; App.loading := false; App.result := None;
         App.parsedResult := None; App.irrelevantInputMessage := None;
         App.error := None; App.showMoreDetails := false;
         App.showIngredientSpecificDetails := false;
         App.showImprovementSuggestions := false;
         App.showGroundingUrls := false |} in
  App.error s'
  = Some (App.M_FAILED
          ++ (if truthy (lit "Cannot read properties of undefined")
              then lit "Cannot read properties of undefined"
              else App.M_UNKNOWN))
  /\ App.parsedResult s' = None /\ App.result s' = None
  /\ App.irrelevantInputMessage s' = None /\ App.loading s' = false.
Proof.
  apply (handleSubmit_reports_parse_failure
           (lit "Cannot read properties of undefined")
           (answering (lit "Overall Verdict:" ++ [LF]))
           {| App.productInput := lit "water, glycerin"; App.imageFile := None;
              App.previewUrl := None; App.loading := false; App.result := None;
              App.parsedResult := None; App.irrelevantInputMessage := None;
              App.error := None; App.showMoreDetails := false;
              App.showIngredientSpecificDetails := false;
              App.showImprovementSuggestions := false;
              App.showGroundingUrls := false |}
           {| Service.text := lit "Overall Verdict:";
              Service.groundingUrls :=
                [{| uri := lit "https://example.org";
                    title := lit "https://example.org" |}] |});
    vm_compute; reflexivity.
Defined.

(* ================================================================== *)
(** ** A text without headers *)
(* ================================================================== *)

Lemma line_step_no_header (ic line : jsstring) :
  isHeader line = false ->
  exists ic',
    line_step (with_result initial_state (set_icon empty_result ic)) line
    = with_result initial_state (set_icon empty_result ic').
Proof.
  intros Hh. unfold line_step. destruct (startsWithIcon line) eqn:Hi.
  - eexists. reflexivity.
  - exists ic.
    assert (E : forall st, section_line st line = section_body st line).
    { intros st. rewrite <- (section_line_plain st line)
        by (unfold plainLine; rewrite Hi, Hh; reflexivity).
      unfold line_step. rewrite Hi. reflexivity. }
    rewrite E. reflexivity.
Qed.

Lemma steps_no_header (lines : list jsstring) :
  Forall (fun raw => isHeader (trim raw) = false) lines ->
  forall ic, exists ic',
    steps (with_result initial_state (set_icon empty_result ic)) lines
    = with_result initial_state (set_icon empty_result ic').
Proof.
  induction 1 as [|raw lines Hraw _ IH]; intros ic.
  - exists ic. reflexivity.
  - unfold steps. cbn [fold_left].
    destruct (line_step_no_header ic (trim raw) Hraw) as [ic1 ->].
    apply IH.
Qed.

(** X19: from a text none of whose lines starts with one of the eight
    headers (and which is neither empty nor the guidance message), nothing
    is extracted: the record returned has every field empty, the icon
    apart. *)
Theorem headerless_text_gives_empty_record (rawText : jsstring) :
  rawText <> [] ->
  trim rawText <> trim IRRELEVANT_INPUT_MESSAGE ->
  Forall (fun raw => isHeader (trim raw) = false) (split rawText LF) ->
  exists ic,
    parseSustainabilityResult rawText
    = Normal (Some (set_icon empty_result ic)).
Proof.
  intros Hne Hs Hlines.
  rewrite (parse_relevant _ (irrelevant_false _ Hne Hs)).
  rewrite <- (app_nil_r (split rawText LF)).
  rewrite scan_app_nonconsuming
    by (apply Forall_impl with (2 := Hlines); intros raw;
        apply notHeader_nonconsuming).
  destruct (steps_no_header _ Hlines []) as [ic E].
  exists ic. change initial_state
    with (with_result initial_state (set_icon empty_result [])) at 1.
  rewrite E. reflexivity.
Qed.

Lemma headerless_text_gives_empty_record_witness :
  exists ic,
    parseSustainabilityResult
      (ICON_CROSS ++ lit " This product is bad." ++ [LF]
       ++ lit "- Claim A" ++ [LF] ++ lit "Paraben:")
    = Normal (Some (set_icon empty_result ic)).
Proof.
  apply headerless_text_gives_empty_record.
  - discriminate.
  - vm_compute. discriminate.
  - vm_compute. repeat constructor.
Defined.
